(** * NoodleML: the numeric core (Perceptron, Neuron, NeuralNetwork)

    A shallow embedding of [src/NoodleML/Model/NeuralNetwork.js] and of the
    activation catalogue.  JavaScript numbers are IEEE 754 binary64 values, so
    they are embedded as Rocq's primitive floats: every [+], [-], [*] and
    comparison below is the very operation the engine performs, in the order
    JavaScript's precedence rules give it. *)

From Stdlib Require Import String Ascii DecimalString.
From Stdlib Require Import List Arith ZArith Lia Bool.
From Stdlib Require Import Uint63 PrimFloat FloatOps SpecFloat FloatAxioms.
Import ListNotations.

Set Implicit Arguments.
Set Warnings "-register-all".

(** ** JavaScript arrays of numbers *)

(** [a[i]] read inside an arithmetic expression: a missing element is
    [undefined], which every numeric operator coerces to [NaN]. *)
Definition js_get (a : list float) (i : nat) : float := nth i a nan.

(** [a[i] = v].  Inside the bounds the element is replaced; at [a.length] the
    array grows by one element; further out JavaScript leaves holes, which read
    back as [undefined] and are rendered here by the [NaN] they coerce to. *)
Definition js_set (a : list float) (i : nat) (v : float) : list float :=
  if i <? length a
  then firstn i a ++ v :: skipn (S i) a
  else a ++ repeat nan (i - length a) ++ [v].

(** [a.map((x, i) => g(x, i))] *)
Fixpoint map_from {A B : Type} (g : A -> nat -> B) (i : nat) (a : list A) : list B :=
  match a with
  | [] => []
  | x :: a' => g x i :: map_from g (S i) a'
  end.

Definition js_map {A B : Type} (g : A -> nat -> B) (a : list A) : list B :=
  map_from g 0 a.

(** [a.reduce((s, x, i) => g(s, x, i), init)] *)
Fixpoint reduce_from {A B : Type} (g : B -> A -> nat -> B) (i : nat) (a : list A) (s : B) : B :=
  match a with
  | [] => s
  | x :: a' => reduce_from g (S i) a' (g s x i)
  end.

Definition js_reduce {A B : Type} (g : B -> A -> nat -> B) (a : list A) (init : B) : B :=
  reduce_from g 0 a init.

(** [for (let i = 0; i < n; i++) st = body(st, i)] with an integer bound [n]
    (an array length). *)
Definition for_upto {St : Type} (n : nat) (body : St -> nat -> St) (st : St) : St :=
  fold_left body (seq 0 n) st.

(** [Math.max] and [Math.min] on two arguments: [NaN] is contagious and
    [+0] counts as larger than [-0]. *)
Definition Math_max (a b : float) : float :=
  if is_nan a || is_nan b then nan
  else if (a <? b)%float then b
  else if (b <? a)%float then a
  else if get_sign a then b else a.

Definition Math_min (a b : float) : float :=
  if is_nan a || is_nan b then nan
  else if (a <? b)%float then a
  else if (b <? a)%float then b
  else if get_sign a then a else b.

(** ** Exceptions *)

(** One constructor per [throw] site of the model, plus the errors the engine
    raises by itself. *)
Inductive Error : Type :=
| LayerSizesTooShort      (* "layerSizes doit etre un tableau avec au moins deux elements." *)
| LayerSizeNotPositive    (* "Chaque element de layerSizes doit etre un nombre entier positif." *)
| IndexOutOfBounds (index : nat)  (* `Index ${index} hors des bornes d'entree.` *)
| WeightCountMismatch     (* "Le nombre de poids ne correspond pas au nombre de connexions." *)
| InvalidModel            (* "Modele invalide ou corrompu" *)
| TypeError               (* property read on undefined or null *)
| RangeError.             (* invalid array length *)

Inductive outcome (A : Type) : Type :=
| Return (a : A)
| Throw (e : Error).

Arguments Return {A} a.
Arguments Throw {A} e.

(** A method of an object of state [St]: it ends normally or by an exception,
    and in both cases leaves the object as it was at that moment (JavaScript
    does not roll mutations back when an exception is thrown). *)
Definition M (St A : Type) : Type := St -> outcome A * St.

Definition ret {St A : Type} (a : A) : M St A := fun s => (Return a, s).
Definition throw {St A : Type} (e : Error) : M St A := fun s => (Throw e, s).
Definition bind {St A B : Type} (m : M St A) (k : A -> M St B) : M St B :=
  fun s => match m s with
           | (Return a, s') => k a s'
           | (Throw e, s') => (Throw e, s')
           end.
Definition get_state {St : Type} : M St St := fun s => (Return s, s).
Definition put_state {St : Type} (s : St) : M St unit := fun _ => (Return tt, s).

Notation "x <- m ;; k" := (bind m (fun x => k))
  (at level 61, m at next level, right associativity).
Notation "m ;;; k" := (bind m (fun _ => k))
  (at level 61, right associativity).

(** ** ActivationFunctions *)

Record Activation : Type := {
  act_name : string;
  f : float -> float;
  df : float -> float
}.

(** The transcendental functions of the engine's [Math] object.  Primitive
    floats do not provide them, so the catalogue takes them as a parameter. *)
Record MathLib : Type := {
  Math_exp : float -> float;
  Math_tanh : float -> float;
  Math_expm1 : float -> float;
  Math_log : float -> float;
  Math_pow : float -> float -> float
}.

Module ActivationFunctions.

Definition binary : Activation := {|
  act_name := "binary [0,1]";
  f := fun x => if (0.5 <=? x)%float then 1%float else 0%float;
  df := fun _ => 0%float
|}.

Definition linearBounded : Activation := {|
  act_name := "linear[-1,1]";
  f := fun x => Math_max (-1)%float (Math_min 1%float x);
  df := fun x => if (x <? -1)%float || (1 <? x)%float then 0%float else 1%float
|}.

Definition sigmoid (m : MathLib) : Activation := {|
  act_name := "sigmoid";
  f := fun x => (1 / (1 + Math_exp m (- x)))%float;
  df := fun x => let s := (1 / (1 + Math_exp m (- x)))%float in (s * (1 - s))%float
|}.

Definition relu : Activation := {|
  act_name := "relu";
  f := fun x => Math_max 0%float x;
  df := fun x => if (0 <? x)%float then 1%float else 0%float
|}.

Definition tanh (m : MathLib) : Activation := {|
  act_name := "tanh";
  f := fun x => Math_tanh m x;
  df := fun x => (1 - Math_pow m (Math_tanh m x) 2)%float
|}.

(** The literal [0.01] denotes the binary64 value written here in
    hexadecimal. *)
Definition leakyRelu : Activation := {|
  act_name := "leakyReLU";
  f := fun x => if (0 <? x)%float then x else (0x1.47ae147ae147bp-7 * x)%float;
  df := fun x => if (0 <? x)%float then 1%float else 0x1.47ae147ae147bp-7%float
|}.

Definition elu (m : MathLib) : Activation := {|
  act_name := "ELU";
  f := fun x => if (0 <=? x)%float then x else Math_expm1 m x;
  df := fun x => if (0 <=? x)%float then 1%float else Math_exp m x
|}.

Definition softplus (m : MathLib) : Activation := {|
  act_name := "Softplus";
  f := fun x => Math_log m (1 + Math_exp m x)%float;
  df := fun x => (1 / (1 + Math_exp m (- x)))%float
|}.

(** [Object.values(ActivationFunctions)], in declaration order. *)
Definition values (m : MathLib) : list Activation :=
  [binary; linearBounded; sigmoid m; relu; tanh m; leakyRelu; elu m; softplus m].

End ActivationFunctions.

(** ** The world outside the objects: [Math.random] *)

(** [Math.random()] draws the next number of a sequence that the program does
    not control. *)
Record World : Type := {
  random_source : nat -> float;
  random_calls : nat
}.

Definition Math_random : M World float :=
  fun w => (Return (random_source w (random_calls w)),
            {| random_source := random_source w; random_calls := S (random_calls w) |}).

(** [Math.random() * 2 - 1] *)
Definition random_weight : M World float :=
  r <- Math_random ;; ret (r * 2 - 1)%float.

(** The number that an array length is. *)
Definition number_of_nat (n : nat) : float :=
  PrimFloat.of_uint63 (Uint63.of_Z (Z.of_nat n)).

(** [ToLength]: the integer an array-like's [length] stands for. *)
Definition ToLength (x : float) : Z :=
  match Prim2SF x with
  | S754_finite false m e => Z.min (Z.shiftl (Z.pos m) e) (2 ^ 53 - 1)
  | S754_infinity false => 2 ^ 53 - 1
  | _ => 0
  end.

Fixpoint replicateM {St A : Type} (n : nat) (gen : M St A) : M St (list A) :=
  match n with
  | O => ret []
  | S n' => x <- gen ;; rest <- replicateM n' gen ;; ret (x :: rest)
  end.

(** [Array.from({ length: len }, () => gen())]: an array cannot have more than
    [2^32 - 1] elements. *)
Definition Array_from {St A : Type} (len : float) (gen : M St A) : M St (list A) :=
  let n := ToLength len in
  if (2 ^ 32 <=? n)%Z then throw RangeError else replicateM (Z.to_nat n) gen.

(** [for (let i = 0; i < count; i++)] where [count] is a number: how many
    times the body runs.  The counter is a number too; [None] when the loop is
    still running after [fuel] rounds. *)
Fixpoint iterations_from (fuel : nat) (i count : float) : option nat :=
  match fuel with
  | O => None
  | S fuel' =>
      if (i <? count)%float
      then option_map S (iterations_from fuel' (i + 1)%float count)
      else Some O
  end.

Definition iterations (fuel : nat) (count : float) : option nat :=
  iterations_from fuel 0%float count.

(** The [name] of a unit: a string literal, or the template
    [`${String.fromCharCode(64 + l)}${i}`] kept by its two numbers. *)
Inductive Name : Type :=
| Literal (s : string)
| LayerPosition (l i : nat).

(** ** Perceptron *)

Module Perceptron.

Record t : Type := {
  learningRate : float;
  weights : list float;
  bias : float;
  activationThreshold : float;
  disableThreshold : bool;
  name : Name
}.

Definition activate (this : t) (x : float) : float :=
  if disableThreshold this
  then f ActivationFunctions.linearBounded x
  else f ActivationFunctions.binary x.

(** [let sum = this.bias;
     for (let i = 0; i < input.length; i++) sum += this.weights[i] * input[i];] *)
Definition weighted_sum (this : t) (input : list float) : float :=
  for_upto (length input)
    (fun sum i => (sum + js_get (weights this) i * js_get input i)%float)
    (bias this).

Definition predict (this : t) (input : list float) : float :=
  activate this (weighted_sum this input).

Definition with_weights (this : t) (w : list float) : t :=
  {| learningRate := learningRate this; weights := w; bias := bias this;
     activationThreshold := activationThreshold this;
     disableThreshold := disableThreshold this; name := name this |}.

Definition with_bias (this : t) (b : float) : t :=
  {| learningRate := learningRate this; weights := weights this; bias := b;
     activationThreshold := activationThreshold this;
     disableThreshold := disableThreshold this; name := name this |}.

(** [train(input, target)] mutates [this.weights] element by element and
    then [this.bias]; the result is the object after the call. *)
Definition train (this : t) (input : list float) (target : float) : t :=
  let prediction := predict this input in
  let error := (target - prediction)%float in
  let this1 :=
    for_upto (length input)
      (fun (o : t) i =>
         with_weights o
           (js_set (weights o) i
              (js_get (weights o) i + learningRate o * error * js_get input i)%float))
      this in
  with_bias this1 (bias this1 + learningRate this1 * error)%float.

Definition with_name (this : t) (n : Name) : t :=
  {| learningRate := learningRate this; weights := weights this; bias := bias this;
     activationThreshold := activationThreshold this;
     disableThreshold := disableThreshold this; name := n |}.

(** [constructor(inputSize, learningRate, disableThreshold)] *)
Definition new (inputSize : float) (learningRate : float) (disableThreshold : bool)
  : M World t :=
  weights <- Array_from inputSize random_weight ;;
  bias <- random_weight ;;
  ret {| learningRate := learningRate; weights := weights; bias := bias;
         activationThreshold := 0%float; disableThreshold := disableThreshold;
         name := Literal "Perceptron" |}.

Definition getWeights (this : t) : list float := weights this.
Definition getBias (this : t) : float := bias this.
Definition setWeights (this : t) (w : list float) : t := with_weights this w.
Definition setBias (this : t) (b : float) : t := with_bias this b.

(** The two assignments of [train] once [error] is known: the loop over
    [this.weights[i] += this.learningRate * error * input[i]], then
    [this.bias += this.learningRate * error]. *)
Definition apply_error (this : t) (input : list float) (error : float) : t :=
  let this1 :=
    for_upto (length input)
      (fun (o : t) i =>
         with_weights o
           (js_set (weights o) i
              (js_get (weights o) i + learningRate o * error * js_get input i)%float))
      this in
  with_bias this1 (bias this1 + learningRate this1 * error)%float.

(** [reset()]: [this.weights.map(() => Math.random() * 2 - 1)], one draw per
    weight, then one more for the bias. *)
Definition reset (this : t) : M World t :=
  weights <- replicateM (length (weights this)) random_weight ;;
  bias <- random_weight ;;
  ret (with_bias (with_weights this weights) bias).

Definition setActivationThreshold (this : t) (threshold : float) : t :=
  {| learningRate := learningRate this; weights := weights this; bias := bias this;
     activationThreshold := threshold;
     disableThreshold := disableThreshold this; name := name this |}.

Definition setDisableThreshold (this : t) (disable : bool) : t :=
  {| learningRate := learningRate this; weights := weights this; bias := bias this;
     activationThreshold := activationThreshold this;
     disableThreshold := disable; name := name this |}.

(** [fit(data, epochs, shuffle)] with [shuffle] false: [data] holds the pairs
    [{ x, y }].  ([shuffle] true sorts [data] with a random comparator, whose
    outcome the language leaves to the engine.) *)
Definition fit_in_order (fuel : nat) (data : list (list float * float)) (epochs : float)
    (this : t) : option t :=
  match iterations fuel epochs with
  | None => None
  | Some rounds =>
      Some (for_upto rounds
              (fun o _ => fold_left (fun o' xy => train o' (fst xy) (snd xy)) data o)
              this)
  end.

End Perceptron.

(** ** Neuron *)

Record Connection : Type := {
  index : nat;
  weight : float
}.

(** [a.map(g)] where [g] may throw: the first exception ends the traversal. *)
Fixpoint map_outcome {A B : Type} (g : A -> nat -> outcome B) (i : nat) (a : list A)
  : outcome (list B) :=
  match a with
  | [] => Return []
  | x :: a' =>
      match g x i with
      | Throw e => Throw e
      | Return y =>
          match map_outcome g (S i) a' with
          | Throw e => Throw e
          | Return ys => Return (y :: ys)
          end
      end
  end.

(** Calling a method on each object of an array in turn, [body i] on the
    [i]-th.  An exception stops the traversal; the objects already visited
    keep what the method did to them. *)
Fixpoint each_from {St A : Type} (body : nat -> M St A) (i : nat) (objs : list St)
  : outcome (list A) * list St :=
  match objs with
  | [] => (Return [], [])
  | o :: rest =>
      match body i o with
      | (Throw e, o') => (Throw e, o' :: rest)
      | (Return a, o') =>
          match each_from body (S i) rest with
          | (Throw e, rest') => (Throw e, o' :: rest')
          | (Return l, rest') => (Return (a :: l), o' :: rest')
          end
      end
  end.

Definition each {St A : Type} (body : nat -> M St A) : M (list St) (list A) :=
  each_from body 0.

(** Calling a method on the [i]-th object of an array: [objs[i].m(...)]. *)
Definition on_nth {St A : Type} (i : nat) (m : M St A) : M (list St) A :=
  fun objs =>
    match nth_error objs i with
    | None => (Throw TypeError, objs)
    | Some o =>
        let '(r, o') := m o in
        (r, firstn i objs ++ o' :: skipn (S i) objs)
    end.

(** [a.at(-1)] *)
Definition at_last {A : Type} (a : list A) : option A :=
  nth_error a (length a - 1).

(** [for (const i of l) body(i)] *)
Fixpoint forM {St A : Type} (l : list A) (body : A -> M St unit) : M St unit :=
  match l with
  | [] => ret tt
  | x :: l' => body x ;;; forM l' body
  end.

Module Neuron.

(** A [Neuron] is a [Perceptron] (the fields of [base], set by [super(...)])
    with a connection list and an activation of its own.  Every neuron owns
    its connection list: the constructors of the model build one per neuron,
    and none is shared between two neurons. *)
Record t : Type := {
  base : Perceptron.t;
  connections : list Connection;
  activation : Activation
}.

Definition with_connections (this : t) (c : list Connection) : t :=
  {| base := base this; connections := c; activation := activation this |}.

Definition with_base (this : t) (b : Perceptron.t) : t :=
  {| base := b; connections := connections this; activation := activation this |}.

(** [constructor(inputSize, learningRate, activation, connections)] *)
Definition new (inputSize : float) (learningRate : float) (activation : Activation)
    (connections : list Connection) : M World t :=
  weights <- (if 0 <? length connections
              then ret (map weight connections)
              else Array_from inputSize random_weight) ;;
  base <- Perceptron.new (number_of_nat (length weights)) learningRate false ;;
  ret {| base := base;
         connections := if 0 <? length connections
                        then connections
                        else js_map (fun w i => {| index := i; weight := w |}) weights;
         activation := activation |}.

Definition activate (this : t) (sum : float) : float := f (activation this) sum.

Definition activationDerivative (this : t) (sum : float) : float :=
  df (activation this) sum.

(** The loop of [predict]: [for (const { index, weight } of this.connections)]. *)
Fixpoint predict_sum (inputs : list float) (conns : list Connection) (sum : float)
  : outcome float :=
  match conns with
  | [] => Return sum
  | c :: rest =>
      if length inputs <=? index c
      then Throw (IndexOutOfBounds (index c))
      else predict_sum inputs rest (sum + js_get inputs (index c) * weight c)%float
  end.

(** [predict] assigns no field: it is a function of the object. *)
Definition predict (this : t) (inputs : list float) : outcome float :=
  match predict_sum inputs (connections this) (Perceptron.bias (base this)) with
  | Throw e => Throw e
  | Return sum => Return (activate this sum)
  end.

Definition setActivationFunction (this : t) (a : Activation) : t :=
  {| base := base this; connections := connections this; activation := a |}.

Definition addConnection (this : t) (i : nat) (w : float) : t :=
  with_connections this (connections this ++ [{| index := i; weight := w |}]).

(** [this.connections[i].weight = w] *)
Definition set_connection_weight (i : nat) (w : float) : M t unit :=
  fun this =>
    match nth_error (connections this) i with
    | None => (Throw TypeError, this)
    | Some c =>
        (Return tt,
         with_connections this
           (firstn i (connections this)
              ++ {| index := index c; weight := w |} :: skipn (S i) (connections this)))
    end.

Definition setWeights (weights : list float) : M t unit :=
  fun this =>
    if negb (length weights =? length (connections this))
    then (Throw WeightCountMismatch, this)
    else forM (seq 0 (length weights))
           (fun i => set_connection_weight i (js_get weights i)) this.

Definition getWeights (this : t) : list float := map weight (connections this).

(** Inherited from [Perceptron]. *)
Definition getBias (this : t) : float := Perceptron.getBias (base this).

Definition setBias (bias : float) : M t unit :=
  fun this => (Return tt, with_base this (Perceptron.setBias (base this) bias)).

(** [train], inherited from [Perceptron]: [this.predict] is the neuron's own
    [predict], while [this.weights] and [this.bias] are the fields that
    [super(...)] created. *)
Definition train (input : list float) (target : float) : M t unit :=
  fun this =>
    match predict this input with
    | Throw e => (Throw e, this)
    | Return prediction =>
        (Return tt,
         with_base this
           (Perceptron.apply_error (base this) input (target - prediction)%float))
    end.

(** [reset], inherited from [Perceptron]. *)
Definition reset (this : t) : M World t :=
  base' <- Perceptron.reset (base this) ;; ret (with_base this base').

End Neuron.

(** ** Values read from a persisted model *)

Module JS.

(** What [JSON.parse] can produce, and [undefined] for what is missing. *)
Inductive value : Type :=
| Undefined
| Null
| Boolean (b : bool)
| Number (x : float)
| Str (s : string)
| Array (elems : list value)
| Object (fields : list (string * value)).

(** [ToBoolean], as applied by [!v], [v || d] and [if (v)]. *)
Definition truthy (v : value) : bool :=
  match v with
  | Undefined | Null => false
  | Boolean b => b
  | Number x => negb (is_nan x || is_zero x)
  | Str s => negb (String.eqb s "")
  | Array _ | Object _ => true
  end.

(** [v || d] *)
Definition or_else (v d : value) : value := if truthy v then v else d.

(** The value bound to [key] in a parsed object; a later binding of the same
    key replaces an earlier one. *)
Fixpoint lookup (key : string) (fields : list (string * value)) : value :=
  match fields with
  | [] => Undefined
  | (k, v) :: rest =>
      match lookup key rest with
      | Undefined => if String.eqb k key then v else Undefined
      | later => later
      end
  end.

(** [v.key], for the member names the loader reads (none of them is
    defined by a prototype). *)
Definition get (v : value) (key : string) : outcome value :=
  match v with
  | Undefined | Null => Throw TypeError
  | Object fields => Return (lookup key fields)
  | _ => Return Undefined
  end.

Definition decimal (i : nat) : string :=
  DecimalString.NilEmpty.string_of_uint (Nat.to_uint i).

(** [v[i]] *)
Definition at_index (v : value) (i : nat) : outcome value :=
  match v with
  | Undefined | Null => Throw TypeError
  | Array elems => Return (nth i elems Undefined)
  | Str s => Return (match String.get i s with
                     | Some c => Str (String c EmptyString)
                     | None => Undefined
                     end)
  | Object fields => Return (lookup (decimal i) fields)
  | _ => Return Undefined
  end.

(** The elements of an array, when each one is a number. *)
Fixpoint as_numbers (elems : list value) : option (list float) :=
  match elems with
  | [] => Some []
  | Number x :: rest => option_map (cons x) (as_numbers rest)
  | _ :: _ => None
  end.

(** [JSON.parse(JSON.stringify(v))] for a value inside a document: a number
    that is not finite is written [null], [-0] is written [0], every other
    number is read back as it was; [undefined] is written [null] in an array
    and its member is left out of an object. *)
Fixpoint stringify_parse (v : value) : value :=
  match v with
  | Undefined => Null
  | Null => Null
  | Boolean b => Boolean b
  | Number x =>
      if is_finite x then (if is_zero x then Number 0%float else Number x) else Null
  | Str s => Str s
  | Array elems => Array (map stringify_parse elems)
  | Object fields =>
      Object
        ((fix members (l : list (string * value)) : list (string * value) :=
            match l with
            | [] => []
            | (k, Undefined) :: rest => members rest
            | (k, v') :: rest => (k, stringify_parse v') :: members rest
            end) fields)
  end.

End JS.

(** ** NeuralNetwork *)

(** A computation that draws random numbers, may throw, and may contain a
    loop over a numeric bound: [None] when that loop outlives the fuel, or
    when a value that is not a number would be stored in a numeric field,
    which this embedding does not describe. *)
Definition W (A : Type) : Type := World -> option (outcome A * World).

Definition retW {A : Type} (a : A) : W A := fun w => Some (Return a, w).
Definition throwW {A : Type} (e : Error) : W A := fun w => Some (Throw e, w).
Definition undescribed {A : Type} : W A := fun _ => None.
Definition liftW {A : Type} (m : M World A) : W A := fun w => Some (m w).
Definition of_outcome {A : Type} (r : outcome A) : W A := fun w => Some (r, w).
Definition bindW {A B : Type} (m : W A) (k : A -> W B) : W B :=
  fun w => match m w with
           | None => None
           | Some (Return a, w') => k a w'
           | Some (Throw e, w') => Some (Throw e, w')
           end.

Notation "x <~ m ;; k" := (bindW m (fun x => k))
  (at level 61, m at next level, right associativity).

Fixpoint mapW {A B : Type} (g : A -> W B) (l : list A) : W (list B) :=
  match l with
  | [] => retW []
  | x :: l' => y <~ g x ;; ys <~ mapW g l' ;; retW (y :: ys)
  end.

(** The indices visited by [for (let i = 0; i < count; i++)].  The rounds are
    counted before the body runs: a loop that outlives the fuel leaves the
    whole computation undescribed, even where its body would have thrown. *)
Definition loop_indices (fuel : nat) (count : float) : W (list nat) :=
  fun w => match iterations fuel count with
           | None => None
           | Some k => Some (Return (seq 0 k), w)
           end.

Module NeuralNetwork.

Record t : Type := {
  activation : Activation;
  layerSizes : list float;
  learningRate : float;
  layers : list (list Neuron.t);
  inputNames : JS.value;
  outputNames : JS.value;
  epoch : JS.value
}.

Definition with_layers (this : t) (l : list (list Neuron.t)) : t :=
  {| activation := activation this; layerSizes := layerSizes this;
     learningRate := learningRate this; layers := l;
     inputNames := inputNames this; outputNames := outputNames this;
     epoch := epoch this |}.

Definition with_epoch (this : t) (e : JS.value) : t :=
  {| activation := activation this; layerSizes := layerSizes this;
     learningRate := learningRate this; layers := layers this;
     inputNames := inputNames this; outputNames := outputNames this;
     epoch := e |}.

(** The two guards at the head of the constructor. *)
Definition validate (layerSizes : JS.value) : outcome (list float) :=
  match layerSizes with
  | JS.Array sizes =>
      if length sizes <? 2 then Throw LayerSizesTooShort
      else match JS.as_numbers sizes with
           | None => Throw LayerSizeNotPositive            (* typeof size !== 'number' *)
           | Some xs =>
               if existsb (fun size => (size <=? 0)%float) xs
               then Throw LayerSizeNotPositive              (* size <= 0 *)
               else Return xs
           end
  | _ => Throw LayerSizesTooShort                           (* !Array.isArray(layerSizes) *)
  end.

(** One round of [for (let l = 1; l < layerSizes.length; l++)]. *)
Definition new_layer (fuel : nat) (sizes : list float) (learningRate : float)
    (activation : Activation) (l : nat) : W (list Neuron.t) :=
  let inputSize := js_get sizes (l - 1) in
  let count := js_get sizes l in
  indices <~ loop_indices fuel count ;;
  mapW (fun i =>
          neuron <~ liftW (Neuron.new inputSize learningRate activation []) ;;
          retW (Neuron.with_base neuron
                  (Perceptron.with_name (Neuron.base neuron) (LayerPosition l (i + 1)))))
       indices.

(** [constructor(layerSizes, inputNames, outputNames, learningRate, activation)] *)
Definition new (fuel : nat) (layerSizes inputNames outputNames : JS.value)
    (learningRate : float) (activation : Activation) : W t :=
  sizes <~ of_outcome (validate layerSizes) ;;
  layers <~ mapW (new_layer fuel sizes learningRate activation)
              (seq 1 (length sizes - 1)) ;;
  retW {| activation := activation; layerSizes := sizes; learningRate := learningRate;
          layers := layers;
          inputNames := JS.or_else inputNames (JS.Array []);
          outputNames := JS.or_else outputNames (JS.Array []);
          epoch := JS.Undefined |}.

Definition getLayer (this : t) (i : nat) : outcome (list (list float) * list float) :=
  match nth_error (layers this) i with
  | None => Throw TypeError
  | Some layer => Return (map Neuron.getWeights layer, map Neuron.getBias layer)
  end.

(** [let a = input; for (const layer of this.layers) a = layer.map(n => n.predict(a));] *)
Fixpoint predict_layers (layers : list (list Neuron.t)) (a : list float)
  : outcome (list float) :=
  match layers with
  | [] => Return a
  | layer :: rest =>
      match map_outcome (fun n _ => Neuron.predict n a) 0 layer with
      | Throw e => Throw e
      | Return a' => predict_layers rest a'
      end
  end.

(** [predict] assigns no field of the network or of its neurons. *)
Definition predict (this : t) (input : list float) : outcome (list float) :=
  predict_layers (layers this) input.

Definition countNeurons (this : t) : nat :=
  fold_left (fun count layer => count + length layer) (layers this) 0.

Definition with_learningRate (this : t) (lr : float) : t :=
  {| activation := activation this; layerSizes := layerSizes this;
     learningRate := lr; layers := layers this;
     inputNames := inputNames this; outputNames := outputNames this;
     epoch := epoch this |}.

(** [setActivationFunctionForAll(activation)]: every neuron has the method
    [setActivationFunction], so the test in the loop always passes. *)
Definition setActivationFunctionForAll (this : t) (a : Activation) : t :=
  with_layers this
    (map (map (fun neuron => Neuron.setActivationFunction neuron a)) (layers this)).

(** [getNeuronMatrix()]: a layer is kept when [layer.length] is not 0 (its
    first element is then a neuron, which has [getWeights]). *)
Definition getNeuronMatrix (this : t) : list (list Neuron.t) :=
  filter (fun layer => negb (length layer =? 0)) (layers this).

(** The object [data] that [saveToFile] hands to [JSON.stringify]. *)
Definition save_data (this : t) : JS.value :=
  JS.Object
    [ ("epoch"%string, epoch this);
      ("layerSizes"%string, JS.Array (map JS.Number (layerSizes this)));
      ("weights"%string,
         JS.Array (map (fun layer =>
                          JS.Array (map (fun neuron =>
                                           JS.Array (map JS.Number (Neuron.getWeights neuron)))
                                      layer))
                     (layers this)));
      ("biases"%string,
         JS.Array (map (fun layer =>
                          JS.Array (map (fun neuron => JS.Number (Neuron.getBias neuron))
                                      layer))
                     (layers this)));
      ("inputNames"%string, inputNames this);
      ("outputNames"%string, outputNames this);
      ("activations"%string,
         JS.Array (map (fun layer =>
                          JS.Array (map (fun neuron =>
                                           JS.Str (act_name (Neuron.activation neuron)))
                                      layer))
                     (layers this))) ].

(** What [JSON.parse] reads in the file that [saveToFile] offers for
    download. *)
Definition saved_document (this : t) : JS.value :=
  JS.stringify_parse (save_data this).

(** *** backpropagate *)

(** [neuron.getWeights().reduce((s, w, i) => s + w * prev[i], 0) + neuron.getBias()],
    where [prev] is [activations.at(-1)]. *)
Definition forward_sum (prev : list float) (neuron : Neuron.t) : float :=
  (js_reduce (fun s w i => s + w * js_get prev i) (Neuron.getWeights neuron) 0
   + Neuron.getBias neuron)%float.

(** The forward pass: the arrays [activations] and [zs] once the first loop
    is over. *)
Definition forward (layers : list (list Neuron.t)) (input : list float)
  : list (list float) * list (list float) :=
  fold_left
    (fun st layer =>
       let prev := last (fst st) [] in
       let z := map (forward_sum prev) layer in
       let a := map (fun neuron => Neuron.activate neuron (forward_sum prev neuron)) layer in
       (fst st ++ [a], snd st ++ [z]))
    layers ([input], []).

(** [activations.at(-1).map((a, i) => (a - target[i]) * outputLayer[i].activation.df(outputZ[i]))]
    with [outputLayer = this.layers.at(-1)] and [outputZ = zs.at(-1)]. *)
Definition output_delta (layers : list (list Neuron.t))
    (activations zs : list (list float)) (target : list float) : outcome (list float) :=
  map_outcome
    (fun a i =>
       match at_last zs with
       | None => Throw TypeError
       | Some outputZ =>
           let z := js_get outputZ i in
           match at_last layers with
           | None => Throw TypeError
           | Some outputLayer =>
               match nth_error outputLayer i with
               | None => Throw TypeError
               | Some neuron =>
                   Return ((a - js_get target i) * df (Neuron.activation neuron) z)%float
               end
           end
       end)
    0 (last activations []).

(** The body of [for (let j = 0; j < layer.length; j++)], on [layer[j]],
    with [d = delta[j]]. *)
Definition update_neuron (lr d : float) (prevA : list float) : M Neuron.t unit :=
  fun neuron =>
    let newWeights :=
      js_map (fun w k => (w - lr * d * js_get prevA k)%float) (Neuron.getWeights neuron) in
    let newBias := (Neuron.getBias neuron - lr * d)%float in
    (Neuron.setWeights newWeights ;;; Neuron.setBias newBias) neuron.

Definition update_layer (lr : float) (delta prevA : list float) : M (list Neuron.t) unit :=
  each (fun j => update_neuron lr (js_get delta j) prevA) ;;; ret tt.

(** [nextDelta], filled for [i] from [0] to [prevLayer.length - 1]; the
    inner loop runs over the neurons [layer[j]] of the current layer. *)
Definition next_delta (layer prevLayer : list Neuron.t) (delta prevZ : list float)
  : list float :=
  js_map
    (fun prevNeuron i =>
       let sum :=
         js_reduce
           (fun sum neuron j =>
              (sum + js_get (Neuron.getWeights neuron) i * js_get delta j)%float)
           layer 0%float in
       (sum * df (Neuron.activation prevNeuron) (js_get prevZ i))%float)
    prevLayer.

(** [for (let l = n - 1; l >= 0; l--)], acting on [this.layers].  The
    function returns, layer by layer, the array that the variable [delta]
    held when that layer was updated. *)
Fixpoint backward (lr : float) (activations zs : list (list float)) (n : nat)
    (delta : list float) : M (list (list Neuron.t)) (list (list float)) :=
  match n with
  | O => ret []
  | S l =>
      on_nth l (update_layer lr delta (nth l activations [])) ;;;
      layers <- get_state ;;
      let delta' :=
        match l with
        | O => delta
        | S l' => next_delta (nth l layers []) (nth l' layers []) delta (nth l' zs [])
        end in
      used <- backward lr activations zs l delta' ;;
      ret (used ++ [delta])
  end.

Definition backpropagate_deltas (input target : list float) : M t (list (list float)) :=
  fun this =>
    let '(activations, zs) := forward (layers this) input in
    match output_delta (layers this) activations zs target with
    | Throw e => (Throw e, this)
    | Return delta =>
        let '(r, layers') :=
          backward (learningRate this) activations zs (length (layers this)) delta
            (layers this) in
        (r, with_layers this layers')
    end.

Definition backpropagate (input target : list float) : M t unit :=
  backpropagate_deltas input target ;;; ret tt.

(** *** loadFromFile *)

(** The choice of a neuron's activation from the name stored for it. *)
Definition find_activation (m : MathLib) (actName : JS.value) : Activation :=
  if JS.truthy actName
  then match actName with
       | JS.Str s =>
           match find (fun a => String.eqb (act_name a) s) (ActivationFunctions.values m) with
           | Some found => found
           | None => ActivationFunctions.sigmoid m
           end
       | _ => ActivationFunctions.sigmoid m
       end
  else ActivationFunctions.sigmoid m.

(** [neuron.setWeights(v)] for a value [v] read from the model. *)
Definition set_weights_from (v : JS.value) (neuron : Neuron.t) : W Neuron.t :=
  let n := length (Neuron.connections neuron) in
  match v with
  | JS.Undefined | JS.Null => throwW TypeError
  | JS.Boolean _ | JS.Number _ => throwW WeightCountMismatch
  | JS.Array elems =>
      if negb (length elems =? n) then throwW WeightCountMismatch
      else match JS.as_numbers elems with
           | None => undescribed
           | Some ws =>
               match Neuron.setWeights ws neuron with
               | (Return _, neuron') => retW neuron'
               | (Throw e, _) => throwW e
               end
           end
  | JS.Str s =>
      if negb (String.length s =? n) then throwW WeightCountMismatch
      else if n =? 0 then retW neuron else undescribed
  | JS.Object fields =>
      match JS.lookup "length" fields with
      | JS.Number x =>
          if negb (x =? number_of_nat n)%float then throwW WeightCountMismatch
          else if n =? 0 then retW neuron else undescribed
      | _ => throwW WeightCountMismatch
      end
  end.

(** [neuron.setBias(v)] for a value [v] read from the model. *)
Definition set_bias_from (v : JS.value) (neuron : Neuron.t) : W Neuron.t :=
  match v with
  | JS.Number b => retW (snd (Neuron.setBias b neuron))
  | _ => undescribed
  end.

(** The body of [loadFromFile] once the document has been fetched and
    parsed into [json]. *)
Definition load (fuel : nat) (m : MathLib) (json : JS.value) : W t :=
  jLayerSizes <~ of_outcome (JS.get json "layerSizes") ;;
  if negb (JS.truthy jLayerSizes) then throwW InvalidModel else
  jWeights <~ of_outcome (JS.get json "weights") ;;
  if negb (JS.truthy jWeights) then throwW InvalidModel else
  jBiases <~ of_outcome (JS.get json "biases") ;;
  if negb (JS.truthy jBiases) then throwW InvalidModel else
  jEpoch <~ of_outcome (JS.get json "epoch") ;;
  if negb (JS.truthy jEpoch) then throwW InvalidModel else
  jInputNames <~ of_outcome (JS.get json "inputNames") ;;
  jOutputNames <~ of_outcome (JS.get json "outputNames") ;;
  network <~ new fuel jLayerSizes jInputNames jOutputNames
               0x1.999999999999ap-4%float (ActivationFunctions.sigmoid m) ;;
  jActivations <~ of_outcome (JS.get json "activations") ;;
  let activationsData := JS.or_else jActivations (JS.Array []) in
  layers <~ mapW
    (fun l =>
       let inSize := js_get (layerSizes network) (l - 1) in
       let outSize := js_get (layerSizes network) l in
       jLayer <~ of_outcome (JS.at_index activationsData (l - 1)) ;;
       let layerActivations := JS.or_else jLayer (JS.Array []) in
       indices <~ loop_indices fuel outSize ;;
       mapW (fun i =>
               actName <~ of_outcome (JS.at_index layerActivations i) ;;
               neuron <~ liftW (Neuron.new inSize (learningRate network)
                                  (find_activation m actName) []) ;;
               ws <~ of_outcome (JS.at_index jWeights (l - 1)) ;;
               w <~ of_outcome (JS.at_index ws i) ;;
               neuron <~ set_weights_from w neuron ;;
               bs <~ of_outcome (JS.at_index jBiases (l - 1)) ;;
               b <~ of_outcome (JS.at_index bs i) ;;
               set_bias_from b neuron)
            indices)
    (seq 1 (length (layerSizes network) - 1)) ;;
  retW (with_layers (with_epoch network jEpoch) layers).

(** [this.loadFromFile(url)], with [json] the document found at [url].  The
    state it runs in holds the receiver [this] next to the world. *)
Definition loadFromFile (fuel : nat) (m : MathLib) (json : JS.value) (this : t)
  : World -> option (outcome t * (t * World)) :=
  fun w =>
    match load fuel m json w with
    | None => None
    | Some (r, w') => Some (r, (this, w'))
    end.

(** *** train *)

(** [this.backpropagate(input, target)] where [target] may be [undefined]
    (a missing element of [targets]): [target[i]] then throws as soon as the
    callback of the output error runs, that is, when the last activation
    vector is not empty. *)
Definition backpropagate_sample (input : list float) (target : option (list float))
  : M t unit :=
  match target with
  | Some target => backpropagate input target
  | None =>
      fun this =>
        let '(activations, zs) := forward (layers this) input in
        match last activations [] with
        | _ :: _ => (Throw TypeError, this)
        | [] =>
            let '(r, layers') :=
              backward (learningRate this) activations zs (length (layers this)) []
                (layers this) in
            (match r with Return _ => Return tt | Throw e => Throw e end,
             with_layers this layers')
        end
  end.

(** One pass of [for (let i = 0; i < inputs.length; i++)
    this.backpropagate(inputs[i], targets[i])]. *)
Definition train_epoch (inputs targets : list (list float)) : M t unit :=
  forM (seq 0 (length inputs))
    (fun i => backpropagate_sample (nth i inputs []) (nth_error targets i)).

(** [train(inputs, targets, epochs, lr)]; [None] when the loop over the
    epochs outlives the fuel. *)
Definition train (fuel : nat) (inputs targets : list (list float)) (epochs lr : float)
    (this : t) : option (outcome unit * t) :=
  match iterations fuel epochs with
  | None => None
  | Some rounds =>
      Some (forM (seq 0 rounds) (fun _ => train_epoch inputs targets)
              (with_learningRate this lr))
  end.

(** *** addLayer *)

(** [addLayer(nbNeurons, activation)].  The body of its loop calls
    [neuron.setActivation], a method that neither [Neuron] nor [Perceptron]
    defines: the first round ends in a [TypeError], after the constructor of
    the neuron has drawn its random numbers.  [inputSize] is the length of the
    last layer, or [this.inputSize], which no network has ([undefined], a
    length of 0).  The state is the network together with the world. *)
Definition addLayer (m : MathLib) (nbNeurons : float) (this : t) (w : World)
  : outcome unit * (t * World) :=
  let inputSize :=
    match at_last (layers this) with
    | Some previousLayer => number_of_nat (length previousLayer)
    | None => nan
    end in
  if (0 <? nbNeurons)%float
  then match Neuron.new inputSize 0x1.999999999999ap-4%float
               (ActivationFunctions.sigmoid m) [] w with
       | (Return _, w') => (Throw TypeError, (this, w'))
       | (Throw e, w') => (Throw e, (this, w'))
       end
  else (Return tt, (with_layers this (layers this ++ [[]]), w)).

End NeuralNetwork.

(** ** The formulas of the specification, as definitions of their own *)

Module Spec.

(** The sum that the specification gives for [Perceptron.predict]:
    [bias + Σ weights[i] * input[i]] over the weights, so that only the first
    [weights.length] entries of the input take part. *)
Definition perceptron_sum (this : Perceptron.t) (input : list float) : float :=
  fold_left (fun sum wx => (sum + fst wx * snd wx)%float)
    (combine (Perceptron.weights this) input) (Perceptron.bias this).


(** The weight that the specification selects for the edge from source [i]:
    that of the first connection whose [index] is [i]. *)
Definition weight_from (neuron : Neuron.t) (i : nat) : float :=
  match find (fun c => index c =? i) (Neuron.connections neuron) with
  | Some c => weight c
  | None => nan
  end.

(** The update rule of the specification for one neuron, [before] and [after]
    the step: each weight [k] becomes
    [weight - learningRate * delta * prevActivation[k]], the bias becomes
    [bias - learningRate * delta], and the rest of the neuron stays. *)
Definition gradient_step (lr d : float) (prevA : list float)
    (before after : Neuron.t) : Prop :=
  length (Neuron.connections after) = length (Neuron.connections before)
  /\ (forall k w, nth_error (Neuron.getWeights before) k = Some w ->
        nth_error (Neuron.getWeights after) k
        = Some (w - lr * d * js_get prevA k)%float)
  /\ Neuron.getBias after = (Neuron.getBias before - lr * d)%float
  /\ map index (Neuron.connections after) = map index (Neuron.connections before)
  /\ Neuron.activation after = Neuron.activation before
  /\ Perceptron.learningRate (Neuron.base after)
     = Perceptron.learningRate (Neuron.base before)
  /\ Perceptron.weights (Neuron.base after) = Perceptron.weights (Neuron.base before)
  /\ Perceptron.activationThreshold (Neuron.base after)
     = Perceptron.activationThreshold (Neuron.base before)
  /\ Perceptron.disableThreshold (Neuron.base after)
     = Perceptron.disableThreshold (Neuron.base before)
  /\ Perceptron.name (Neuron.base after) = Perceptron.name (Neuron.base before).

(** The delta that the specification propagates to the previous layer: for
    its neuron [i], the sum over the neurons [j] of the current layer of
    [w[j -> i] * delta[j]], times the derivative at [prevZ[i]], where
    [w[j -> i]] is the weight of the connection of [j] whose source is [i]. *)
Definition next_delta_by_source (layer prevLayer : list Neuron.t)
    (delta prevZ : list float) : list float :=
  js_map
    (fun prevNeuron i =>
       let sum :=
         js_reduce
           (fun sum neuron j => (sum + weight_from neuron i * js_get delta j)%float)
           layer 0%float in
       (sum * df (Neuron.activation prevNeuron) (js_get prevZ i))%float)
    prevLayer.

(** A neuron wired as the constructors wire it: connection [i] reads
    source [i]. *)
Definition dense (neuron : Neuron.t) : Prop :=
  map index (Neuron.connections neuron) = seq 0 (length (Neuron.connections neuron)).

(** Layers in which no connection reads past the vector it is given: the
    first layer reads a vector of [width] entries, each later layer the
    outputs of the layer before it. *)
Fixpoint wired (width : nat) (layers : list (list Neuron.t)) : Prop :=
  match layers with
  | [] => True
  | layer :: rest =>
      (forall neuron c, In neuron layer -> In c (Neuron.connections neuron) ->
                        index c < width)
      /\ wired (length layer) rest
  end.

(** The wiring of a network: for every neuron, the sources of its connections
    and its activation. *)
Definition wiring (layers : list (list Neuron.t))
  : list (list (list nat * Activation)) :=
  map (map (fun neuron => (map index (Neuron.connections neuron),
                           Neuron.activation neuron)))
    layers.

(** A number that [JSON] writes and reads back unchanged. *)
Definition survives_json (x : float) : Prop :=
  JS.stringify_parse (JS.Number x) = JS.Number x.

(** What the constructor of a neuron needs of a layer size used as the
    number of inputs: an array of that length can be made, twice (for the
    neuron and for the perceptron under it). *)
Definition affordable (inputSize : float) : Prop :=
  (ToLength inputSize < 2 ^ 32)%Z
  /\ (ToLength (number_of_nat (Z.to_nat (ToLength inputSize))) < 2 ^ 32)%Z.

(** A network that has the shape its [layerSizes] announce, as the
    constructor builds it with [fuel] rounds for each loop: one layer per
    size after the first, as many neurons as the loop over that size has
    rounds, each wired densely to as many sources as the size before
    stands for. *)
Definition shaped (fuel : nat) (this : NeuralNetwork.t) : Prop :=
  NeuralNetwork.validate (JS.Array (map JS.Number (NeuralNetwork.layerSizes this)))
  = Return (NeuralNetwork.layerSizes this)
  /\ length (NeuralNetwork.layers this) = length (NeuralNetwork.layerSizes this) - 1
  /\ forall l layer, nth_error (NeuralNetwork.layers this) l = Some layer ->
       iterations fuel (js_get (NeuralNetwork.layerSizes this) (S l)) = Some (length layer)
       /\ forall neuron, In neuron layer ->
            affordable (js_get (NeuralNetwork.layerSizes this) l)
            /\ length (Neuron.connections neuron)
               = Z.to_nat (ToLength (js_get (NeuralNetwork.layerSizes this) l))
            /\ dense neuron.

(** What reading a member gives once the object that holds it has been
    written by [JSON.stringify] and read back. *)
Definition member_read (v : JS.value) : JS.value :=
  match v with
  | JS.Undefined => JS.Undefined
  | _ => JS.stringify_parse v
  end.

(** Two neurons that [predict] cannot tell apart: same connections, same
    bias, same activation. *)
Definition same_unit (a b : Neuron.t) : Prop :=
  Neuron.connections a = Neuron.connections b
  /\ Neuron.getBias a = Neuron.getBias b
  /\ Neuron.activation a = Neuron.activation b.

(** A network whose numbers a JSON file can hold: a numeric epoch other
    than 0, sizes, weights and biases that are written and read back
    unchanged, and activations taken from the catalogue. *)
Definition storable (m : MathLib) (this : NeuralNetwork.t) : Prop :=
  (exists e, NeuralNetwork.epoch this = JS.Number e
             /\ survives_json e /\ JS.truthy (JS.Number e) = true)
  /\ Forall survives_json (NeuralNetwork.layerSizes this)
  /\ forall layer neuron,
       In layer (NeuralNetwork.layers this) -> In neuron layer ->
       Forall survives_json (Neuron.getWeights neuron)
       /\ survives_json (Neuron.getBias neuron)
       /\ In (Neuron.activation neuron) (ActivationFunctions.values m).

(** The members that a persisted model must have. *)
Definition required_fields : list string :=
  ["layerSizes"%string; "weights"%string; "biases"%string; "epoch"%string].

End Spec.

(** * Objects used in the examples *)

(** A perceptron with one weight, threshold enabled. *)
Definition unit_perceptron : Perceptron.t := {|
  Perceptron.learningRate := 0.5%float;
  Perceptron.weights := [1%float];
  Perceptron.bias := 0%float;
  Perceptron.activationThreshold := 0%float;
  Perceptron.disableThreshold := false;
  Perceptron.name := Literal "Perceptron"
|}.

(** A neuron with two connections, wired in reverse order. *)
Definition crossed_neuron : Neuron.t := {|
  Neuron.base := unit_perceptron;
  Neuron.connections := [ {| index := 1; weight := 0.5%float |};
                          {| index := 0; weight := 0.25%float |} ];
  Neuron.activation := ActivationFunctions.leakyRelu
|}.

(** A stand-in for the engine's [Math]; the statements below never call it. *)
Definition stand_in_math : MathLib := {|
  Math_exp := fun _ => nan;
  Math_tanh := fun _ => nan;
  Math_expm1 := fun _ => nan;
  Math_log := fun _ => nan;
  Math_pow := fun _ _ => nan
|}.

Definition still_world : World := {|
  random_source := fun _ => 0.5%float;
  random_calls := 0
|}.

(** A [2, 1] network as [saveToFile] writes it, but for its epoch. *)
Definition stored_members : list (string * JS.value) :=
  [ ("layerSizes"%string, JS.Array [JS.Number 2%float; JS.Number 1%float]);
    ("weights"%string,
       JS.Array [JS.Array [JS.Array [JS.Number 0.5%float; JS.Number 0.25%float]]]);
    ("biases"%string, JS.Array [JS.Array [JS.Number 0.125%float]]);
    ("inputNames"%string, JS.Array []);
    ("outputNames"%string, JS.Array []);
    ("activations"%string, JS.Array [JS.Array [JS.Str "relu"]]) ].

Definition stored_model (epoch : float) : JS.value :=
  JS.Object (("epoch"%string, JS.Number epoch) :: stored_members).

(** The network that the model above describes. *)
Definition loaded_neuron : Neuron.t := {|
  Neuron.base := {|
    Perceptron.learningRate := 0x1.999999999999ap-4%float;
    Perceptron.weights := [0%float; 0%float];
    Perceptron.bias := 0.125%float;
    Perceptron.activationThreshold := 0%float;
    Perceptron.disableThreshold := false;
    Perceptron.name := Literal "Perceptron" |};
  Neuron.connections := [ {| index := 0; weight := 0.5%float |};
                          {| index := 1; weight := 0.25%float |} ];
  Neuron.activation := ActivationFunctions.relu
|}.

Definition loaded_network (m : MathLib) (epoch : float) : NeuralNetwork.t := {|
  NeuralNetwork.activation := ActivationFunctions.sigmoid m;
  NeuralNetwork.layerSizes := [2%float; 1%float];
  NeuralNetwork.learningRate := 0x1.999999999999ap-4%float;
  NeuralNetwork.layers := [[loaded_neuron]];
  NeuralNetwork.inputNames := JS.Array [];
  NeuralNetwork.outputNames := JS.Array [];
  NeuralNetwork.epoch := JS.Number epoch
|}.

(** *** Two small networks *)

Definition example_neuron (conns : list Connection) : Neuron.t := {|
  Neuron.base := {|
    Perceptron.learningRate := 0.125%float;
    Perceptron.weights := map weight conns;
    Perceptron.bias := 0%float;
    Perceptron.activationThreshold := 0%float;
    Perceptron.disableThreshold := false;
    Perceptron.name := Literal "Perceptron" |};
  Neuron.connections := conns;
  Neuron.activation := ActivationFunctions.leakyRelu
|}.

Definition example_network (sizes : list float) (layers : list (list Neuron.t))
  : NeuralNetwork.t := {|
  NeuralNetwork.activation := ActivationFunctions.leakyRelu;
  NeuralNetwork.layerSizes := sizes;
  NeuralNetwork.learningRate := 0.125%float;
  NeuralNetwork.layers := layers;
  NeuralNetwork.inputNames := JS.Array [];
  NeuralNetwork.outputNames := JS.Array [];
  NeuralNetwork.epoch := JS.Undefined
|}.

(** One input, two hidden neurons, one output neuron whose two connections
    are listed in reverse order of their sources. *)
Definition crossed_network : NeuralNetwork.t :=
  example_network [1%float; 2%float; 1%float]
    [ [ example_neuron [ {| index := 0; weight := 1%float |} ];
        example_neuron [ {| index := 0; weight := 2%float |} ] ];
      [ example_neuron [ {| index := 1; weight := 0.5%float |};
                         {| index := 0; weight := 0.25%float |} ] ] ].


Definition two_input_network : NeuralNetwork.t :=
  example_network [2%float; 1%float]
    [ [ example_neuron [ {| index := 0; weight := 0.5%float |};
                         {| index := 1; weight := 0.25%float |} ] ] ].

(** * Properties *)

(** ** Numbers *)

Lemma one_is_not_zero : 1%float <> 0%float.
Proof.
  intro H.
  apply (f_equal (fun x => (x =? 1)%float)) in H.
  vm_compute in H. discriminate H.
Qed.

Lemma mul_nan_l (x : float) : (nan * x)%float = nan.
Proof.
  rewrite <- (SF2Prim_Prim2SF (nan * x)), mul_spec. reflexivity.
Qed.

Lemma add_nan_l (x : float) : (nan + x)%float = nan.
Proof.
  rewrite <- (SF2Prim_Prim2SF (nan + x)), add_spec. reflexivity.
Qed.

Lemma add_nan_r (x : float) : (x + nan)%float = nan.
Proof.
  rewrite <- (SF2Prim_Prim2SF (x + nan)), add_spec.
  change (Prim2SF nan) with S754_nan.
  destruct (Prim2SF x) as [s | s | | s m e]; try reflexivity; destruct s; reflexivity.
Qed.

(** ** Arrays *)

Lemma js_get_js_set (a : list float) (i j : nat) (v : float) :
  js_get (js_set a i v) j = if j =? i then v else js_get a j.
Proof.
  unfold js_get, js_set.
  destruct (Nat.ltb_spec i (length a)) as [Hi | Hi].
  - destruct (Nat.eqb_spec j i) as [-> | Hne].
    + rewrite app_nth2; rewrite length_firstn, Nat.min_l by lia; [| lia].
      now rewrite Nat.sub_diag.
    + destruct (Nat.lt_ge_cases j i) as [Hlt | Hge].
      * rewrite app_nth1 by (rewrite length_firstn; lia).
        rewrite <- (firstn_skipn i a) at 2.
        now rewrite app_nth1 by (rewrite length_firstn; lia).
      * rewrite app_nth2; rewrite length_firstn, Nat.min_l by lia; [| lia].
        destruct (j - i) as [| d] eqn:Hd; [lia |]. cbn [nth].
        rewrite nth_skipn. f_equal. lia.
  - destruct (Nat.eqb_spec j i) as [-> | Hne].
    + rewrite app_nth2 by lia.
      rewrite app_nth2; rewrite repeat_length; [| lia].
      now replace (i - length a - (i - length a)) with 0 by lia.
    + destruct (Nat.lt_ge_cases j (length a)) as [Hlt | Hge].
      * now rewrite app_nth1 by lia.
      * rewrite app_nth2 by lia.
        rewrite (nth_overflow a) by lia.
        destruct (Nat.lt_ge_cases j i) as [Hji | Hji].
        -- rewrite app_nth1 by (rewrite repeat_length; lia).
           apply nth_repeat.
        -- rewrite app_nth2; rewrite repeat_length; [| lia].
           apply nth_overflow. simpl. lia.
Qed.

Lemma js_set_length (a : list float) (i : nat) (v : float) :
  length (js_set a i v) = Nat.max (length a) (S i).
Proof.
  unfold js_set.
  destruct (Nat.ltb_spec i (length a)) as [Hi | Hi].
  - rewrite length_app, length_firstn. cbn [length]. rewrite length_skipn. lia.
  - rewrite !length_app, repeat_length. simpl. lia.
Qed.

Lemma for_upto_S {St : Type} (n : nat) (body : St -> nat -> St) (st : St) :
  for_upto (S n) body st = body (for_upto n body st) n.
Proof.
  unfold for_upto. rewrite seq_S, fold_left_app. reflexivity.
Qed.

(** ** Perceptron *)

Section PerceptronPredict.

Let step (w input : list float) : float -> nat -> float :=
  fun sum i => (sum + js_get w i * js_get input i)%float.

Lemma loop_shift (a x : float) (w input : list float) (n k : nat) (s : float) :
  fold_left (step (a :: w) (x :: input)) (seq (S k) n) s
  = fold_left (step w input) (seq k n) s.
Proof.
  revert k s. induction n as [| n IH]; intros k s; [reflexivity |].
  cbn [seq fold_left]. rewrite IH. reflexivity.
Qed.

Lemma loop_is_zip (input w : list float) (b : float) :
  length input <= length w ->
  fold_left (step w input) (seq 0 (length input)) b
  = fold_left (fun sum wx => (sum + fst wx * snd wx)%float) (combine w input) b.
Proof.
  revert w b. induction input as [| x input IH]; intros w b Hlen.
  - destruct w; reflexivity.
  - destruct w as [| a w]; [simpl in Hlen; lia |].
    cbn [length seq fold_left combine]. rewrite loop_shift.
    rewrite IH by (simpl in Hlen; lia). reflexivity.
Qed.

Lemma loop_nan_absorbs (w input : list float) (l : list nat) :
  fold_left (step w input) l nan = nan.
Proof.
  induction l as [| i l IH]; [reflexivity |].
  cbn [fold_left]. unfold step at 2. rewrite add_nan_l. exact IH.
Qed.

Lemma loop_past_the_weights (input w : list float) (b : float) :
  length w < length input ->
  fold_left (step w input) (seq 0 (length input)) b = nan.
Proof.
  intro Hlen.
  replace (length input) with (length w + S (length input - S (length w))) by lia.
  rewrite seq_app, fold_left_app. cbn [seq fold_left Nat.add].
  unfold step at 2. unfold js_get at 1.
  rewrite (nth_overflow w) by lia.
  rewrite mul_nan_l, add_nan_r. apply loop_nan_absorbs.
Qed.

End PerceptronPredict.

(** What the loop of [Perceptron.predict] computes with the threshold
    enabled.  It runs over the entries of the input, not over the weights: on
    an input no longer than the weight vector the answer is 1 exactly when
    the sum of the specification is at least 0.5; on a longer input the loop
    meets missing weights and the sum is NaN. *)
Lemma perceptron_predict_threshold (this : Perceptron.t) (input : list float) :
  Perceptron.disableThreshold this = false ->
  (length input <= length (Perceptron.weights this) ->
     Perceptron.predict this input
       = (if (0.5 <=? Spec.perceptron_sum this input)%float then 1%float else 0%float)
     /\ (Perceptron.predict this input = 1%float
         <-> (0.5 <=? Spec.perceptron_sum this input)%float = true)
     /\ (Perceptron.predict this input = 0%float
         <-> (0.5 <=? Spec.perceptron_sum this input)%float = false))
  /\ (length (Perceptron.weights this) < length input ->
        Perceptron.weighted_sum this input = nan
        /\ Perceptron.predict this input = 0%float).
Proof.
  intro Hthr. split.
  - intro Hlen.
    assert (Hp : Perceptron.predict this input
                 = if (0.5 <=? Spec.perceptron_sum this input)%float
                   then 1%float else 0%float).
    { unfold Perceptron.predict, Perceptron.activate. rewrite Hthr.
      unfold Perceptron.weighted_sum, for_upto, Spec.perceptron_sum.
      rewrite loop_is_zip by exact Hlen. reflexivity. }
    split; [exact Hp |]. rewrite Hp.
    destruct (0.5 <=? Spec.perceptron_sum this input)%float; split; split;
      intro H; try reflexivity; try discriminate H;
      exfalso; apply one_is_not_zero; congruence.
  - intro Hlen.
    assert (Hs : Perceptron.weighted_sum this input = nan).
    { unfold Perceptron.weighted_sum, for_upto. apply loop_past_the_weights. exact Hlen. }
    split; [exact Hs |].
    unfold Perceptron.predict, Perceptron.activate. rewrite Hthr, Hs. reflexivity.
Qed.

(** C5.  [Perceptron.predict] does not do what the specification asks of it
    on an input longer than the weight vector.  The weight vector [1] with
    bias 0 and the input [1, 0] give the sum [0 + 1 * 1 = 1 >= 0.5] over the
    first [weights.length] entries, yet [predict] answers 0, while on the
    input [1] it answers 1: the extra entry changed the result.  So the
    equivalence of the specification does not hold for every input at least
    as long as the weight vector. *)
Lemma perceptron_predict_longer_input :
  Perceptron.disableThreshold unit_perceptron = false
  /\ length (Perceptron.weights unit_perceptron) <= length [1%float; 0%float]
  /\ (0.5 <=? Spec.perceptron_sum unit_perceptron [1%float; 0%float])%float = true
  /\ Perceptron.predict unit_perceptron [1%float; 0%float] = 0%float
  /\ Perceptron.predict unit_perceptron
       (firstn (length (Perceptron.weights unit_perceptron)) [1%float; 0%float]) = 1%float
  /\ ~ (forall (this : Perceptron.t) (input : list float),
          Perceptron.disableThreshold this = false ->
          length (Perceptron.weights this) <= length input ->
          (Perceptron.predict this input = 1%float
           <-> (0.5 <=? Spec.perceptron_sum this input)%float = true)).
Proof.
  repeat split; try reflexivity.
  - simpl. lia.
  - intro H.
    assert (Hc : Perceptron.predict unit_perceptron [1%float; 0%float] = 1%float).
    { apply (H unit_perceptron [1%float; 0%float]); [reflexivity | simpl; lia | reflexivity]. }
    apply one_is_not_zero. rewrite <- Hc. reflexivity.
Qed.

Section PerceptronTrain.

Variables (error : float) (input : list float).

Let body : Perceptron.t -> nat -> Perceptron.t :=
  fun o i =>
    Perceptron.with_weights o
      (js_set (Perceptron.weights o) i
         (js_get (Perceptron.weights o) i
          + Perceptron.learningRate o * error * js_get input i)%float).

Lemma train_loop_invariant (this : Perceptron.t) (n : nat) :
  let o := for_upto n body this in
  Perceptron.learningRate o = Perceptron.learningRate this
  /\ Perceptron.bias o = Perceptron.bias this
  /\ Perceptron.activationThreshold o = Perceptron.activationThreshold this
  /\ Perceptron.disableThreshold o = Perceptron.disableThreshold this
  /\ Perceptron.name o = Perceptron.name this
  /\ length (Perceptron.weights o) = Nat.max (length (Perceptron.weights this)) n
  /\ forall i,
       js_get (Perceptron.weights o) i
       = if i <? n
         then (js_get (Perceptron.weights this) i
               + Perceptron.learningRate this * error * js_get input i)%float
         else js_get (Perceptron.weights this) i.
Proof.
  induction n as [| n IH].
  - cbn. repeat split; try reflexivity. lia.
  - rewrite for_upto_S. cbv zeta in IH |- *.
    destruct IH as (Hlr & Hb & Ht & Hd & Hn & Hlen & Hget).
    set (o := for_upto n body this) in *.
    unfold body at 1 2 3 4 5 6 7. cbn [Perceptron.learningRate Perceptron.bias
      Perceptron.activationThreshold Perceptron.disableThreshold Perceptron.name
      Perceptron.weights Perceptron.with_weights].
    repeat split; try assumption.
    + rewrite js_set_length, Hlen. lia.
    + intro i. rewrite js_get_js_set.
      destruct (Nat.eqb_spec i n) as [-> | Hne].
      * rewrite (Hget n), Nat.ltb_irrefl, Hlr.
        now replace (n <? S n) with true by (symmetry; apply Nat.ltb_lt; lia).
      * rewrite (Hget i).
        destruct (Nat.ltb_spec i n), (Nat.ltb_spec i (S n)); try reflexivity; lia.
Qed.

End PerceptronTrain.

(** What the loop of [Perceptron.train] does on any input: it runs over the
    entries of the input, so a weight past the input is not assigned, and an
    entry of the input past the weights makes the array grow. *)
Lemma perceptron_train_rule (this : Perceptron.t) (input : list float) (target : float) :
  let error := (target - Perceptron.predict this input)%float in
  let lr := Perceptron.learningRate this in
  let after := Perceptron.train this input target in
  (forall i, i < length input ->
     js_get (Perceptron.weights after) i
     = (js_get (Perceptron.weights this) i + lr * error * js_get input i)%float)
  /\ (forall i, length input <= i ->
        js_get (Perceptron.weights after) i = js_get (Perceptron.weights this) i)
  /\ length (Perceptron.weights after)
     = Nat.max (length (Perceptron.weights this)) (length input)
  /\ Perceptron.bias after = (Perceptron.bias this + lr * error)%float
  /\ Perceptron.learningRate after = Perceptron.learningRate this
  /\ Perceptron.activationThreshold after = Perceptron.activationThreshold this
  /\ Perceptron.disableThreshold after = Perceptron.disableThreshold this
  /\ Perceptron.name after = Perceptron.name this.
Proof.
  intros error lr after.
  destruct (train_loop_invariant error input this (length input))
    as (Hlr & Hb & Ht & Hd & Hn & Hlen & Hget).
  unfold after, Perceptron.train. fold error.
  cbn [Perceptron.learningRate Perceptron.bias Perceptron.activationThreshold
       Perceptron.disableThreshold Perceptron.name Perceptron.weights Perceptron.with_bias].
  repeat split; try assumption.
  - intros i Hi. rewrite (Hget i).
    now replace (i <? length input) with true by (symmetry; apply Nat.ltb_lt; lia).
  - intros i Hi. rewrite (Hget i).
    now replace (i <? length input) with false by (symmetry; apply Nat.ltb_ge; lia).
  - rewrite Hb, Hlr. reflexivity.
Qed.






(** ** Replacing one element of an array *)

Lemma splice_length {A : Type} (l : list A) (i : nat) (x : A) :
  i < length l -> length (firstn i l ++ x :: skipn (S i) l) = length l.
Proof.
  intro Hi. rewrite length_app, length_firstn. cbn [length].
  rewrite length_skipn. lia.
Qed.

Lemma splice_nth_error {A : Type} (l : list A) (i j : nat) (x : A) :
  i < length l ->
  nth_error (firstn i l ++ x :: skipn (S i) l) j
  = if j =? i then Some x else nth_error l j.
Proof.
  intro Hi.
  destruct (Nat.eqb_spec j i) as [-> | Hne].
  - rewrite nth_error_app2; rewrite length_firstn, Nat.min_l by lia; [| lia].
    now rewrite Nat.sub_diag.
  - destruct (Nat.lt_ge_cases j i) as [Hlt | Hge].
    + rewrite nth_error_app1 by (rewrite length_firstn; lia).
      rewrite nth_error_firstn.
      now replace (j <? i) with true by (symmetry; apply Nat.ltb_lt; lia).
    + rewrite nth_error_app2; rewrite length_firstn, Nat.min_l by lia; [| lia].
      destruct (j - i) as [| d] eqn:Hd; [lia |]. cbn [nth_error].
      rewrite nth_error_skipn. f_equal. lia.
Qed.

Lemma forM_app {St A : Type} (l1 l2 : list A) (body : A -> M St unit) (s : St) :
  forM (l1 ++ l2) body s
  = match forM l1 body s with
    | (Return _, s') => forM l2 body s'
    | (Throw e, s') => (Throw e, s')
    end.
Proof.
  revert s. induction l1 as [| x l1 IH]; intro s; [reflexivity |].
  cbn [app forM]. unfold bind.
  destruct (body x s) as [[[] | e] s']; [apply IH | reflexivity].
Qed.

(** ** Neuron.setWeights *)

Lemma set_connection_weight_spec (this : Neuron.t) (i : nat) (w : float) (c : Connection) :
  nth_error (Neuron.connections this) i = Some c ->
  exists after,
    Neuron.set_connection_weight i w this = (Return tt, after)
    /\ Neuron.base after = Neuron.base this
    /\ Neuron.activation after = Neuron.activation this
    /\ length (Neuron.connections after) = length (Neuron.connections this)
    /\ forall j, nth_error (Neuron.connections after) j
                 = if j =? i then Some {| index := index c; weight := w |}
                   else nth_error (Neuron.connections this) j.
Proof.
  intro Hc.
  assert (Hi : i < length (Neuron.connections this))
    by (apply nth_error_Some; rewrite Hc; discriminate).
  unfold Neuron.set_connection_weight. rewrite Hc.
  eexists. split; [reflexivity |].
  cbn [Neuron.base Neuron.activation Neuron.connections Neuron.with_connections].
  repeat split.
  - apply splice_length; exact Hi.
  - intro j. apply splice_nth_error; exact Hi.
Qed.

Lemma setWeights_loop (ws : list float) (this : Neuron.t) (k : nat) :
  k <= length (Neuron.connections this) ->
  exists after,
    forM (seq 0 k) (fun i => Neuron.set_connection_weight i (js_get ws i)) this
    = (Return tt, after)
    /\ Neuron.base after = Neuron.base this
    /\ Neuron.activation after = Neuron.activation this
    /\ length (Neuron.connections after) = length (Neuron.connections this)
    /\ forall j, nth_error (Neuron.connections after) j
                 = if j <? k
                   then option_map (fun c => {| index := index c; weight := js_get ws j |})
                          (nth_error (Neuron.connections this) j)
                   else nth_error (Neuron.connections this) j.
Proof.
  induction k as [| k IH]; intro Hk.
  - exists this. repeat split; reflexivity.
  - destruct IH as (mid & Hrun & Hb & Ha & Hlen & Hget); [lia |].
    rewrite seq_S, forM_app, Hrun. cbn [Nat.add forM]. unfold bind.
    destruct (nth_error (Neuron.connections mid) k) as [c |] eqn:Hc.
    2:{ apply nth_error_None in Hc. lia. }
    destruct (set_connection_weight_spec mid k (js_get ws k) Hc)
      as (after & Hset & Hb' & Ha' & Hlen' & Hget').
    exists after. rewrite Hset. split; [reflexivity |].
    repeat split; try congruence.
    intro j. rewrite Hget'.
    destruct (Nat.eqb_spec j k) as [-> | Hne].
    + replace (k <? S k) with true by (symmetry; apply Nat.ltb_lt; lia).
      rewrite (Hget k), Nat.ltb_irrefl in Hc. rewrite Hc. reflexivity.
    + rewrite Hget.
      destruct (Nat.ltb_spec j k), (Nat.ltb_spec j (S k)); try reflexivity; lia.
Qed.

(** What a call of [setWeights] with the right number of weights does. *)
Lemma setWeights_matching (this : Neuron.t) (ws : list float) :
  length ws = length (Neuron.connections this) ->
  exists after,
    Neuron.setWeights ws this = (Return tt, after)
    /\ Neuron.getWeights after = ws
    /\ map index (Neuron.connections after) = map index (Neuron.connections this)
    /\ Neuron.base after = Neuron.base this
    /\ Neuron.activation after = Neuron.activation this.
Proof.
  intro Hlen.
  destruct (@setWeights_loop ws this (length ws)) as (after & Hrun & Hb & Ha & Hl & Hget);
    [lia |].
  exists after. unfold Neuron.setWeights.
  rewrite Hlen, Nat.eqb_refl. cbn [negb]. rewrite <- Hlen, Hrun.
  split; [reflexivity |]. repeat split; try assumption.
  - unfold Neuron.getWeights. apply nth_error_ext. intro j.
    rewrite nth_error_map, Hget.
    destruct (Nat.ltb_spec j (length ws)) as [Hj | Hj].
    + destruct (nth_error (Neuron.connections this) j) as [c |] eqn:Hc.
      * cbn. unfold js_get. symmetry. apply nth_error_nth'. exact Hj.
      * apply nth_error_None in Hc. lia.
    + replace (nth_error (Neuron.connections this) j) with (@None Connection)
        by (symmetry; apply nth_error_None; lia).
      symmetry. apply nth_error_None. exact Hj.
  - apply nth_error_ext. intro j. rewrite !nth_error_map, Hget.
    destruct (j <? length ws); [| reflexivity].
    destruct (nth_error (Neuron.connections this) j); reflexivity.
Qed.

(** C7.  [setWeights] with an array whose length differs from the number of
    connections throws and leaves the neuron as it was, so that [getWeights]
    answers as before the call; with an array of the right length it ends
    normally, and afterwards [getWeights] answers that array, weight by weight
    in the order of the connection list, the source indices, the bias and the
    activation being untouched. *)
Theorem neuron_setWeights (this : Neuron.t) (ws : list float) :
  (length ws <> length (Neuron.connections this) ->
     Neuron.setWeights ws this = (Throw WeightCountMismatch, this)
     /\ Neuron.getWeights (snd (Neuron.setWeights ws this)) = Neuron.getWeights this)
  /\ (length ws = length (Neuron.connections this) ->
        exists after,
          Neuron.setWeights ws this = (Return tt, after)
          /\ Neuron.getWeights after = ws
          /\ map index (Neuron.connections after) = map index (Neuron.connections this)
          /\ Neuron.base after = Neuron.base this
          /\ Neuron.activation after = Neuron.activation this).
Proof.
  split.
  - intro Hne.
    assert (H : Neuron.setWeights ws this = (Throw WeightCountMismatch, this)).
    { unfold Neuron.setWeights.
      destruct (Nat.eqb_spec (length ws) (length (Neuron.connections this))) as [He | _];
        [contradiction | reflexivity]. }
    rewrite H. split; reflexivity.
  - apply setWeights_matching.
Qed.

Lemma neuron_setWeights_witness :
  Neuron.getWeights (snd (Neuron.setWeights [1%float] crossed_neuron))
    = [0.5%float; 0.25%float]
  /\ exists after,
       Neuron.setWeights [2%float; 3%float] crossed_neuron = (Return tt, after)
       /\ Neuron.getWeights after = [2%float; 3%float].
Proof.
  split.
  - apply (proj2 (proj1 (neuron_setWeights crossed_neuron [1%float])
                   (fun H : 1 = 2 => Nat.neq_succ_diag_l 1 (eq_sym H)))).
  - destruct (proj2 (neuron_setWeights crossed_neuron [2%float; 3%float]) eq_refl)
      as (after & H1 & H2 & _).
    exists after. split; assumption.
Defined.

(** ** The constructor of NeuralNetwork *)

(** What the two guards accept: arrays of at least two numbers none of which
    is [<= 0].  Whether a number is an integer is not looked at. *)
Lemma validate_accepts (layerSizes : JS.value) (xs : list float) :
  NeuralNetwork.validate layerSizes = Return xs
  <-> exists sizes,
        layerSizes = JS.Array sizes
        /\ 2 <= length sizes
        /\ JS.as_numbers sizes = Some xs
        /\ forall x, In x xs -> (x <=? 0)%float = false.
Proof.
  unfold NeuralNetwork.validate. split.
  - destruct layerSizes as [| | b | x | s | sizes | fields]; try discriminate.
    destruct (Nat.ltb_spec (length sizes) 2) as [Hlt | Hge]; [discriminate |].
    destruct (JS.as_numbers sizes) as [ys |] eqn:Hnum; [| discriminate].
    destruct (existsb (fun size => (size <=? 0)%float) ys) eqn:Hex; [discriminate |].
    intro H. injection H as <-. exists sizes. repeat split; try assumption.
    intros x Hx.
    destruct (x <=? 0)%float eqn:Hle; [| reflexivity].
    assert (Ht : existsb (fun size => (size <=? 0)%float) ys = true)
      by (apply existsb_exists; exists x; split; assumption).
    congruence.
  - intros (sizes & -> & Hlen & Hnum & Hpos).
    replace (length sizes <? 2) with false by (symmetry; apply Nat.ltb_ge; exact Hlen).
    rewrite Hnum.
    destruct (existsb (fun size => (size <=? 0)%float) xs) eqn:Hex; [| reflexivity].
    apply existsb_exists in Hex. destruct Hex as (x & Hx & Hle).
    rewrite (Hpos x Hx) in Hle. discriminate Hle.
Qed.

(** A failed guard ends the construction at once, before any random number
    is drawn. *)
Lemma new_validation_error (fuel : nat) (layerSizes inputNames outputNames : JS.value)
    (learningRate : float) (activation : Activation) (e : Error) (w : World) :
  NeuralNetwork.validate layerSizes = Throw e ->
  NeuralNetwork.new fuel layerSizes inputNames outputNames learningRate activation w
  = Some (Throw e, w).
Proof.
  intro H. unfold NeuralNetwork.new, bindW, of_outcome. rewrite H. reflexivity.
Qed.

(** The parts of C8 that hold: fewer than two entries, a non-numeric entry and
    a non-positive entry each make the guards fail. *)
Lemma validate_rejects (layerSizes : JS.value) :
  (forall sizes, layerSizes = JS.Array sizes -> length sizes < 2 ->
     NeuralNetwork.validate layerSizes = Throw LayerSizesTooShort)
  /\ (forall sizes, layerSizes = JS.Array sizes -> 2 <= length sizes ->
        JS.as_numbers sizes = None ->
        NeuralNetwork.validate layerSizes = Throw LayerSizeNotPositive)
  /\ (forall sizes xs x, layerSizes = JS.Array sizes -> 2 <= length sizes ->
        JS.as_numbers sizes = Some xs -> In x xs -> (x <=? 0)%float = true ->
        NeuralNetwork.validate layerSizes = Throw LayerSizeNotPositive)
  /\ ((forall sizes, layerSizes <> JS.Array sizes) ->
        NeuralNetwork.validate layerSizes = Throw LayerSizesTooShort).
Proof.
  unfold NeuralNetwork.validate. repeat split.
  - intros sizes -> Hlen.
    now replace (length sizes <? 2) with true by (symmetry; apply Nat.ltb_lt; exact Hlen).
  - intros sizes -> Hlen Hnum.
    replace (length sizes <? 2) with false by (symmetry; apply Nat.ltb_ge; exact Hlen).
    now rewrite Hnum.
  - intros sizes xs x -> Hlen Hnum Hx Hle.
    replace (length sizes <? 2) with false by (symmetry; apply Nat.ltb_ge; exact Hlen).
    rewrite Hnum.
    replace (existsb (fun size => (size <=? 0)%float) xs) with true; [reflexivity |].
    symmetry. apply existsb_exists. exists x. split; assumption.
  - intro Hna. destruct layerSizes as [| | b | x | s | sizes | fields]; try reflexivity.
    exfalso. apply (Hna sizes). reflexivity.
Qed.

(** C8, at the input [layerSizes = [2, 1.5]].  The second size is not an
    integer, yet the constructor ends normally (three rounds of fuel are
    enough): the loop [for (let i = 0; i < 1.5; i++)] runs twice, and the
    network has one layer of two neurons with two connections each.  The guard
    tests [typeof size !== 'number' || size <= 0] only, although the message
    it throws asks for a positive integer. *)
Theorem new_accepts_fractional_size (fuel : nat) (inputNames outputNames : JS.value)
    (learningRate : float) (activation : Activation) (w : World) :
  3 <= fuel ->
  exists net w',
    NeuralNetwork.new fuel (JS.Array [JS.Number 2%float; JS.Number 1.5%float])
      inputNames outputNames learningRate activation w
    = Some (Return net, w')
    /\ NeuralNetwork.layerSizes net = [2%float; 1.5%float]
    /\ map (@length Neuron.t) (NeuralNetwork.layers net) = [2]
    /\ map (map (fun n => length (Neuron.connections n))) (NeuralNetwork.layers net)
       = [[2; 2]].
Proof.
  intro Hfuel.
  destruct fuel as [| [| [| fuel]]]; try lia.
  eexists. eexists. split; [reflexivity |]. repeat split.
Qed.

Lemma new_accepts_fractional_size_witness :
  exists net w',
    NeuralNetwork.new 3 (JS.Array [JS.Number 2%float; JS.Number 1.5%float])
      JS.Undefined JS.Undefined 0x1.999999999999ap-4%float ActivationFunctions.relu
      still_world
    = Some (Return net, w')
    /\ map (@length Neuron.t) (NeuralNetwork.layers net) = [2].
Proof.
  destruct (new_accepts_fractional_size JS.Undefined JS.Undefined
              0x1.999999999999ap-4%float ActivationFunctions.relu still_world (le_n 3))
    as (net & w' & H1 & _ & H2 & _).
  exists net, w'. split; assumption.
Defined.

(** ** loadFromFile *)

Lemma get_of_readable (json v : JS.value) (key key' : string) :
  JS.get json key = Return v ->
  exists v', JS.get json key' = Return v'.
Proof.
  destruct json as [| | b | x | s | elems | fields]; cbn; intro H; try discriminate H;
    eexists; reflexivity.
Qed.

Lemma load_missing_field (fuel : nat) (m : MathLib) (json : JS.value) (key : string)
    (w : World) :
  In key Spec.required_fields ->
  JS.get json key = Return JS.Undefined ->
  NeuralNetwork.load fuel m json w = Some (Throw InvalidModel, w).
Proof.
  intros Hkey Habsent.
  destruct (get_of_readable json key "layerSizes" Habsent) as (v1 & H1).
  destruct (get_of_readable json key "weights" Habsent) as (v2 & H2).
  destruct (get_of_readable json key "biases" Habsent) as (v3 & H3).
  destruct (get_of_readable json key "epoch" Habsent) as (v4 & H4).
  unfold NeuralNetwork.load, bindW, of_outcome, throwW.
  rewrite H1.
  destruct (JS.truthy v1) eqn:T1; cbn [negb]; [| reflexivity].
  rewrite H2.
  destruct (JS.truthy v2) eqn:T2; cbn [negb]; [| reflexivity].
  rewrite H3.
  destruct (JS.truthy v3) eqn:T3; cbn [negb]; [| reflexivity].
  rewrite H4.
  destruct (JS.truthy v4) eqn:T4; cbn [negb]; [| reflexivity].
  exfalso.
  cbn in Hkey.
  destruct Hkey as [<- | [<- | [<- | [<- | []]]]];
    rewrite Habsent in *;
    match goal with
    | H : Return JS.Undefined = Return ?v, T : JS.truthy ?v = true |- _ =>
        injection H as <-; discriminate T
    end.
Qed.

Lemma load_success (fuel : nat) (m : MathLib) (json : JS.value) (w w' : World)
    (net : NeuralNetwork.t) :
  NeuralNetwork.load fuel m json w = Some (Return net, w') ->
  exists vSizes vIn vOut vEpoch fresh w1,
    JS.get json "layerSizes" = Return vSizes
    /\ JS.get json "inputNames" = Return vIn
    /\ JS.get json "outputNames" = Return vOut
    /\ JS.get json "epoch" = Return vEpoch
    /\ JS.truthy vEpoch = true
    /\ NeuralNetwork.new fuel vSizes vIn vOut 0x1.999999999999ap-4%float
         (ActivationFunctions.sigmoid m) w = Some (Return fresh, w1)
    /\ net = NeuralNetwork.with_layers (NeuralNetwork.with_epoch fresh vEpoch)
               (NeuralNetwork.layers net).
Proof.
  unfold NeuralNetwork.load, bindW, of_outcome, throwW.
  destruct (JS.get json "layerSizes") as [v1 | e]; [| discriminate].
  destruct (JS.truthy v1); cbn [negb]; [| discriminate].
  destruct (JS.get json "weights") as [v2 | e]; [| discriminate].
  destruct (JS.truthy v2); cbn [negb]; [| discriminate].
  destruct (JS.get json "biases") as [v3 | e]; [| discriminate].
  destruct (JS.truthy v3); cbn [negb]; [| discriminate].
  destruct (JS.get json "epoch") as [v4 | e]; [| discriminate].
  destruct (JS.truthy v4) eqn:T4; cbn [negb]; [| discriminate].
  destruct (JS.get json "inputNames") as [v5 | e]; [| discriminate].
  destruct (JS.get json "outputNames") as [v6 | e]; [| discriminate].
  destruct (NeuralNetwork.new fuel v1 v5 v6 _ _ w) as [[[fresh | e] w1] |] eqn:Hnew;
    [| discriminate | discriminate].
  destruct (JS.get json "activations") as [v7 | e]; [| discriminate].
  match goal with
  | |- match ?loop with _ => _ end = _ -> _ => destruct loop as [[[ls | e] w2] |]
  end; [| discriminate | discriminate].
  unfold retW. intro H. injection H as <- <-.
  exists v1, v5, v6, v4, fresh, w1. repeat split; try reflexivity; assumption.
Qed.

(** C9.  Whatever document [loadFromFile] is given: if one of [layerSizes],
    [weights], [biases], [epoch] is absent from it, the call throws the
    invalid-model error; however the call ends, the network it was invoked on
    is as before; and when it ends normally the network returned is one that
    the constructor built from the document (with the document's epoch, its
    layers rebuilt from the stored weights and biases), the same whatever the
    receiver was. *)
Theorem loadFromFile_contract (fuel : nat) (m : MathLib) (json : JS.value)
    (this : NeuralNetwork.t) (w : World) :
  (forall key, In key Spec.required_fields ->
     JS.get json key = Return JS.Undefined ->
     NeuralNetwork.loadFromFile fuel m json this w = Some (Throw InvalidModel, (this, w)))
  /\ (forall r this' w',
        NeuralNetwork.loadFromFile fuel m json this w = Some (r, (this', w')) ->
        this' = this)
  /\ (forall net this' w',
        NeuralNetwork.loadFromFile fuel m json this w = Some (Return net, (this', w')) ->
        (forall other,
           NeuralNetwork.loadFromFile fuel m json other w = Some (Return net, (other, w')))
        /\ exists vSizes vIn vOut vEpoch fresh w1,
             JS.get json "layerSizes" = Return vSizes
             /\ JS.get json "inputNames" = Return vIn
             /\ JS.get json "outputNames" = Return vOut
             /\ JS.get json "epoch" = Return vEpoch
             /\ NeuralNetwork.new fuel vSizes vIn vOut 0x1.999999999999ap-4%float
                  (ActivationFunctions.sigmoid m) w = Some (Return fresh, w1)
             /\ net = NeuralNetwork.with_layers (NeuralNetwork.with_epoch fresh vEpoch)
                        (NeuralNetwork.layers net)).
Proof.
  unfold NeuralNetwork.loadFromFile. repeat split.
  - intros key Hkey Habsent. rewrite (@load_missing_field fuel m json key w Hkey Habsent).
    reflexivity.
  - intros r this' w' H.
    destruct (NeuralNetwork.load fuel m json w) as [[r0 w0] |]; [| discriminate].
    congruence.
  - intro other.
    destruct (NeuralNetwork.load fuel m json w) as [[r0 w0] |]; [| discriminate].
    congruence.
  - destruct (NeuralNetwork.load fuel m json w) as [[r0 w0] |] eqn:Hload; [| discriminate].
    assert (Hr : r0 = Return net) by congruence. subst r0.
    destruct (@load_success fuel m json w w0 net Hload)
      as (v1 & v5 & v6 & v4 & fresh & w1 & H1 & H5 & H6 & H4 & _ & Hnew & Hnet).
    exists v1, v5, v6, v4, fresh, w1. repeat split; assumption.
Qed.

(** C10.  A document whose [epoch] member is the number 0 is refused as
    invalid, whatever else it holds: [!json.epoch] is true of 0. *)
Theorem loadFromFile_rejects_epoch_zero (fuel : nat) (m : MathLib)
    (fields : list (string * JS.value)) (this : NeuralNetwork.t) (w : World) :
  JS.lookup "epoch" fields = JS.Number 0%float ->
  NeuralNetwork.loadFromFile fuel m (JS.Object fields) this w
  = Some (Throw InvalidModel, (this, w)).
Proof.
  intro Hepoch.
  unfold NeuralNetwork.loadFromFile, NeuralNetwork.load, bindW, of_outcome, throwW.
  cbn [JS.get].
  destruct (JS.truthy (JS.lookup "layerSizes" fields)); cbn [negb]; [| reflexivity].
  destruct (JS.truthy (JS.lookup "weights" fields)); cbn [negb]; [| reflexivity].
  destruct (JS.truthy (JS.lookup "biases" fields)); cbn [negb]; [| reflexivity].
  rewrite Hepoch. reflexivity.
Qed.

(** *** A stored model, loaded *)

(** With a positive epoch the model loads, with fuel to spare or just enough. *)
Lemma stored_model_loads (this : NeuralNetwork.t) :
  exists w',
    NeuralNetwork.loadFromFile 2 stand_in_math (stored_model 1%float) this still_world
    = Some (Return (loaded_network stand_in_math 1%float), (this, w')).
Proof.
  eexists. vm_compute. reflexivity.
Qed.

Lemma loadFromFile_rejects_epoch_zero_witness :
  NeuralNetwork.loadFromFile 2 stand_in_math (stored_model 0%float)
    (loaded_network stand_in_math 1%float) still_world
  = Some (Throw InvalidModel, (loaded_network stand_in_math 1%float, still_world)).
Proof.
  apply (loadFromFile_rejects_epoch_zero 2 stand_in_math
           (("epoch"%string, JS.Number 0%float) :: stored_members)
           (loaded_network stand_in_math 1%float) still_world).
  reflexivity.
Defined.

Lemma loadFromFile_contract_witness :
  NeuralNetwork.loadFromFile 2 stand_in_math (JS.Object stored_members)
    (loaded_network stand_in_math 1%float) still_world
  = Some (Throw InvalidModel, (loaded_network stand_in_math 1%float, still_world)).
Proof.
  apply (proj1 (loadFromFile_contract 2 stand_in_math (JS.Object stored_members)
                  (loaded_network stand_in_math 1%float) still_world)
           "epoch"%string).
  - right. right. right. left. reflexivity.
  - reflexivity.
Defined.

(** ** Traversals *)

Lemma map_from_length {A B : Type} (g : A -> nat -> B) (k : nat) (a : list A) :
  length (map_from g k a) = length a.
Proof.
  revert k. induction a as [| x a IH]; intro k; [reflexivity |].
  cbn. now rewrite IH.
Qed.

Lemma map_from_nth_error {A B : Type} (g : A -> nat -> B) (k i : nat) (a : list A) :
  nth_error (map_from g k a) i = option_map (fun x => g x (k + i)) (nth_error a i).
Proof.
  revert k i. induction a as [| x a IH]; intros k i.
  - destruct i; reflexivity.
  - destruct i as [| i]; cbn.
    + now rewrite Nat.add_0_r.
    + rewrite IH. now rewrite Nat.add_succ_r.
Qed.

Lemma map_outcome_total {A B : Type} (g : A -> nat -> outcome B) (h : A -> nat -> B)
    (k : nat) (a : list A) :
  (forall i x, nth_error a i = Some x -> g x (k + i) = Return (h x (k + i))) ->
  map_outcome g k a = Return (map_from h k a).
Proof.
  revert k. induction a as [| x a IH]; intros k Hg; [reflexivity |].
  cbn. rewrite <- (Nat.add_0_r k) at 1. rewrite (Hg 0 x eq_refl).
  rewrite IH.
  - now rewrite Nat.add_0_r.
  - intros i y Hy. rewrite Nat.add_succ_l, <- Nat.add_succ_r. apply Hg. exact Hy.
Qed.

(** A method that never throws, called on each object of an array. *)
Lemma each_from_total {St A : Type} (body : nat -> M St A)
    (R : nat -> St -> St -> Prop) (k : nat) (objs : list St) :
  (forall j o, exists a o', body j o = (Return a, o') /\ R j o o') ->
  exists l objs',
    each_from body k objs = (Return l, objs')
    /\ length objs' = length objs
    /\ forall j o, nth_error objs j = Some o ->
         exists o', nth_error objs' j = Some o' /\ R (k + j) o o'.
Proof.
  intro Hbody. revert k. induction objs as [| o objs IH]; intro k.
  - exists [], []. repeat split. intros [| j] o H; discriminate H.
  - destruct (Hbody k o) as (a & o' & Hrun & HR).
    destruct (IH (S k)) as (l & objs' & Hrest & Hlen & Hnth).
    exists (a :: l), (o' :: objs'). cbn [each_from]. rewrite Hrun, Hrest.
    repeat split.
    + cbn. now rewrite Hlen.
    + intros [| j] x Hx; cbn in Hx |- *.
      * injection Hx as <-. exists o'. rewrite Nat.add_0_r. split; [reflexivity | exact HR].
      * destruct (Hnth j x Hx) as (x' & Hx' & HR').
        exists x'. rewrite Nat.add_succ_r. split; assumption.
Qed.

Lemma on_nth_spec {St A : Type} (i : nat) (m : M St A) (objs : list St) (o : St) :
  nth_error objs i = Some o ->
  on_nth i m objs
  = (fst (m o), firstn i objs ++ snd (m o) :: skipn (S i) objs)
  /\ length (firstn i objs ++ snd (m o) :: skipn (S i) objs) = length objs
  /\ forall j, nth_error (firstn i objs ++ snd (m o) :: skipn (S i) objs) j
               = if j =? i then Some (snd (m o)) else nth_error objs j.
Proof.
  intro Ho.
  assert (Hi : i < length objs) by (apply nth_error_Some; rewrite Ho; discriminate).
  unfold on_nth. rewrite Ho. destruct (m o) as [r o']. cbn [fst snd].
  repeat split.
  - apply splice_length; exact Hi.
  - intro j. apply splice_nth_error; exact Hi.
Qed.

(** ** backpropagate: the update of one neuron and of one layer *)

Lemma update_neuron_spec (lr d : float) (prevA : list float) (neuron : Neuron.t) :
  exists (u : unit) (neuron' : Neuron.t),
    NeuralNetwork.update_neuron lr d prevA neuron = (Return u, neuron')
    /\ Spec.gradient_step lr d prevA neuron neuron'.
Proof.
  unfold NeuralNetwork.update_neuron.
  set (newWeights := js_map _ (Neuron.getWeights neuron)).
  assert (Hlen : length newWeights = length (Neuron.connections neuron)).
  { unfold newWeights, js_map, Neuron.getWeights.
    now rewrite map_from_length, length_map. }
  destruct (setWeights_matching neuron newWeights Hlen)
    as (mid & Hset & Hw & Hidx & Hbase & Hact).
  exists tt. eexists. unfold bind. rewrite Hset. unfold Neuron.setBias.
  split; [reflexivity |].
  unfold Spec.gradient_step, Neuron.getBias, Neuron.getWeights in *.
  cbn [Neuron.base Neuron.connections Neuron.activation Neuron.with_base
       Perceptron.setBias Perceptron.getBias Perceptron.with_bias
       Perceptron.bias Perceptron.learningRate Perceptron.weights
       Perceptron.activationThreshold Perceptron.disableThreshold Perceptron.name].
  rewrite Hbase.
  repeat split; try assumption; try reflexivity.
  - rewrite <- (length_map index (Neuron.connections mid)), Hidx.
    apply length_map.
  - intros k w Hk. rewrite Hw. unfold newWeights, js_map.
    rewrite map_from_nth_error. unfold Neuron.getWeights. rewrite Hk. reflexivity.
Qed.

Lemma update_layer_spec (lr : float) (delta prevA : list float) (layer : list Neuron.t) :
  exists layer',
    NeuralNetwork.update_layer lr delta prevA layer = (Return tt, layer')
    /\ length layer' = length layer
    /\ forall j neuron, nth_error layer j = Some neuron ->
         exists neuron', nth_error layer' j = Some neuron'
                         /\ Spec.gradient_step lr (js_get delta j) prevA neuron neuron'.
Proof.
  destruct (@each_from_total Neuron.t unit
              (fun j => NeuralNetwork.update_neuron lr (js_get delta j) prevA)
              (fun j n n' => Spec.gradient_step lr (js_get delta j) prevA n n')
              0 layer) as (l & layer' & Hrun & Hlen & Hnth).
  { intros j o. apply update_neuron_spec. }
  exists layer'. unfold NeuralNetwork.update_layer, bind, each. rewrite Hrun.
  repeat split; assumption.
Qed.

(** ** backpropagate: the backward loop *)

Lemma nth_of_nth_error {A : Type} (l l' : list A) (i : nat) (d : A) :
  nth_error l i = nth_error l' i -> nth i l d = nth i l' d.
Proof.
  intro H. rewrite <- !nth_default_eq. unfold nth_default. now rewrite H.
Qed.

Lemma nth_of_Some {A : Type} (l : list A) (i : nat) (x d : A) :
  nth_error l i = Some x -> nth i l d = x.
Proof.
  intro H. rewrite <- nth_default_eq. unfold nth_default. now rewrite H.
Qed.

(** The backward loop over the layers [n - 1], ..., [0]: it never throws; it
    leaves the layers from [n] on alone; it moves each neuron of a layer
    [l < n] by one gradient step for the delta held at that round; and the
    delta of round [l] is computed from layer [l + 1] as the loop leaves it,
    that is, after its update. *)
Lemma backward_spec (lr : float) (activations zs : list (list float)) (n : nat) :
  forall (delta : list float) (layers : list (list Neuron.t)),
    n <= length layers ->
    exists used layers',
      NeuralNetwork.backward lr activations zs n delta layers = (Return used, layers')
      /\ length used = n
      /\ length layers' = length layers
      /\ (forall l, n <= l -> nth_error layers' l = nth_error layers l)
      /\ (0 < n -> nth (n - 1) used [] = delta)
      /\ (forall l layer, l < n -> nth_error layers l = Some layer ->
            exists layer',
              nth_error layers' l = Some layer'
              /\ length layer' = length layer
              /\ forall j neuron, nth_error layer j = Some neuron ->
                   exists neuron',
                     nth_error layer' j = Some neuron'
                     /\ Spec.gradient_step lr (js_get (nth l used []) j)
                          (nth l activations []) neuron neuron')
      /\ (forall l, S l < n ->
            nth l used []
            = NeuralNetwork.next_delta (nth (S l) layers' []) (nth l layers [])
                (nth (S l) used []) (nth l zs [])).
Proof.
  induction n as [| l IH]; intros delta layers Hn.
  - exists [], layers. cbn. repeat split; try reflexivity; intros; lia.
  - destruct (nth_error layers l) as [layer |] eqn:Hlayer.
    2:{ apply nth_error_None in Hlayer. lia. }
    destruct (update_layer_spec lr delta (nth l activations []) layer)
      as (layer1 & Hupd & Hlen1 & Hstep1).
    destruct (on_nth_spec l
                (NeuralNetwork.update_layer lr delta (nth l activations [])) layers Hlayer)
      as (Hon & Hlen_s & Hnth_s).
    rewrite Hupd in Hon, Hlen_s, Hnth_s. cbn [fst snd] in Hon, Hlen_s, Hnth_s.
    set (layers1 := firstn l layers ++ layer1 :: skipn (S l) layers) in *.
    set (delta' := match l with
                   | O => delta
                   | S l' => NeuralNetwork.next_delta (nth l layers1 []) (nth l' layers1 [])
                               delta (nth l' zs [])
                   end).
    destruct (IH delta' layers1) as (used0 & layers2 & Hrun & Hlu & Hll & Hbeyond & Hlast
                                     & Hsteps & Hdeltas); [lia |].
    exists (used0 ++ [delta]), layers2.
    assert (Hl1 : nth_error layers1 l = Some layer1)
      by (rewrite Hnth_s, Nat.eqb_refl; reflexivity).
    assert (Hother : forall k, k <> l -> nth_error layers1 k = nth_error layers k).
    { intros k Hk. rewrite Hnth_s.
      destruct (Nat.eqb_spec k l); [contradiction | reflexivity]. }
    assert (Hu_last : nth l (used0 ++ [delta]) [] = delta).
    { rewrite app_nth2 by lia. rewrite Hlu, Nat.sub_diag. reflexivity. }
    assert (Hu_low : forall k, k < l -> nth k (used0 ++ [delta]) [] = nth k used0 []).
    { intros k Hk. apply app_nth1. lia. }
    split.
    { cbn [NeuralNetwork.backward]. unfold bind, get_state, ret.
      rewrite Hon. fold delta'. rewrite Hrun. reflexivity. }
    split; [rewrite length_app; cbn; lia |].
    split; [congruence |].
    split.
    { intros k Hk. rewrite Hbeyond by lia. apply Hother. lia. }
    split.
    { intros _. replace (S l - 1) with l by lia. exact Hu_last. }
    split.
    { intros k layer_k Hk Hlk.
      destruct (Nat.eq_dec k l) as [-> | Hne].
      - assert (layer_k = layer) by congruence. subst layer_k.
        exists layer1. rewrite Hbeyond by lia. rewrite Hu_last.
        repeat split; assumption.
      - rewrite <- Hother in Hlk by exact Hne.
        destruct (Hsteps k layer_k ltac:(lia) Hlk) as (layer' & H1 & H2 & H3).
        exists layer'. rewrite Hu_low by lia. repeat split; assumption. }
    intros k Hk.
    destruct (Nat.eq_dec (S k) l) as [Hkl | Hne].
    + rewrite Hu_low by lia. rewrite Hkl, Hu_last.
      specialize (Hlast ltac:(lia)). replace (l - 1) with k in Hlast by lia.
      rewrite Hlast. unfold delta'. clear delta' Hrun Hlast.
      destruct l as [| l']; [discriminate Hkl |].
      injection Hkl as Hkl. rewrite <- Hkl in *.
      rewrite (nth_of_nth_error layers2 layers1 (S k) [])
        by (apply Hbeyond; lia).
      rewrite (nth_of_nth_error layers1 layers k []) by (apply Hother; lia).
      reflexivity.
    + rewrite !Hu_low by lia.
      rewrite (Hdeltas k) by lia.
      rewrite (nth_of_nth_error layers1 layers k []) by (apply Hother; lia).
      reflexivity.
Qed.

(** ** backpropagate: the forward pass and the output error *)

Lemma forward_snoc (layers : list (list Neuron.t)) (layer : list Neuron.t)
    (input : list float) :
  NeuralNetwork.forward (layers ++ [layer]) input
  = let st := NeuralNetwork.forward layers input in
    let prev := last (fst st) [] in
    (fst st ++ [map (fun neuron =>
                       Neuron.activate neuron (NeuralNetwork.forward_sum prev neuron)) layer],
     snd st ++ [map (NeuralNetwork.forward_sum prev) layer]).
Proof.
  unfold NeuralNetwork.forward. rewrite fold_left_app. reflexivity.
Qed.

Lemma forward_lengths (layers : list (list Neuron.t)) (input : list float) :
  length (fst (NeuralNetwork.forward layers input)) = S (length layers)
  /\ length (snd (NeuralNetwork.forward layers input)) = length layers.
Proof.
  induction layers as [| layer layers IH] using rev_ind; [split; reflexivity |].
  rewrite forward_snoc. cbn [fst snd]. rewrite !length_app. cbn [length]. lia.
Qed.

Lemma last_is_nth {A : Type} (l : list A) (d : A) :
  last l d = nth (length l - 1) l d.
Proof.
  induction l as [| x l IH] using rev_ind; [reflexivity |].
  rewrite last_last, length_app. cbn [length].
  rewrite app_nth2 by lia.
  now replace (length l + 1 - 1 - length l) with 0 by lia.
Qed.

Lemma at_last_snoc {A : Type} (l : list A) (x : A) : at_last (l ++ [x]) = Some x.
Proof.
  unfold at_last. rewrite length_app. cbn [length].
  rewrite nth_error_app2 by lia.
  now replace (length l + 1 - 1 - length l) with 0 by lia.
Qed.

(** What the forward pass retains: [activations[0]] is the input, and for
    each layer [l], [zs[l]] holds the sums of its neurons over
    [activations[l]] and [activations[l + 1]] their activations. *)
Lemma forward_spec (layers : list (list Neuron.t)) (input : list float) :
  let activations := fst (NeuralNetwork.forward layers input) in
  let zs := snd (NeuralNetwork.forward layers input) in
  nth_error activations 0 = Some input
  /\ forall l layer, nth_error layers l = Some layer ->
       nth_error zs l
       = Some (map (NeuralNetwork.forward_sum (nth l activations [])) layer)
       /\ nth_error activations (S l)
          = Some (map (fun neuron =>
                         Neuron.activate neuron
                           (NeuralNetwork.forward_sum (nth l activations []) neuron))
                    layer).
Proof.
  induction layers as [| layer0 layers IH] using rev_ind.
  - cbn. split; [reflexivity |]. intros [| l] layer H; discriminate H.
  - cbv zeta in IH |- *. rewrite forward_snoc. cbn [fst snd].
    destruct (forward_lengths layers input) as (Hla & Hlz).
    destruct IH as (H0 & IH).
    set (acts := fst (NeuralNetwork.forward layers input)) in *.
    set (zs := snd (NeuralNetwork.forward layers input)) in *.
    split.
    { rewrite nth_error_app1 by lia. exact H0. }
    intros l layer Hl.
    destruct (Nat.lt_ge_cases l (length layers)) as [Hlt | Hge].
    + rewrite nth_error_app1 in Hl by exact Hlt.
      destruct (IH l layer Hl) as (Hz & Ha).
      rewrite !nth_error_app1 by lia.
      rewrite app_nth1 by lia. split; assumption.
    + assert (Hlen : l < length (layers ++ [layer0]))
        by (apply nth_error_Some; rewrite Hl; discriminate).
      rewrite length_app in Hlen. cbn [length] in Hlen.
      assert (l = length layers) by lia. subst l.
      rewrite nth_error_app2, Nat.sub_diag in Hl by lia.
      injection Hl as <-.
      rewrite last_is_nth, Hla.
      replace (S (length layers) - 1) with (length layers) by lia.
      rewrite (app_nth1 acts) by lia.
      rewrite !nth_error_app2 by lia.
      rewrite Hlz, Nat.sub_diag.
      replace (S (length layers) - length acts) with 0 by lia.
      split; reflexivity.
Qed.

(** The output error: one entry per output neuron, each
    [(a_final[j] - target[j]) * df(z_final[j])] with the derivative of that
    neuron's own activation. *)
Lemma output_delta_spec (layers : list (list Neuron.t)) (input target : list float) :
  layers <> [] ->
  let activations := fst (NeuralNetwork.forward layers input) in
  let zs := snd (NeuralNetwork.forward layers input) in
  exists delta outputLayer,
    at_last layers = Some outputLayer
    /\ NeuralNetwork.output_delta layers activations zs target = Return delta
    /\ length delta = length outputLayer
    /\ forall j neuron, nth_error outputLayer j = Some neuron ->
         js_get delta j
         = ((js_get (last activations []) j - js_get target j)
            * df (Neuron.activation neuron) (js_get (last zs []) j))%float.
Proof.
  intro Hne.
  destruct (exists_last Hne) as (init & outputLayer & ->).
  cbv zeta. rewrite forward_snoc. cbn [fst snd].
  set (prev := last (fst (NeuralNetwork.forward init input)) []).
  set (a := map _ outputLayer).
  set (z := map _ outputLayer).
  set (h := fun (x : float) (i : nat) =>
              match nth_error outputLayer i with
              | Some neuron =>
                  ((x - js_get target i) * df (Neuron.activation neuron) (js_get z i))%float
              | None => nan
              end).
  exists (map_from h 0 a), outputLayer.
  rewrite !last_last.
  split; [apply at_last_snoc |].
  split.
  { unfold NeuralNetwork.output_delta. rewrite !at_last_snoc, last_last.
    apply map_outcome_total. intros i x Hx. cbn [Nat.add]. unfold h.
    destruct (nth_error outputLayer i) as [neuron |] eqn:Hn; [reflexivity |].
    exfalso. apply nth_error_None in Hn.
    assert (i < length a) by (apply nth_error_Some; rewrite Hx; discriminate).
    unfold a in *. rewrite length_map in *. lia. }
  split.
  { rewrite map_from_length. unfold a. apply length_map. }
  intros j neuron Hj.
  assert (Hlt : j < length a).
  { unfold a. rewrite length_map. apply nth_error_Some. rewrite Hj. discriminate. }
  unfold js_get at 1.
  rewrite (@nth_of_Some _ (map_from h 0 a) j (h (nth j a nan) j) nan).
  - unfold h. rewrite Hj. reflexivity.
  - rewrite map_from_nth_error. cbn [Nat.add].
    rewrite (nth_error_nth' a nan Hlt). reflexivity.
Qed.

(** ** backpropagate: the whole call *)

Lemma backpropagate_run (this : NeuralNetwork.t) (input target : list float) :
  NeuralNetwork.layers this <> [] ->
  let activations := fst (NeuralNetwork.forward (NeuralNetwork.layers this) input) in
  let zs := snd (NeuralNetwork.forward (NeuralNetwork.layers this) input) in
  exists delta used layers',
    NeuralNetwork.output_delta (NeuralNetwork.layers this) activations zs target
    = Return delta
    /\ NeuralNetwork.backward (NeuralNetwork.learningRate this) activations zs
         (length (NeuralNetwork.layers this)) delta (NeuralNetwork.layers this)
       = (Return used, layers')
    /\ NeuralNetwork.backpropagate_deltas input target this
       = (Return used, NeuralNetwork.with_layers this layers')
    /\ NeuralNetwork.backpropagate input target this
       = (Return tt, NeuralNetwork.with_layers this layers').
Proof.
  intros Hne activations zs.
  destruct (@output_delta_spec (NeuralNetwork.layers this) input target Hne) as (delta & outputLayer & _ & Hout & _).
  fold activations zs in Hout.
  destruct (@backward_spec (NeuralNetwork.learningRate this) activations zs
              (length (NeuralNetwork.layers this)) delta (NeuralNetwork.layers this)
              (le_n _)) as (used & layers' & Hback & _).
  exists delta, used, layers'.
  assert (Hd : NeuralNetwork.backpropagate_deltas input target this
               = (Return used, NeuralNetwork.with_layers this layers')).
  { unfold NeuralNetwork.backpropagate_deltas.
    rewrite (surjective_pairing (NeuralNetwork.forward (NeuralNetwork.layers this) input)).
    fold activations zs. rewrite Hout, Hback. reflexivity. }
  repeat split; try assumption.
  unfold NeuralNetwork.backpropagate, bind. rewrite Hd. reflexivity.
Qed.

(** C1.  On a network with at least one layer [backpropagate] ends
    normally.  The delta of the output layer is, for each output neuron [j],
    [(a_final[j] - target[j]) * df(z_final[j])] with that neuron's own
    derivative.  Then every neuron [j] of every layer [l] is moved by one
    gradient step: its [k]-th weight becomes
    [weight - learningRate * delta[j] * prevActivation[k]] and its bias
    [bias - learningRate * delta[j]], where [weight] and [bias] are those of
    the network before the call, [prevActivation] is the array
    [activations[l]] kept by the forward pass, and [delta] is the array held
    for layer [l].  Nothing else in the network changes. *)
Theorem backpropagate_update_rule (this : NeuralNetwork.t) (input target : list float) :
  NeuralNetwork.layers this <> [] ->
  let activations := fst (NeuralNetwork.forward (NeuralNetwork.layers this) input) in
  let zs := snd (NeuralNetwork.forward (NeuralNetwork.layers this) input) in
  exists deltas after,
    NeuralNetwork.backpropagate_deltas input target this = (Return deltas, after)
    /\ NeuralNetwork.backpropagate input target this = (Return tt, after)
    /\ length deltas = length (NeuralNetwork.layers this)
    /\ (forall outputLayer, at_last (NeuralNetwork.layers this) = Some outputLayer ->
          length (last deltas []) = length outputLayer
          /\ forall j neuron, nth_error outputLayer j = Some neuron ->
               js_get (last deltas []) j
               = ((js_get (last activations []) j - js_get target j)
                  * df (Neuron.activation neuron) (js_get (last zs []) j))%float)
    /\ length (NeuralNetwork.layers after) = length (NeuralNetwork.layers this)
    /\ (forall l layer, nth_error (NeuralNetwork.layers this) l = Some layer ->
          exists layer',
            nth_error (NeuralNetwork.layers after) l = Some layer'
            /\ length layer' = length layer
            /\ forall j neuron, nth_error layer j = Some neuron ->
                 exists neuron',
                   nth_error layer' j = Some neuron'
                   /\ Spec.gradient_step (NeuralNetwork.learningRate this)
                        (js_get (nth l deltas []) j) (nth l activations [])
                        neuron neuron')
    /\ after = NeuralNetwork.with_layers this (NeuralNetwork.layers after).
Proof.
  intros Hne activations zs.
  destruct (@backpropagate_run this input target Hne)
    as (delta & used & layers' & Hout & Hback & Hd & Hb).
  fold activations zs in Hout, Hback.
  destruct (@output_delta_spec (NeuralNetwork.layers this) input target Hne)
    as (delta0 & outputLayer & Hlast & Hout0 & Hlen0 & Hdelta0).
  fold activations zs in Hout0, Hdelta0.
  assert (delta0 = delta) by congruence. subst delta0.
  destruct (@backward_spec (NeuralNetwork.learningRate this) activations zs
              (length (NeuralNetwork.layers this)) delta (NeuralNetwork.layers this)
              (le_n _))
    as (used0 & layers0 & Hback0 & Hlu & Hll & _ & Hulast & Hsteps & _).
  assert (used0 = used) by congruence.
  assert (layers0 = layers') by congruence. subst used0 layers0.
  assert (Hpos : 0 < length (NeuralNetwork.layers this)).
  { destruct (NeuralNetwork.layers this); [contradiction | cbn; lia]. }
  exists used, (NeuralNetwork.with_layers this layers').
  cbn [NeuralNetwork.layers NeuralNetwork.with_layers].
  split; [exact Hd |]. split; [exact Hb |]. split; [exact Hlu |].
  split.
  { intros outputLayer' Hlast'.
    assert (outputLayer' = outputLayer) by congruence. subst outputLayer'.
    rewrite last_is_nth, Hlu, (Hulast Hpos). split; [exact Hlen0 | exact Hdelta0]. }
  split; [exact Hll |].
  split; [| reflexivity].
  intros l layer Hl. apply Hsteps; [| exact Hl].
  apply nth_error_Some. rewrite Hl. discriminate.
Qed.

(** C4.  The delta handed to layer [l] is computed after layer [l + 1] has
    been updated: for each neuron [i] of layer [l] it is the sum, over the
    neurons [j] of layer [l + 1] as they are when the call ends (each one
    gradient step away from what the forward pass used), of the weight at
    position [i] times [delta[j]], times the derivative at [zs[l][i]]. *)
Theorem backpropagate_delta_from_updated_layer (this : NeuralNetwork.t)
    (input target : list float) :
  NeuralNetwork.layers this <> [] ->
  let activations := fst (NeuralNetwork.forward (NeuralNetwork.layers this) input) in
  let zs := snd (NeuralNetwork.forward (NeuralNetwork.layers this) input) in
  exists deltas after,
    NeuralNetwork.backpropagate_deltas input target this = (Return deltas, after)
    /\ forall l prevLayer before,
         nth_error (NeuralNetwork.layers this) l = Some prevLayer ->
         nth_error (NeuralNetwork.layers this) (S l) = Some before ->
         exists updated,
           nth_error (NeuralNetwork.layers after) (S l) = Some updated
           /\ length updated = length before
           /\ (forall j neuron, nth_error before j = Some neuron ->
                 exists neuron',
                   nth_error updated j = Some neuron'
                   /\ Spec.gradient_step (NeuralNetwork.learningRate this)
                        (js_get (nth (S l) deltas []) j) (nth (S l) activations [])
                        neuron neuron')
           /\ length (nth l deltas []) = length prevLayer
           /\ forall i prevNeuron, nth_error prevLayer i = Some prevNeuron ->
                js_get (nth l deltas []) i
                = (js_reduce
                     (fun sum neuron j =>
                        (sum + js_get (Neuron.getWeights neuron) i
                               * js_get (nth (S l) deltas []) j)%float)
                     updated 0%float
                   * df (Neuron.activation prevNeuron) (js_get (nth l zs []) i))%float.
Proof.
  intros Hne activations zs.
  destruct (@backpropagate_run this input target Hne)
    as (delta & used & layers' & Hout & Hback & Hd & Hb).
  fold activations zs in Hout, Hback.
  destruct (@backward_spec (NeuralNetwork.learningRate this) activations zs
              (length (NeuralNetwork.layers this)) delta (NeuralNetwork.layers this)
              (le_n _))
    as (used0 & layers0 & Hback0 & Hlu & Hll & _ & _ & Hsteps & Hdeltas).
  assert (used0 = used) by congruence.
  assert (layers0 = layers') by congruence. subst used0 layers0.
  exists used, (NeuralNetwork.with_layers this layers').
  split; [exact Hd |].
  cbn [NeuralNetwork.layers NeuralNetwork.with_layers].
  intros l prevLayer before Hprev Hbefore.
  assert (HSl : S l < length (NeuralNetwork.layers this))
    by (apply nth_error_Some; rewrite Hbefore; discriminate).
  destruct (Hsteps (S l) before HSl Hbefore) as (updated & Hupd & Hlen & Hstep).
  exists updated. repeat split; try assumption.
  - rewrite (Hdeltas l HSl). unfold NeuralNetwork.next_delta, js_map.
    rewrite map_from_length. now rewrite (nth_of_Some _ _ [] Hprev).
  - intros i prevNeuron Hi.
    rewrite (Hdeltas l HSl) at 1. unfold NeuralNetwork.next_delta, js_map.
    rewrite (nth_of_Some _ _ [] Hprev), (nth_of_Some _ _ [] Hupd).
    unfold js_get at 1.
    erewrite nth_of_Some; [reflexivity |].
    rewrite map_from_nth_error, Hi. reflexivity.
Qed.

Lemma backpropagate_update_rule_witness :
  exists deltas after,
    NeuralNetwork.backpropagate_deltas [1%float] [0%float] crossed_network
    = (Return deltas, after)
    /\ NeuralNetwork.backpropagate [1%float] [0%float] crossed_network = (Return tt, after)
    /\ length deltas = 2.
Proof.
  destruct (backpropagate_update_rule crossed_network [1%float] [0%float])
    as (deltas & after & H1 & H2 & H3 & _).
  - discriminate.
  - exists deltas, after. repeat split; assumption.
Defined.

Lemma backpropagate_delta_from_updated_layer_witness :
  exists deltas after,
    NeuralNetwork.backpropagate_deltas [1%float] [0%float] crossed_network
    = (Return deltas, after).
Proof.
  destruct (backpropagate_delta_from_updated_layer crossed_network [1%float] [0%float])
    as (deltas & after & H1 & _).
  - discriminate.
  - exists deltas, after. exact H1.
Defined.

(** The run behind C4, by its numbers: the output neuron goes from the
    weights [0.5, 0.25] to [0.375, 0], and the delta of the hidden layer,
    [0.375, 0], is made of the new weights, not of the old ones. *)
Lemma crossed_network_run :
  exists after,
    NeuralNetwork.backpropagate_deltas [1%float] [0%float] crossed_network
    = (Return [[0.375%float; 0%float]; [1%float]], after)
    /\ map (map Neuron.getWeights) (NeuralNetwork.layers crossed_network)
       = [[[1%float]; [2%float]]; [[0.5%float; 0.25%float]]]
    /\ map (map Neuron.getWeights) (NeuralNetwork.layers after)
       = [[[0.953125%float]; [2%float]]; [[0.375%float; 0%float]]].
Proof.
  eexists. split; [vm_compute; reflexivity |]. split; vm_compute; reflexivity.
Qed.

(** C2, at the network above with input [1] and target [0].  The output
    neuron holds the weight of source 1 at position 0 and that of source 0 at
    position 1.  The delta handed to the hidden layer is [0.375, 0]: position
    by position the updated weights [0.375, 0], times the output delta 1.
    Selecting by source gives [0, 0.375] on the updated weights (and
    [0.25, 0.5] on the weights of the forward pass).  The forward pass of
    [backpropagate] pairs weights and activations by position as well, so that
    it computes the output 1 where [predict] computes 1.25. *)
Theorem backpropagate_selects_weight_by_position :
  exists after,
    NeuralNetwork.backpropagate_deltas [1%float] [0%float] crossed_network
    = (Return [[0.375%float; 0%float]; [1%float]], after)
    /\ NeuralNetwork.next_delta (nth 1 (NeuralNetwork.layers after) [])
         (nth 0 (NeuralNetwork.layers crossed_network) []) [1%float] [1%float; 2%float]
       = [0.375%float; 0%float]
    /\ Spec.next_delta_by_source (nth 1 (NeuralNetwork.layers after) [])
         (nth 0 (NeuralNetwork.layers crossed_network) []) [1%float] [1%float; 2%float]
       = [0%float; 0.375%float]
    /\ Spec.next_delta_by_source (nth 1 (NeuralNetwork.layers crossed_network) [])
         (nth 0 (NeuralNetwork.layers crossed_network) []) [1%float] [1%float; 2%float]
       = [0.25%float; 0.5%float]
    /\ snd (NeuralNetwork.forward (NeuralNetwork.layers crossed_network) [1%float])
       = [[1%float; 2%float]; [1%float]]
    /\ NeuralNetwork.predict crossed_network [1%float] = Return [1.25%float].
Proof.
  eexists. split; [vm_compute; reflexivity |].
  repeat split; vm_compute; reflexivity.
Qed.

(** C3, at the network with one neuron wired to inputs 0 and 1, on the input
    [1] (one entry short) and the target [0].  [predict] throws the
    index-range error.  [backpropagate] does not: it ends normally, having
    replaced both weights and the bias by NaN. *)
Theorem backpropagate_short_input :
  NeuralNetwork.predict two_input_network [1%float] = Throw (IndexOutOfBounds 1)
  /\ exists after,
       NeuralNetwork.backpropagate [1%float] [0%float] two_input_network
       = (Return tt, after)
       /\ map (map Neuron.getWeights) (NeuralNetwork.layers two_input_network)
          = [[[0.5%float; 0.25%float]]]
       /\ map (map Neuron.getWeights) (NeuralNetwork.layers after) = [[[nan; nan]]]
       /\ map (map Neuron.getBias) (NeuralNetwork.layers after) = [[nan]].
Proof.
  split; [vm_compute; reflexivity |].
  eexists. split; [vm_compute; reflexivity |].
  repeat split; vm_compute; reflexivity.
Qed.

(** ** predict on an input that is too short *)

Lemma predict_sum_cases (inputs : list float) (conns : list Connection) (sum : float) :
  (exists s, Neuron.predict_sum inputs conns sum = Return s)
  \/ (exists i, Neuron.predict_sum inputs conns sum = Throw (IndexOutOfBounds i)
                /\ length inputs <= i).
Proof.
  revert sum. induction conns as [| c conns IH]; intro sum.
  - left. exists sum. reflexivity.
  - cbn [Neuron.predict_sum].
    destruct (Nat.leb_spec (length inputs) (index c)) as [Hle | Hgt].
    + right. exists (index c). split; [reflexivity | exact Hle].
    + apply IH.
Qed.

Lemma predict_sum_out_of_range (inputs : list float) (conns : list Connection)
    (sum : float) :
  (exists c, In c conns /\ length inputs <= index c) ->
  exists i, Neuron.predict_sum inputs conns sum = Throw (IndexOutOfBounds i)
            /\ length inputs <= i.
Proof.
  revert sum. induction conns as [| c0 conns IH]; intros sum (c & Hin & Hc).
  - destruct Hin.
  - cbn [Neuron.predict_sum].
    destruct (Nat.leb_spec (length inputs) (index c0)) as [Hle | Hgt].
    + exists (index c0). split; [reflexivity | exact Hle].
    + apply IH. destruct Hin as [-> | Hin]; [lia |]. exists c. split; assumption.
Qed.

Lemma layer_predict_out_of_range (a : list float) (layer : list Neuron.t) (k : nat) :
  (exists neuron c, In neuron layer /\ In c (Neuron.connections neuron)
                    /\ length a <= index c) ->
  exists i, map_outcome (fun n _ => Neuron.predict n a) k layer
            = Throw (IndexOutOfBounds i)
            /\ length a <= i.
Proof.
  revert k. induction layer as [| n0 layer IH]; intros k (neuron & c & Hn & Hc & Hle).
  - destruct Hn.
  - cbn [map_outcome]. unfold Neuron.predict at 1.
    destruct (predict_sum_cases a (Neuron.connections n0) (Perceptron.bias (Neuron.base n0)))
      as [(s & Hs) | (i & Hi & Hlen)].
    + rewrite Hs.
      destruct Hn as [-> | Hn].
      * destruct (@predict_sum_out_of_range a (Neuron.connections neuron)
                    (Perceptron.bias (Neuron.base neuron))) as (i & Hi & _).
        { exists c. split; assumption. }
        congruence.
      * destruct (IH (S k)) as (i & Hi & Hlen).
        { exists neuron, c. repeat split; assumption. }
        exists i. rewrite Hi. split; [reflexivity | exact Hlen].
    + exists i. rewrite Hi. split; [reflexivity | exact Hlen].
Qed.

(** The half of C3 that holds: when a neuron of the first layer has a
    connection whose source lies beyond the input, [predict] throws the
    index-range error (and, being a function of the network, changes
    nothing). *)
Lemma predict_short_input (this : NeuralNetwork.t) (input : list float)
    (layer : list Neuron.t) (rest : list (list Neuron.t)) :
  NeuralNetwork.layers this = layer :: rest ->
  (exists neuron c, In neuron layer /\ In c (Neuron.connections neuron)
                    /\ length input <= index c) ->
  exists i, NeuralNetwork.predict this input = Throw (IndexOutOfBounds i)
            /\ length input <= i.
Proof.
  intros Hl Hshort. unfold NeuralNetwork.predict. rewrite Hl.
  cbn [NeuralNetwork.predict_layers].
  destruct (@layer_predict_out_of_range input layer 0 Hshort) as (i & Hi & Hlen).
  exists i. rewrite Hi. split; [reflexivity | exact Hlen].
Qed.

(** ** Dense wiring *)

Lemma weight_by_source_dense (conns : list Connection) (k i : nat) :
  map index conns = seq k (length conns) ->
  match find (fun c => index c =? k + i) conns with
  | Some c => weight c
  | None => nan
  end = nth i (map weight conns) nan.
Proof.
  revert k i. induction conns as [| c conns IH]; intros k i Hd.
  - destruct i; reflexivity.
  - cbn [map length seq] in Hd. injection Hd as Hc Hd.
    cbn [find map]. rewrite Hc.
    destruct i as [| i].
    + rewrite Nat.add_0_r, Nat.eqb_refl. reflexivity.
    + replace (k =? k + S i) with false by (symmetry; apply Nat.eqb_neq; lia).
      cbn [nth]. rewrite <- (IH (S k) i Hd).
      now replace (S k + i) with (k + S i) by lia.
Qed.

Lemma reduce_from_ext {A B : Type} (g h : B -> A -> nat -> B) (k : nat) (a : list A)
    (s : B) :
  (forall s x j, In x a -> g s x j = h s x j) ->
  reduce_from g k a s = reduce_from h k a s.
Proof.
  revert k s. induction a as [| x a IH]; intros k s Hext; [reflexivity |].
  cbn [reduce_from]. rewrite Hext by (left; reflexivity).
  apply IH. intros s' y j Hy. apply Hext. right. exact Hy.
Qed.

Lemma map_from_ext {A B : Type} (g h : A -> nat -> B) (k : nat) (a : list A) :
  (forall x j, g x j = h x j) -> map_from g k a = map_from h k a.
Proof.
  intro Hext. revert k. induction a as [| x a IH]; intro k; [reflexivity |].
  cbn [map_from]. now rewrite Hext, IH.
Qed.

(** When every neuron of a layer lists its connections in the order of their
    sources, as the constructor wires them, the weight at position [i] is the
    weight of source [i], and the delta that [backpropagate] hands down is the
    one selected by source. *)
Lemma next_delta_dense (layer prevLayer : list Neuron.t) (delta prevZ : list float) :
  (forall neuron, In neuron layer ->
     map index (Neuron.connections neuron)
     = seq 0 (length (Neuron.connections neuron))) ->
  NeuralNetwork.next_delta layer prevLayer delta prevZ
  = Spec.next_delta_by_source layer prevLayer delta prevZ.
Proof.
  intro Hdense. unfold NeuralNetwork.next_delta, Spec.next_delta_by_source, js_map.
  apply map_from_ext. intros prevNeuron i. f_equal.
  unfold js_reduce. apply reduce_from_ext. intros s neuron j Hin.
  unfold Spec.weight_from, js_get at 1, Neuron.getWeights.
  rewrite <- (@weight_by_source_dense (Neuron.connections neuron) 0 i (Hdense neuron Hin)).
  reflexivity.
Qed.

(** * Further properties of the model *)

Unset Implicit Arguments.

(** ** Neuron.predict *)

Lemma predict_sum_in_range (inputs : list float) (conns : list Connection) (sum : float) :
  Forall (fun c => index c < length inputs) conns ->
  Neuron.predict_sum inputs conns sum
  = Return (fold_left (fun s c => (s + js_get inputs (index c) * weight c)%float) conns sum).
Proof.
  intro Hall. revert sum. induction Hall as [| c conns Hc _ IH]; intro sum; [reflexivity |].
  cbn [Neuron.predict_sum fold_left].
  replace (length inputs <=? index c) with false by (symmetry; apply Nat.leb_gt; exact Hc).
  apply IH.
Qed.

Lemma predict_sum_returns (inputs : list float) (conns : list Connection) (sum v : float) :
  Neuron.predict_sum inputs conns sum = Return v ->
  Forall (fun c => index c < length inputs) conns.
Proof.
  revert sum. induction conns as [| c conns IH]; intros sum H; [constructor |].
  cbn [Neuron.predict_sum] in H.
  destruct (Nat.leb_spec (length inputs) (index c)) as [Hle | Hgt]; [discriminate H |].
  constructor; [exact Hgt | exact (IH _ H)].
Qed.

Lemma predict_sum_throws (inputs : list float) (conns : list Connection) (sum : float)
    (e : Error) :
  Neuron.predict_sum inputs conns sum = Throw e ->
  exists c, In c conns /\ length inputs <= index c /\ e = IndexOutOfBounds (index c).
Proof.
  revert sum. induction conns as [| c conns IH]; intros sum H; [discriminate H |].
  cbn [Neuron.predict_sum] in H.
  destruct (Nat.leb_spec (length inputs) (index c)) as [Hle | Hgt].
  - exists c. injection H as <-. repeat split; [left; reflexivity | exact Hle].
  - destruct (IH _ H) as (c' & Hc' & Hle & ->).
    exists c'. repeat split; [right; exact Hc' | exact Hle].
Qed.

Lemma predict_sum_app (inputs : list float) (l1 l2 : list Connection) (sum : float) :
  Neuron.predict_sum inputs (l1 ++ l2) sum
  = match Neuron.predict_sum inputs l1 sum with
    | Return s => Neuron.predict_sum inputs l2 s
    | Throw e => Throw e
    end.
Proof.
  revert sum. induction l1 as [| c l1 IH]; intro sum; [reflexivity |].
  cbn [app Neuron.predict_sum].
  destruct (length inputs <=? index c); [reflexivity | apply IH].
Qed.

(** X1.  [Neuron.predict] ends normally exactly when every connection reads
    inside the input; it then answers the activation of
    [bias + Σ inputs[index] * weight], the terms added in the order of the
    connection list.  Otherwise it throws the index-range error, for an index
    that some connection holds and that lies outside the input. *)
Theorem neuron_predict_in_range (this : Neuron.t) (inputs : list float) :
  ((exists v, Neuron.predict this inputs = Return v)
   <-> Forall (fun c => index c < length inputs) (Neuron.connections this))
  /\ (Forall (fun c => index c < length inputs) (Neuron.connections this) ->
        Neuron.predict this inputs
        = Return (f (Neuron.activation this)
                    (fold_left
                       (fun s c => (s + js_get inputs (index c) * weight c)%float)
                       (Neuron.connections this) (Neuron.getBias this))))
  /\ (forall e, Neuron.predict this inputs = Throw e ->
        exists c, In c (Neuron.connections this)
                  /\ length inputs <= index c
                  /\ e = IndexOutOfBounds (index c)).
Proof.
  assert (Hin : Forall (fun c => index c < length inputs) (Neuron.connections this) ->
                Neuron.predict this inputs
                = Return (f (Neuron.activation this)
                            (fold_left
                               (fun s c => (s + js_get inputs (index c) * weight c)%float)
                               (Neuron.connections this) (Neuron.getBias this)))).
  { intro Hall. unfold Neuron.predict.
    rewrite (predict_sum_in_range _ _ _ Hall). reflexivity. }
  split; [split |]; [| | split; [exact Hin |]].
  - intros (v & Hv). unfold Neuron.predict in Hv.
    destruct (Neuron.predict_sum inputs (Neuron.connections this)
                (Perceptron.bias (Neuron.base this))) as [s | e] eqn:Hs; [| discriminate Hv].
    exact (predict_sum_returns _ _ _ _ Hs).
  - intro Hall. eexists. exact (Hin Hall).
  - intros e He. unfold Neuron.predict in He.
    destruct (Neuron.predict_sum inputs (Neuron.connections this)
                (Perceptron.bias (Neuron.base this))) as [s | e'] eqn:Hs; [discriminate He |].
    injection He as <-. exact (predict_sum_throws _ _ _ _ Hs).
Qed.

Lemma neuron_predict_in_range_witness :
  Neuron.predict crossed_neuron [1%float; 2%float]
  = Return (f ActivationFunctions.leakyRelu (0 + 2 * 0.5 + 1 * 0.25)%float).
Proof.
  apply (proj1 (proj2 (neuron_predict_in_range crossed_neuron [1%float; 2%float]))).
  repeat constructor.
Defined.

(** ** NeuralNetwork.predict on a network that reads inside its vectors *)

Lemma at_last_cons {A : Type} (x y : A) (l : list A) :
  at_last (x :: y :: l) = at_last (y :: l).
Proof.
  unfold at_last. cbn [length]. rewrite !Nat.sub_succ, !Nat.sub_0_r. reflexivity.
Qed.

Lemma layer_predict_in_range (a : list float) (layer : list Neuron.t) :
  (forall neuron c, In neuron layer -> In c (Neuron.connections neuron) ->
                    index c < length a) ->
  exists a', map_outcome (fun n _ => Neuron.predict n a) 0 layer = Return a'
             /\ length a' = length layer.
Proof.
  intro Hin.
  exists (map_from
            (fun n (_ : nat) =>
               match Neuron.predict n a with Return v => v | Throw _ => nan end)
            0 layer).
  split; [| apply map_from_length].
  apply map_outcome_total. intros i n Hn.
  assert (Hall : Forall (fun c => index c < length a) (Neuron.connections n)).
  { apply Forall_forall. intros c Hc. apply (Hin n c); [| exact Hc].
    exact (nth_error_In _ _ Hn). }
  unfold Neuron.predict. rewrite (predict_sum_in_range _ _ _ Hall). reflexivity.
Qed.

(** X2.  On a network in which no connection reads past the vector it is
    given (the input for the first layer, the outputs of the layer before for
    the others), [predict] ends normally, and its answer has one entry per
    neuron of the last layer. *)
Theorem predict_on_wired_network (this : NeuralNetwork.t) (input : list float) :
  Spec.wired (length input) (NeuralNetwork.layers this) ->
  exists output,
    NeuralNetwork.predict this input = Return output
    /\ length output = match at_last (NeuralNetwork.layers this) with
                       | Some outputLayer => length outputLayer
                       | None => length input
                       end.
Proof.
  unfold NeuralNetwork.predict.
  generalize (NeuralNetwork.layers this) as layers. intro layers.
  revert input. induction layers as [| layer rest IH]; intros input Hw.
  - exists input. split; reflexivity.
  - destruct Hw as (Hlayer & Hrest).
    destruct (layer_predict_in_range input layer Hlayer) as (a' & Ha' & Hlen).
    cbn [NeuralNetwork.predict_layers]. rewrite Ha'.
    rewrite <- Hlen in Hrest.
    destruct (IH a' Hrest) as (output & Hout & Hlo).
    exists output. split; [exact Hout |].
    rewrite Hlo. destruct rest as [| next rest'].
    + cbn. exact Hlen.
    + rewrite at_last_cons.
      destruct (at_last (next :: rest')) eqn:Hlast; [reflexivity |].
      unfold at_last in Hlast. apply nth_error_None in Hlast.
      cbn [length] in Hlast. lia.
Qed.

Lemma predict_on_wired_network_witness :
  exists output,
    NeuralNetwork.predict two_input_network [1%float; 2%float] = Return output
    /\ length output = 1.
Proof.
  apply (predict_on_wired_network two_input_network [1%float; 2%float]).
  split; [| exact I].
  intros neuron c [<- | []] [<- | [<- | []]]; cbn; lia.
Defined.

(** ** Neuron: weights read and written back, connections added *)

Lemma connections_determined (l l' : list Connection) :
  map index l = map index l' -> map weight l = map weight l' -> l = l'.
Proof.
  revert l'. induction l as [| c l IH]; intros [| c' l'] Hi Hw;
    try discriminate; [reflexivity |].
  cbn in Hi, Hw. injection Hi as Hi0 Hi. injection Hw as Hw0 Hw.
  destruct c, c'. cbn in Hi0, Hw0. subst. f_equal. exact (IH _ Hi Hw).
Qed.

(** X3.  Writing back the weights that [getWeights] returned changes
    nothing: [setWeights(getWeights())] ends normally and leaves the neuron
    exactly as it was. *)
Theorem neuron_setWeights_getWeights (this : Neuron.t) :
  Neuron.setWeights (Neuron.getWeights this) this = (Return tt, this).
Proof.
  destruct (setWeights_matching this (Neuron.getWeights this))
    as (after & Hset & Hw & Hidx & Hbase & Hact).
  { unfold Neuron.getWeights. apply length_map. }
  rewrite Hset. f_equal.
  assert (Hc : Neuron.connections after = Neuron.connections this)
    by (apply connections_determined; assumption).
  destruct after, this. cbn in *. subst. reflexivity.
Qed.

(** X4.  [addConnection(i, w)] appends one connection and touches nothing
    else.  If [predict] reached the sum [s] before, it now answers the
    activation of [s + inputs[i] * w] when [i] lies inside the input (so a
    source added twice counts twice), and throws the index-range error for
    [i] when it does not. *)
Theorem neuron_addConnection (this : Neuron.t) (i : nat) (w : float)
    (inputs : list float) (s : float) :
  Neuron.predict_sum inputs (Neuron.connections this) (Neuron.getBias this) = Return s ->
  Neuron.getWeights (Neuron.addConnection this i w) = Neuron.getWeights this ++ [w]
  /\ Neuron.getBias (Neuron.addConnection this i w) = Neuron.getBias this
  /\ (i < length inputs ->
        Neuron.predict (Neuron.addConnection this i w) inputs
        = Return (f (Neuron.activation this) (s + js_get inputs i * w)%float))
  /\ (length inputs <= i ->
        Neuron.predict (Neuron.addConnection this i w) inputs
        = Throw (IndexOutOfBounds i)).
Proof.
  intro Hs. unfold Neuron.getBias, Perceptron.getBias in Hs.
  split; [unfold Neuron.getWeights, Neuron.addConnection; cbn; apply map_app |].
  split; [reflexivity |].
  unfold Neuron.predict, Neuron.addConnection.
  cbn [Neuron.connections Neuron.with_connections Neuron.base].
  rewrite predict_sum_app, Hs. cbn [Neuron.predict_sum index weight].
  split; intro Hi.
  - replace (length inputs <=? i) with false by (symmetry; apply Nat.leb_gt; exact Hi).
    reflexivity.
  - replace (length inputs <=? i) with true by (symmetry; apply Nat.leb_le; exact Hi).
    reflexivity.
Qed.

Lemma neuron_addConnection_witness :
  Neuron.predict (Neuron.addConnection crossed_neuron 1 2%float) [1%float; 2%float]
  = Return (f ActivationFunctions.leakyRelu (1.25 + 2 * 2)%float).
Proof.
  apply (proj1 (proj2 (proj2
           (neuron_addConnection crossed_neuron 1 2%float [1%float; 2%float] 1.25%float
              eq_refl)))).
  cbn. lia.
Defined.

(** ** The catalogue, by name *)

(** X5.  Every activation of the catalogue is found again from its name, as
    [loadFromFile] looks it up; a string that names none of them, and any
    value that is not a string, give the sigmoid. *)
Theorem find_activation_by_name (m : MathLib) :
  (forall a, In a (ActivationFunctions.values m) ->
     NeuralNetwork.find_activation m (JS.Str (act_name a)) = a)
  /\ (forall s, (forall a, In a (ActivationFunctions.values m) -> act_name a <> s) ->
        NeuralNetwork.find_activation m (JS.Str s) = ActivationFunctions.sigmoid m)
  /\ (forall v, (forall s, v <> JS.Str s) ->
        NeuralNetwork.find_activation m v = ActivationFunctions.sigmoid m).
Proof.
  repeat split.
  - intros a Ha. cbn in Ha.
    destruct Ha as [<- | [<- | [<- | [<- | [<- | [<- | [<- | [<- | []]]]]]]]];
      reflexivity.
  - intros s Hs. unfold NeuralNetwork.find_activation.
    destruct (JS.truthy (JS.Str s)); [| reflexivity].
    destruct (find (fun a => String.eqb (act_name a) s) (ActivationFunctions.values m))
      as [found |] eqn:Hf; [| reflexivity].
    apply find_some in Hf. destruct Hf as (Hin & Heq).
    apply String.eqb_eq in Heq. exfalso. exact (Hs found Hin Heq).
  - intros v Hv. unfold NeuralNetwork.find_activation.
    destruct v; try reflexivity; try (destruct (JS.truthy _); reflexivity).
    exfalso. exact (Hv s eq_refl).
Qed.

Lemma find_activation_by_name_witness :
  NeuralNetwork.find_activation stand_in_math (JS.Str "leakyReLU")
  = ActivationFunctions.leakyRelu.
Proof.
  apply (proj1 (find_activation_by_name stand_in_math) ActivationFunctions.leakyRelu).
  cbn. tauto.
Defined.

(** ** Counting neurons *)

Lemma count_from (layers : list (list Neuron.t)) (count : nat) :
  fold_left (fun count layer => count + length layer) layers count
  = count + length (concat layers).
Proof.
  revert count. induction layers as [| layer layers IH]; intro count.
  - cbn. lia.
  - cbn [fold_left concat]. rewrite IH, length_app. lia.
Qed.

(** X6.  [getNeuronMatrix] returns the layers without the empty ones: no
    layer it returns is empty, and the neurons it holds are all the neurons
    of the network, in the same order, [countNeurons] of them. *)
Theorem getNeuronMatrix_keeps_neurons (this : NeuralNetwork.t) :
  Forall (fun layer => layer <> []) (NeuralNetwork.getNeuronMatrix this)
  /\ concat (NeuralNetwork.getNeuronMatrix this) = concat (NeuralNetwork.layers this)
  /\ NeuralNetwork.countNeurons this
     = length (concat (NeuralNetwork.getNeuronMatrix this)).
Proof.
  unfold NeuralNetwork.getNeuronMatrix, NeuralNetwork.countNeurons.
  assert (Hc : concat (filter (fun layer : list Neuron.t => negb (length layer =? 0))
                         (NeuralNetwork.layers this))
               = concat (NeuralNetwork.layers this)).
  { induction (NeuralNetwork.layers this) as [| layer layers IH]; [reflexivity |].
    cbn [filter]. destruct layer as [| n layer].
    - cbn. exact IH.
    - cbn. rewrite IH. reflexivity. }
  repeat split.
  - apply Forall_forall. intros layer Hl. apply filter_In in Hl.
    destruct Hl as (_ & Hl). destruct layer; [discriminate Hl | discriminate].
  - exact Hc.
  - rewrite Hc, count_from. reflexivity.
Qed.

(** ** reset *)

Lemma random_weight_draw (w : World) :
  random_weight w
  = (Return (random_source w (random_calls w) * 2 - 1)%float,
     {| random_source := random_source w; random_calls := S (random_calls w) |}).
Proof. reflexivity. Qed.

Lemma replicateM_random (k : nat) (w : World) :
  replicateM k random_weight w
  = (Return (map (fun i => (random_source w (random_calls w + i) * 2 - 1)%float)
               (seq 0 k)),
     {| random_source := random_source w; random_calls := random_calls w + k |}).
Proof.
  revert w. induction k as [| k IH]; intro w.
  - cbn. rewrite Nat.add_0_r. destruct w; reflexivity.
  - cbn [replicateM]. unfold bind at 1. rewrite random_weight_draw.
    unfold bind at 1. rewrite IH. unfold ret.
    cbn [random_source random_calls seq map].
    rewrite Nat.add_0_r, <- seq_shift, map_map.
    f_equal; [f_equal; f_equal |].
    + apply map_ext. intro i. now rewrite Nat.add_succ_r.
    + f_equal. lia.
Qed.

(** X7.  [Perceptron.reset] never throws; it draws one random number per
    weight, in order, and one more for the bias, makes each of them
    [2 * r - 1], keeps the number of weights, and leaves the learning rate,
    the thresholds and the name alone. *)
Theorem perceptron_reset (this : Perceptron.t) (w : World) :
  exists after w',
    Perceptron.reset this w = (Return after, w')
    /\ Perceptron.weights after
       = map (fun i => (random_source w (random_calls w + i) * 2 - 1)%float)
           (seq 0 (length (Perceptron.weights this)))
    /\ length (Perceptron.weights after) = length (Perceptron.weights this)
    /\ Perceptron.bias after
       = (random_source w (random_calls w + length (Perceptron.weights this)) * 2 - 1)%float
    /\ Perceptron.learningRate after = Perceptron.learningRate this
    /\ Perceptron.activationThreshold after = Perceptron.activationThreshold this
    /\ Perceptron.disableThreshold after = Perceptron.disableThreshold this
    /\ Perceptron.name after = Perceptron.name this
    /\ random_source w' = random_source w
    /\ random_calls w' = random_calls w + length (Perceptron.weights this) + 1.
Proof.
  unfold Perceptron.reset, bind. rewrite replicateM_random, random_weight_draw.
  eexists. eexists. split; [reflexivity |].
  cbn [Perceptron.weights Perceptron.bias Perceptron.learningRate
       Perceptron.activationThreshold Perceptron.disableThreshold Perceptron.name
       Perceptron.with_weights Perceptron.with_bias random_source random_calls].
  repeat split.
  - now rewrite length_map, length_seq.
  - lia.
Qed.

(** X8.  [reset] on a [Neuron] is the inherited one: it re-draws the bias and
    the weight array of the perceptron underneath, and leaves the connection
    list, whose weights are the ones [predict] and [getWeights] read, and the
    activation as they were. *)
Theorem neuron_reset_keeps_connections (this : Neuron.t) (w : World) :
  exists after w',
    Neuron.reset this w = (Return after, w')
    /\ Neuron.connections after = Neuron.connections this
    /\ Neuron.getWeights after = Neuron.getWeights this
    /\ Neuron.activation after = Neuron.activation this
    /\ Neuron.getBias after
       = (random_source w
            (random_calls w + length (Perceptron.weights (Neuron.base this))) * 2 - 1)%float.
Proof.
  unfold Neuron.reset, bind, Perceptron.reset, bind.
  rewrite replicateM_random, random_weight_draw.
  eexists. eexists. split; [reflexivity |].
  repeat split.
Qed.

(** ** The perceptron rule on a Neuron *)

Lemma train_is_apply_error (this : Perceptron.t) (input : list float) (target : float) :
  Perceptron.train this input target
  = Perceptron.apply_error this input (target - Perceptron.predict this input)%float.
Proof. reflexivity. Qed.

(** X9.  [train] on a [Neuron] is the inherited perceptron rule around the
    neuron's own [predict].  When [predict] throws, so does [train], and the
    neuron is untouched.  Otherwise the bias becomes
    [bias + learningRate * (target - prediction)]; the connection list, which
    holds the weights that [predict] reads, and the activation are never
    changed. *)
Theorem neuron_train_keeps_connections (this : Neuron.t) (input : list float)
    (target : float) :
  Neuron.connections (snd (Neuron.train input target this)) = Neuron.connections this
  /\ Neuron.activation (snd (Neuron.train input target this)) = Neuron.activation this
  /\ (forall e, Neuron.predict this input = Throw e ->
        Neuron.train input target this = (Throw e, this))
  /\ (forall prediction, Neuron.predict this input = Return prediction ->
        fst (Neuron.train input target this) = Return tt
        /\ Neuron.getBias (snd (Neuron.train input target this))
           = (Neuron.getBias this
              + Perceptron.learningRate (Neuron.base this) * (target - prediction))%float).
Proof.
  unfold Neuron.train.
  destruct (Neuron.predict this input) as [p | e] eqn:Hp; cbn [fst snd].
  - split; [reflexivity |]. split; [reflexivity |].
    split; [intros e He; discriminate He |].
    intros p' Hp'. injection Hp' as <-. split; [reflexivity |].
    unfold Neuron.getBias, Perceptron.getBias, Perceptron.apply_error.
    cbn [Neuron.base Neuron.with_base Perceptron.bias Perceptron.with_bias].
    destruct (train_loop_invariant (target - p)%float input (Neuron.base this)
                (length input)) as (Hlr & Hb & _).
    rewrite Hb, Hlr. reflexivity.
  - split; [reflexivity |]. split; [reflexivity |].
    split; [intros e' He; injection He as <-; reflexivity |].
    intros p' Hp'. discriminate Hp'.
Qed.

Lemma neuron_train_keeps_connections_witness :
  Neuron.train [1%float] 0%float crossed_neuron
  = (Throw (IndexOutOfBounds 1), crossed_neuron).
Proof.
  apply (proj1 (proj2 (proj2
           (neuron_train_keeps_connections crossed_neuron [1%float] 0%float)))).
  reflexivity.
Defined.

(** ** addLayer *)

(** X10.  [addLayer] never adds a neuron.  Asked for a positive number of
    neurons it throws (its loop calls [neuron.setActivation], which does not
    exist) and leaves the network as it was; otherwise it appends an empty
    layer.  In both cases [countNeurons] is what it was. *)
Theorem addLayer_adds_no_neuron (m : MathLib) (nbNeurons : float)
    (this : NeuralNetwork.t) (w : World) :
  ((0 <? nbNeurons)%float = true ->
     exists e w', NeuralNetwork.addLayer m nbNeurons this w = (Throw e, (this, w')))
  /\ ((0 <? nbNeurons)%float = false ->
        NeuralNetwork.addLayer m nbNeurons this w
        = (Return tt,
           (NeuralNetwork.with_layers this (NeuralNetwork.layers this ++ [[]]), w)))
  /\ NeuralNetwork.countNeurons (fst (snd (NeuralNetwork.addLayer m nbNeurons this w)))
     = NeuralNetwork.countNeurons this.
Proof.
  unfold NeuralNetwork.addLayer.
  destruct (0 <? nbNeurons)%float.
  - destruct (Neuron.new _ _ _ _ w) as [[neuron | e] w'].
    + split; [intros _; exists TypeError, w'; reflexivity |].
      split; [discriminate | reflexivity].
    + split; [intros _; exists e, w'; reflexivity |].
      split; [discriminate | reflexivity].
  - split; [discriminate |]. split; [reflexivity |].
    cbn [fst snd]. unfold NeuralNetwork.countNeurons.
    cbn [NeuralNetwork.layers NeuralNetwork.with_layers].
    rewrite !count_from, concat_app, length_app. cbn. lia.
Qed.

Lemma addLayer_adds_no_neuron_witness :
  exists e w',
    NeuralNetwork.addLayer stand_in_math 3%float two_input_network still_world
    = (Throw e, (two_input_network, w')).
Proof.
  apply (proj1 (addLayer_adds_no_neuron stand_in_math 3%float two_input_network
                  still_world)).
  reflexivity.
Defined.

(** ** Comparisons of numbers *)

Lemma SFcompare_antisym (x y : spec_float) :
  SFcompare y x = option_map CompOpp (SFcompare x y).
Proof.
  destruct x as [sx | sx | | sx mx ex], y as [sy | sy | | sy my ey]; cbn;
    try reflexivity;
    try (destruct sx; reflexivity); try (destruct sy; reflexivity);
    try (destruct sx, sy; reflexivity).
  destruct sx, sy; try reflexivity; cbn [option_map]; f_equal;
    rewrite (Z.compare_antisym ex ey);
    destruct (ex ?= ey)%Z; cbn [CompOpp]; try reflexivity;
    rewrite (Pos.compare_cont_antisym mx my Eq); reflexivity.
Qed.

Lemma not_nan_spec (x : float) : is_nan x = false -> Prim2SF x <> S754_nan.
Proof.
  unfold is_nan. rewrite eqb_spec. unfold SFeqb. intros H Hn.
  rewrite Hn in H. discriminate H.
Qed.

Lemma SFcompare_defined (x y : spec_float) :
  x <> S754_nan -> y <> S754_nan -> exists c, SFcompare x y = Some c.
Proof.
  intros Hx Hy.
  destruct x as [sx | sx | | sx mx ex], y as [sy | sy | | sy my ey];
    try contradiction; cbn; eexists; reflexivity.
Qed.

(** Of two numbers, neither of them NaN, when the first is not below the
    second, the second is at most the first. *)
Lemma not_ltb_leb (x y : float) :
  is_nan x = false -> is_nan y = false -> (x <? y)%float = false -> (y <=? x)%float = true.
Proof.
  intros Hx Hy. rewrite ltb_spec, leb_spec. unfold SFltb, SFleb.
  rewrite (SFcompare_antisym (Prim2SF x) (Prim2SF y)).
  destruct (SFcompare_defined _ _ (not_nan_spec _ Hx) (not_nan_spec _ Hy)) as (c & ->).
  destruct c; cbn; intro H; try reflexivity; discriminate H.
Qed.

Lemma ltb_leb (x y : float) : (x <? y)%float = true -> (x <=? y)%float = true.
Proof.
  rewrite ltb_spec, leb_spec. unfold SFltb, SFleb.
  destruct (SFcompare (Prim2SF x) (Prim2SF y)) as [[| |] |]; intro H;
    try reflexivity; discriminate H.
Qed.

Lemma leb_not_ltb (x y : float) : (x <=? y)%float = true -> (y <? x)%float = false.
Proof.
  rewrite ltb_spec, leb_spec. unfold SFltb, SFleb.
  rewrite (SFcompare_antisym (Prim2SF x) (Prim2SF y)).
  destruct (SFcompare (Prim2SF x) (Prim2SF y)) as [[| |] |]; cbn; intro H;
    try reflexivity; discriminate H.
Qed.

Lemma leb_not_nan (x y : float) :
  (x <=? y)%float = true -> is_nan x = false /\ is_nan y = false.
Proof.
  unfold is_nan. rewrite leb_spec, !eqb_spec. unfold SFleb, SFeqb.
  destruct (Prim2SF x) as [sx | sx | | sx mx ex], (Prim2SF y) as [sy | sy | | sy my ey];
    cbn; intro H; try discriminate H; split; try reflexivity;
    try (destruct sx; reflexivity); try (destruct sy; reflexivity);
    rewrite ?Z.compare_refl, ?Pos.compare_cont_refl;
    try (destruct sx; reflexivity); try (destruct sy; reflexivity).
Qed.

(** ** The bounded-linear activation and the range of Perceptron.predict *)

Lemma Math_min_one (x : float) :
  is_nan x = false -> Math_min 1%float x = if (1 <? x)%float then 1%float else x.
Proof.
  intro Hx. unfold Math_min. rewrite Hx. cbn [orb].
  change (is_nan 1%float) with false. cbn [orb].
  destruct (1 <? x)%float; [reflexivity |].
  destruct (x <? 1)%float; reflexivity.
Qed.

Lemma Math_max_minus_one (y : float) :
  is_nan y = false -> Math_max (-1)%float y = if (y <? -1)%float then (-1)%float else y.
Proof.
  intro Hy. unfold Math_max. rewrite Hy.
  change (is_nan (-1)%float) with false. cbn [orb].
  destruct (-1 <? y)%float eqn:Hlt.
  - pose proof (leb_not_ltb _ _ (ltb_leb _ _ Hlt)) as Hn. rewrite Hn. reflexivity.
  - destruct (y <? -1)%float; reflexivity.
Qed.

Lemma linearBounded_nan (x : float) :
  is_nan x = true -> f ActivationFunctions.linearBounded x = nan.
Proof.
  intro Hx. cbn [f ActivationFunctions.linearBounded].
  unfold Math_min. rewrite Hx, orb_true_r. reflexivity.
Qed.

Lemma linearBounded_bounds (x : float) :
  is_nan x = false ->
  (-1 <=? f ActivationFunctions.linearBounded x)%float = true
  /\ (f ActivationFunctions.linearBounded x <=? 1)%float = true.
Proof.
  intro Hx. cbn [f ActivationFunctions.linearBounded]. rewrite (Math_min_one x Hx).
  destruct (1 <? x)%float eqn:H1.
  - split; reflexivity.
  - rewrite (Math_max_minus_one x Hx).
    destruct (x <? -1)%float eqn:H2.
    + split; reflexivity.
    + split.
      * apply not_ltb_leb; [exact Hx | reflexivity | exact H2].
      * apply not_ltb_leb; [reflexivity | exact Hx | exact H1].
Qed.

(** X11.  The bounded-linear activation clamps: it answers NaN for NaN, a
    number between -1 and 1 for every other argument, and the argument itself
    when that lies between -1 and 1. *)
Theorem linearBounded_clamps (x : float) :
  (is_nan x = true -> f ActivationFunctions.linearBounded x = nan)
  /\ (is_nan x = false ->
        (-1 <=? f ActivationFunctions.linearBounded x)%float = true
        /\ (f ActivationFunctions.linearBounded x <=? 1)%float = true)
  /\ ((-1 <=? x)%float = true -> (x <=? 1)%float = true ->
        f ActivationFunctions.linearBounded x = x).
Proof.
  split; [exact (linearBounded_nan x) |]. split; [exact (linearBounded_bounds x) |].
  intros Hlo Hhi. cbn [f ActivationFunctions.linearBounded].
  destruct (leb_not_nan _ _ Hhi) as (Hx & _).
  rewrite (Math_min_one x Hx), (leb_not_ltb _ _ Hhi), (Math_max_minus_one x Hx),
    (leb_not_ltb _ _ Hlo).
  reflexivity.
Qed.

Lemma linearBounded_clamps_witness :
  f ActivationFunctions.linearBounded 0.5%float = 0.5%float.
Proof.
  apply (proj2 (proj2 (linearBounded_clamps 0.5%float))); reflexivity.
Defined.

(** X12.  The answers of [Perceptron.predict]: with the threshold enabled,
    0 or 1, whatever the input; with the threshold disabled, NaN or a number
    between -1 and 1. *)
Theorem perceptron_predict_range (this : Perceptron.t) (input : list float) :
  (Perceptron.disableThreshold this = false ->
     Perceptron.predict this input = 0%float \/ Perceptron.predict this input = 1%float)
  /\ (Perceptron.disableThreshold this = true ->
        Perceptron.predict this input = nan
        \/ ((-1 <=? Perceptron.predict this input)%float = true
            /\ (Perceptron.predict this input <=? 1)%float = true)).
Proof.
  unfold Perceptron.predict, Perceptron.activate. split; intro Hd; rewrite Hd.
  - cbn [f ActivationFunctions.binary].
    destruct (0.5 <=? Perceptron.weighted_sum this input)%float; [right | left]; reflexivity.
  - destruct (is_nan (Perceptron.weighted_sum this input)) eqn:Hs.
    + left. exact (linearBounded_nan _ Hs).
    + right. exact (linearBounded_bounds _ Hs).
Qed.

Lemma perceptron_predict_range_witness :
  Perceptron.predict unit_perceptron [1%float] = 0%float
  \/ Perceptron.predict unit_perceptron [1%float] = 1%float.
Proof.
  apply (proj1 (perceptron_predict_range unit_perceptron [1%float])). reflexivity.
Defined.

(** ** Loops that draw random numbers *)

Lemma Forall2_nth_error_l {A B : Type} (R : A -> B -> Prop) (l : list A) (l' : list B) :
  Forall2 R l l' ->
  forall i x, nth_error l i = Some x -> exists y, nth_error l' i = Some y /\ R x y.
Proof.
  induction 1 as [| x0 y0 l l' HR _ IH]; intros [| i] x Hx; try discriminate Hx.
  - injection Hx as <-. exists y0. split; [reflexivity | exact HR].
  - exact (IH i x Hx).
Qed.

Lemma Forall2_nth_error_r {A B : Type} (R : A -> B -> Prop) (l : list A) (l' : list B) :
  Forall2 R l l' ->
  forall i y, nth_error l' i = Some y -> exists x, nth_error l i = Some x /\ R x y.
Proof.
  induction 1 as [| x0 y0 l l' HR _ IH]; intros [| i] y Hy; try discriminate Hy.
  - injection Hy as <-. exists x0. split; [reflexivity | exact HR].
  - exact (IH i y Hy).
Qed.

Lemma nth_error_seq_Some (a n i x : nat) :
  nth_error (seq a n) i = Some x -> x = a + i /\ i < n.
Proof.
  revert a i. induction n as [| n IH]; intros a [| i] H; try discriminate H.
  - injection H as <-. split; lia.
  - cbn in H. destruct (IH (S a) i H) as (-> & Hi). split; lia.
Qed.

Lemma mapW_inv {A B : Type} (g : A -> W B) (l : list A) (w w' : World) (ys : list B) :
  mapW g l w = Some (Return ys, w') ->
  Forall2 (fun x y => exists wa wb, g x wa = Some (Return y, wb)) l ys.
Proof.
  revert w ys. induction l as [| x l IH]; intros w ys H.
  - cbn in H. injection H as <- <-. constructor.
  - cbn [mapW] in H. unfold bindW at 1 in H.
    destruct (g x w) as [[[y | e] w1] |] eqn:Hg; try discriminate H.
    unfold bindW at 1 in H.
    destruct (mapW g l w1) as [[[ys0 | e] w2] |] eqn:Hrest; try discriminate H.
    cbn in H. injection H as <- <-.
    constructor; [exists w, w1; exact Hg | exact (IH _ _ Hrest)].
Qed.

Lemma mapW_success {A B : Type} (g : A -> W B) (R : A -> B -> Prop) (l : list A) :
  (forall x w, In x l -> exists y w', g x w = Some (Return y, w') /\ R x y) ->
  forall w, exists ys w', mapW g l w = Some (Return ys, w') /\ Forall2 R l ys.
Proof.
  induction l as [| x l IH]; intros Hg w.
  - exists [], w. split; [reflexivity | constructor].
  - destruct (Hg x w (or_introl eq_refl)) as (y & w1 & Hy & HR).
    destruct (IH (fun x' w0 Hin => Hg x' w0 (or_intror Hin)) w1) as (ys & w2 & Hys & HF).
    exists (y :: ys), w2. cbn [mapW]. unfold bindW at 1. rewrite Hy.
    unfold bindW at 1. rewrite Hys. split; [reflexivity | constructor; assumption].
Qed.

Lemma Array_from_random (sz : float) (w : World) :
  Array_from sz random_weight w
  = if (2 ^ 32 <=? ToLength sz)%Z
    then (Throw RangeError, w)
    else (Return (map (fun i => (random_source w (random_calls w + i) * 2 - 1)%float)
                    (seq 0 (Z.to_nat (ToLength sz)))),
          {| random_source := random_source w;
             random_calls := random_calls w + Z.to_nat (ToLength sz) |}).
Proof.
  unfold Array_from. destruct (2 ^ 32 <=? ToLength sz)%Z; [reflexivity |].
  apply replicateM_random.
Qed.

Lemma dense_map_from (ws : list float) (k : nat) :
  map index (map_from (fun w i => {| index := i; weight := w |}) k ws) = seq k (length ws)
  /\ map weight (map_from (fun w i => {| index := i; weight := w |}) k ws) = ws.
Proof.
  revert k. induction ws as [| x ws IH]; intro k; [split; reflexivity |].
  destruct (IH (S k)) as (Hi & Hw). cbn. rewrite Hi, Hw. split; reflexivity.
Qed.

Lemma neuron_new_cases (inputSize lr : float) (act : Activation) (w : World) :
  (exists e w', Neuron.new inputSize lr act [] w = (Throw e, w')
                /\ ~ Spec.affordable inputSize)
  \/ (exists neuron w',
        Neuron.new inputSize lr act [] w = (Return neuron, w')
        /\ Spec.affordable inputSize
        /\ length (Neuron.connections neuron) = Z.to_nat (ToLength inputSize)
        /\ Spec.dense neuron
        /\ Neuron.activation neuron = act
        /\ Perceptron.learningRate (Neuron.base neuron) = lr
        /\ Perceptron.disableThreshold (Neuron.base neuron) = false
        /\ Perceptron.name (Neuron.base neuron) = Literal "Perceptron").
Proof.
  unfold Neuron.new, Perceptron.new, Spec.affordable.
  cbn [length Nat.ltb Nat.leb].
  unfold bind, ret. rewrite Array_from_random.
  destruct (2 ^ 32 <=? ToLength inputSize)%Z eqn:H1; cbv beta iota.
  { left. eexists. eexists. split; [reflexivity |].
    intros (Hlt & _). apply Z.leb_le in H1. lia. }
  rewrite Array_from_random, length_map, length_seq.
  destruct (2 ^ 32 <=? ToLength (number_of_nat (Z.to_nat (ToLength inputSize))))%Z eqn:H2;
    cbv beta iota.
  { left. eexists. eexists. split; [reflexivity |].
    intros (_ & Hlt). apply Z.leb_le in H2. lia. }
  rewrite random_weight_draw. cbv beta iota.
  apply Z.leb_gt in H1. apply Z.leb_gt in H2.
  right. eexists. eexists. split; [reflexivity |].
  cbn [Neuron.connections Neuron.activation Neuron.base Perceptron.learningRate
       Perceptron.disableThreshold Perceptron.name].
  unfold Spec.dense. cbn [Neuron.connections]. unfold js_map.
  rewrite map_from_length, length_map, length_seq.
  destruct (dense_map_from
              (map (fun i => (random_source w (random_calls w + i) * 2 - 1)%float)
                 (seq 0 (Z.to_nat (ToLength inputSize)))) 0) as (Hd & _).
  rewrite length_map, length_seq in Hd.
  repeat split; try assumption; try reflexivity.
Qed.

(** The constructor of a neuron without explicit connections: it ends
    normally exactly when the two arrays can be made, and the neuron is then
    densely wired to [ToLength inputSize] sources. *)
Lemma neuron_new_spec (inputSize lr : float) (act : Activation) (w : World) :
  (Spec.affordable inputSize ->
     exists neuron w', Neuron.new inputSize lr act [] w = (Return neuron, w'))
  /\ (forall neuron w',
        Neuron.new inputSize lr act [] w = (Return neuron, w') ->
        Spec.affordable inputSize
        /\ length (Neuron.connections neuron) = Z.to_nat (ToLength inputSize)
        /\ Spec.dense neuron
        /\ Neuron.activation neuron = act
        /\ Perceptron.learningRate (Neuron.base neuron) = lr
        /\ Perceptron.disableThreshold (Neuron.base neuron) = false
        /\ Perceptron.name (Neuron.base neuron) = Literal "Perceptron").
Proof.
  destruct (neuron_new_cases inputSize lr act w)
    as [(e & w1 & Hrun & Hna) | (n & w1 & Hrun & Hprops)]; rewrite Hrun.
  - split; [intro Ha; contradiction | intros n w' H; discriminate H].
  - split; [intros _; exists n, w1; reflexivity |].
    intros n' w' H. injection H as <- <-. exact Hprops.
Qed.

(** ** The constructor of NeuralNetwork: what it builds *)

Lemma new_layer_inv (fuel : nat) (sizes : list float) (lr : float) (act : Activation)
    (l : nat) (w w' : World) (layer : list Neuron.t) :
  NeuralNetwork.new_layer fuel sizes lr act l w = Some (Return layer, w') ->
  iterations fuel (js_get sizes l) = Some (length layer)
  /\ forall j neuron, nth_error layer j = Some neuron ->
       Spec.affordable (js_get sizes (l - 1))
       /\ length (Neuron.connections neuron) = Z.to_nat (ToLength (js_get sizes (l - 1)))
       /\ Spec.dense neuron
       /\ Neuron.activation neuron = act
       /\ Perceptron.learningRate (Neuron.base neuron) = lr
       /\ Perceptron.disableThreshold (Neuron.base neuron) = false
       /\ Perceptron.name (Neuron.base neuron) = LayerPosition l (j + 1).
Proof.
  unfold NeuralNetwork.new_layer, loop_indices. unfold bindW at 1.
  destruct (iterations fuel (js_get sizes l)) as [k |]; [| discriminate].
  intro H. apply mapW_inv in H.
  pose proof (Forall2_length H) as Hlen. rewrite length_seq in Hlen.
  split; [now rewrite Hlen |].
  intros j neuron Hj.
  destruct (Forall2_nth_error_r _ _ _ H j neuron Hj) as (i & Hi & wa & wb & Hrun).
  apply nth_error_seq_Some in Hi. destruct Hi as (-> & _). cbn [Nat.add] in Hrun.
  unfold bindW, liftW, retW in Hrun.
  destruct (Neuron.new (js_get sizes (l - 1)) lr act [] wa) as [[n0 | e] w1] eqn:Hnew;
    [| discriminate Hrun].
  injection Hrun as <- <-.
  destruct (proj2 (neuron_new_spec _ lr act wa) n0 w1 Hnew)
    as (Ha & Hc & Hd & Hact & Hlr & Hdis & _).
  unfold Spec.dense in *.
  cbn [Neuron.connections Neuron.activation Neuron.base Neuron.with_base
       Perceptron.with_name Perceptron.learningRate Perceptron.disableThreshold
       Perceptron.name].
  split; [exact Ha |]. repeat split; try assumption; reflexivity.
Qed.

Lemma new_layer_success (fuel : nat) (sizes : list float) (lr : float) (act : Activation)
    (l k : nat) :
  iterations fuel (js_get sizes l) = Some k ->
  (0 < k -> Spec.affordable (js_get sizes (l - 1))) ->
  forall w, exists layer w',
    NeuralNetwork.new_layer fuel sizes lr act l w = Some (Return layer, w')
    /\ length layer = k.
Proof.
  intros Hk Ha w. unfold NeuralNetwork.new_layer, loop_indices.
  unfold bindW at 1. rewrite Hk.
  destruct (mapW_success
              (fun i =>
                 neuron <~ liftW (Neuron.new (js_get sizes (l - 1)) lr act []) ;;
                 retW (Neuron.with_base neuron
                         (Perceptron.with_name (Neuron.base neuron)
                            (LayerPosition l (i + 1)))))
              (fun _ _ => True) (seq 0 k)) with (w := w) as (layer & w' & Hrun & HF).
  - intros i w0 Hi. apply in_seq in Hi.
    destruct (proj1 (neuron_new_spec (js_get sizes (l - 1)) lr act w0) (Ha ltac:(lia)))
      as (n0 & w1 & Hnew).
    eexists. eexists. unfold bindW, liftW, retW. rewrite Hnew. split; [reflexivity | exact I].
  - exists layer, w'. split; [exact Hrun |].
    rewrite <- (Forall2_length HF). apply length_seq.
Qed.

Lemma as_numbers_Some (elems : list JS.value) (xs : list float) :
  JS.as_numbers elems = Some xs -> elems = map JS.Number xs.
Proof.
  revert xs. induction elems as [| v elems IH]; intros xs H.
  - cbn in H. injection H as <-. reflexivity.
  - destruct v; try discriminate H. cbn [JS.as_numbers] in H.
    destruct (JS.as_numbers elems) as [ys |]; [| discriminate H].
    cbn in H. injection H as <-. cbn. now rewrite (IH ys eq_refl).
Qed.

Lemma as_numbers_map (xs : list float) : JS.as_numbers (map JS.Number xs) = Some xs.
Proof.
  induction xs as [| x xs IH]; [reflexivity |]. cbn. rewrite IH. reflexivity.
Qed.

(** X13.  Whenever the constructor returns a network, that network has the
    shape its sizes announce: [layerSizes] is the array it was given, there
    is one layer per size after the first, layer [l] has as many neurons as
    the loop over [layerSizes[l + 1]] has rounds, and each of its neurons is
    wired densely (connection [i] reads source [i]) to [ToLength] of
    [layerSizes[l]] sources, carries the activation and the learning rate
    given to the constructor, and is named by its layer and its rank.  No
    epoch is set. *)
Theorem new_builds_shaped_network (fuel : nat) (layerSizes inputNames outputNames : JS.value)
    (lr : float) (act : Activation) (w w' : World) (net : NeuralNetwork.t) :
  NeuralNetwork.new fuel layerSizes inputNames outputNames lr act w = Some (Return net, w') ->
  layerSizes = JS.Array (map JS.Number (NeuralNetwork.layerSizes net))
  /\ Spec.shaped fuel net
  /\ NeuralNetwork.learningRate net = lr
  /\ NeuralNetwork.activation net = act
  /\ NeuralNetwork.epoch net = JS.Undefined
  /\ forall l layer j neuron,
       nth_error (NeuralNetwork.layers net) l = Some layer ->
       nth_error layer j = Some neuron ->
       Neuron.activation neuron = act
       /\ Perceptron.learningRate (Neuron.base neuron) = lr
       /\ Perceptron.disableThreshold (Neuron.base neuron) = false
       /\ Perceptron.name (Neuron.base neuron) = LayerPosition (S l) (j + 1).
Proof.
  unfold NeuralNetwork.new. unfold bindW at 1. unfold of_outcome.
  destruct (NeuralNetwork.validate layerSizes) as [sizes | e] eqn:Hval; [| discriminate].
  unfold bindW at 1.
  destruct (mapW _ _ w) as [[[layers | e] w1] |] eqn:Hlayers; try discriminate.
  unfold retW. intro H. injection H as <- <-.
  cbn [NeuralNetwork.layerSizes NeuralNetwork.layers NeuralNetwork.learningRate
       NeuralNetwork.activation NeuralNetwork.epoch].
  apply mapW_inv in Hlayers.
  pose proof (Forall2_length Hlayers) as Hlen. rewrite length_seq in Hlen.
  assert (Hls : layerSizes = JS.Array (map JS.Number sizes)).
  { apply validate_accepts in Hval. destruct Hval as (elems & -> & _ & Hnum & _).
    now rewrite (as_numbers_Some _ _ Hnum). }
  assert (Hlayer : forall l layer, nth_error layers l = Some layer ->
            exists wa wb,
              NeuralNetwork.new_layer fuel sizes lr act (S l) wa = Some (Return layer, wb)).
  { intros l layer Hl.
    destruct (Forall2_nth_error_r _ _ _ Hlayers l layer Hl) as (x & Hx & wa & wb & Hrun).
    apply nth_error_seq_Some in Hx. destruct Hx as (-> & _).
    exists wa, wb. exact Hrun. }
  split; [exact Hls |]. split.
  { unfold Spec.shaped.
    cbn [NeuralNetwork.layerSizes NeuralNetwork.layers].
    split; [rewrite <- Hls; exact Hval |]. split; [now rewrite Hlen |].
    intros l layer Hl. destruct (Hlayer l layer Hl) as (wa & wb & Hrun).
    apply new_layer_inv in Hrun. destruct Hrun as (Hit & Hn).
    cbn [Nat.sub] in Hn. rewrite Nat.sub_0_r in Hn.
    split; [exact Hit |].
    intros neuron Hin. apply In_nth_error in Hin. destruct Hin as (j & Hj).
    destruct (Hn j neuron Hj) as (Ha & Hc & Hd & _).
    split; [exact Ha |]. split; assumption. }
  split; [reflexivity |]. split; [reflexivity |]. split; [reflexivity |].
  intros l layer j neuron Hl Hj.
  destruct (Hlayer l layer Hl) as (wa & wb & Hrun).
  apply new_layer_inv in Hrun. destruct Hrun as (_ & Hn).
  destruct (Hn j neuron Hj) as (_ & _ & _ & Hact & Hlr & Hdis & Hname).
  repeat split; assumption.
Qed.

Lemma new_builds_shaped_network_witness :
  exists net,
    Spec.shaped 3 net
    /\ map (@length Neuron.t) (NeuralNetwork.layers net) = [2].
Proof.
  destruct (NeuralNetwork.new 3 (JS.Array [JS.Number 2%float; JS.Number 2%float])
              JS.Undefined JS.Undefined 0.125%float ActivationFunctions.relu still_world)
    as [[[net | e] w'] |] eqn:Hnew; try (vm_compute in Hnew; discriminate Hnew).
  exists net. split.
  - exact (proj1 (proj2 (new_builds_shaped_network _ _ _ _ _ _ _ _ _ Hnew))).
  - vm_compute in Hnew. injection Hnew as <- _. reflexivity.
Defined.

(** ** Training keeps the wiring *)

Lemma map_eq_of_nth_error {A B : Type} (g : A -> B) (l l' : list A) :
  length l' = length l ->
  (forall i x, nth_error l i = Some x ->
     exists x', nth_error l' i = Some x' /\ g x' = g x) ->
  map g l' = map g l.
Proof.
  intros Hlen H. apply nth_error_ext. intro i. rewrite !nth_error_map.
  destruct (nth_error l i) as [x |] eqn:Hx.
  - destruct (H i x Hx) as (x' & Hx' & Hg). rewrite Hx'. cbn. now rewrite Hg.
  - apply nth_error_None in Hx.
    replace (nth_error l' i) with (@None A) by (symmetry; apply nth_error_None; lia).
    reflexivity.
Qed.

(** [backpropagate] moves weights and biases only: the sources of every
    connection and every activation are after the call what they were before
    it, and so is every field of the network but [layers]. *)
Lemma backpropagate_keeps_wiring (this : NeuralNetwork.t) (input target : list float) :
  NeuralNetwork.layers this <> [] ->
  exists after,
    NeuralNetwork.backpropagate input target this = (Return tt, after)
    /\ Spec.wiring (NeuralNetwork.layers after) = Spec.wiring (NeuralNetwork.layers this)
    /\ after = NeuralNetwork.with_layers this (NeuralNetwork.layers after).
Proof.
  intro Hne.
  destruct (@backpropagate_run this input target Hne)
    as (delta & used & layers' & _ & Hback & _ & Hb).
  destruct (@backward_spec (NeuralNetwork.learningRate this)
              (fst (NeuralNetwork.forward (NeuralNetwork.layers this) input))
              (snd (NeuralNetwork.forward (NeuralNetwork.layers this) input))
              (length (NeuralNetwork.layers this)) delta (NeuralNetwork.layers this)
              (le_n _))
    as (used0 & layers0 & Hback0 & _ & Hll & _ & _ & Hsteps & _).
  assert (layers0 = layers') by congruence. subst layers0.
  exists (NeuralNetwork.with_layers this layers').
  split; [exact Hb |]. split; [| reflexivity].
  cbn [NeuralNetwork.layers NeuralNetwork.with_layers]. unfold Spec.wiring.
  apply map_eq_of_nth_error; [exact Hll |].
  intros l layer Hl.
  destruct (Hsteps l layer) as (layer' & Hl' & Hlen & Hstep);
    [apply nth_error_Some; rewrite Hl; discriminate | exact Hl |].
  exists layer'. split; [exact Hl' |].
  apply map_eq_of_nth_error; [exact Hlen |].
  intros j neuron Hj.
  destruct (Hstep j neuron Hj) as (neuron' & Hj' & _ & _ & _ & Hidx & Hact & _).
  exists neuron'. split; [exact Hj' |]. now rewrite Hidx, Hact.
Qed.

Lemma forM_invariant {St A : Type} (Inv : St -> Prop) (l : list A) (body : A -> M St unit) :
  (forall x s, In x l -> Inv s -> exists s', body x s = (Return tt, s') /\ Inv s') ->
  forall s, Inv s -> exists s', forM l body s = (Return tt, s') /\ Inv s'.
Proof.
  induction l as [| x l IH]; intros Hbody s Hs.
  - exists s. split; [reflexivity | exact Hs].
  - destruct (Hbody x s (or_introl eq_refl) Hs) as (s1 & Hrun & Hs1).
    destruct (IH (fun y s0 Hy => Hbody y s0 (or_intror Hy)) s1 Hs1) as (s2 & Hrest & Hs2).
    exists s2. cbn [forM]. unfold bind. rewrite Hrun. split; [exact Hrest | exact Hs2].
Qed.

Lemma forM_ext {St A : Type} (l : list A) (body body' : A -> M St unit) (s : St) :
  (forall x, In x l -> body x = body' x) -> forM l body s = forM l body' s.
Proof.
  revert s. induction l as [| x l IH]; intros s H; [reflexivity |].
  cbn [forM]. unfold bind. rewrite (H x (or_introl eq_refl)).
  destruct (body' x s) as [[[] | e] s']; [| reflexivity].
  apply IH. intros y Hy. apply H. right. exact Hy.
Qed.

Lemma wiring_nonempty (layers layers' : list (list Neuron.t)) :
  Spec.wiring layers' = Spec.wiring layers -> layers <> [] -> layers' <> [].
Proof.
  intros Hw Hne ->. destruct layers; [contradiction | discriminate Hw].
Qed.

Lemma shaped_of_wiring (fuel : nat) (a b : NeuralNetwork.t) :
  Spec.wiring (NeuralNetwork.layers b) = Spec.wiring (NeuralNetwork.layers a) ->
  NeuralNetwork.layerSizes b = NeuralNetwork.layerSizes a ->
  Spec.shaped fuel a -> Spec.shaped fuel b.
Proof.
  intros Hw Hs (Hval & Hcount & Hlayers). unfold Spec.shaped. rewrite Hs.
  split; [exact Hval |].
  split.
  { rewrite <- Hcount. apply (f_equal (@length _)) in Hw. unfold Spec.wiring in Hw.
    now rewrite !length_map in Hw. }
  intros l lb Hlb.
  assert (Hla : exists la, nth_error (NeuralNetwork.layers a) l = Some la
                           /\ map (fun neuron => (map index (Neuron.connections neuron),
                                                  Neuron.activation neuron)) la
                              = map (fun neuron => (map index (Neuron.connections neuron),
                                                    Neuron.activation neuron)) lb).
  { apply (f_equal (fun x => nth_error x l)) in Hw. unfold Spec.wiring in Hw.
    rewrite !nth_error_map, Hlb in Hw.
    destruct (nth_error (NeuralNetwork.layers a) l) as [la |]; [| discriminate Hw].
    exists la. split; [reflexivity |]. cbn in Hw. now injection Hw as <-. }
  destruct Hla as (la & Hla & Hsame).
  destruct (Hlayers l la Hla) as (Hit & Hn).
  assert (Hlen : length lb = length la).
  { apply (f_equal (@length _)) in Hsame. now rewrite !length_map in Hsame. }
  split; [now rewrite Hlen |].
  intros nb Hnb. apply In_nth_error in Hnb. destruct Hnb as (j & Hj).
  assert (Hna : exists na, nth_error la j = Some na
                           /\ map index (Neuron.connections na)
                              = map index (Neuron.connections nb)).
  { apply (f_equal (fun x => nth_error x j)) in Hsame.
    rewrite !nth_error_map, Hj in Hsame.
    destruct (nth_error la j) as [na |]; [| discriminate Hsame].
    exists na. split; [reflexivity |]. cbn in Hsame. now injection Hsame as -> _. }
  destruct Hna as (na & Hna & Hidx).
  destruct (Hn na (nth_error_In _ _ Hna)) as (Haff & Hc & Hd).
  assert (Hcl : length (Neuron.connections nb) = length (Neuron.connections na)).
  { apply (f_equal (@length _)) in Hidx. now rewrite !length_map in Hidx. }
  split; [exact Haff |]. split; [congruence |].
  unfold Spec.dense in *. rewrite <- Hidx, Hcl. exact Hd.
Qed.

(** The state of a network in the course of [train]: the learning rate is
    the one [train] was given, the wiring is that of the network at the
    start, and only [layers] has moved. *)
Lemma samples_keep_wiring (this : NeuralNetwork.t) (lr : float)
    (inputs targets : list (list float)) (n : nat) :
  NeuralNetwork.layers this <> [] ->
  n <= length targets ->
  forall s,
    (s = NeuralNetwork.with_layers (NeuralNetwork.with_learningRate this lr)
           (NeuralNetwork.layers s)
     /\ Spec.wiring (NeuralNetwork.layers s) = Spec.wiring (NeuralNetwork.layers this)) ->
    exists s',
      forM (seq 0 n)
        (fun i => NeuralNetwork.backpropagate_sample (nth i inputs []) (nth_error targets i)) s
      = (Return tt, s')
      /\ forM (seq 0 n)
           (fun i => NeuralNetwork.backpropagate (nth i inputs []) (nth i targets [])) s
         = (Return tt, s')
      /\ s' = NeuralNetwork.with_layers (NeuralNetwork.with_learningRate this lr)
                (NeuralNetwork.layers s')
      /\ Spec.wiring (NeuralNetwork.layers s') = Spec.wiring (NeuralNetwork.layers this).
Proof.
  intros Hne Hn s Hs.
  destruct (forM_invariant
              (fun s => s = NeuralNetwork.with_layers
                              (NeuralNetwork.with_learningRate this lr)
                              (NeuralNetwork.layers s)
                        /\ Spec.wiring (NeuralNetwork.layers s)
                           = Spec.wiring (NeuralNetwork.layers this))
              (seq 0 n)
              (fun i => NeuralNetwork.backpropagate (nth i inputs []) (nth i targets [])))
    with (s := s) as (s' & Hrun & Hs').
  - intros i s0 _ (Hs0 & Hw0).
    destruct (backpropagate_keeps_wiring s0 (nth i inputs []) (nth i targets [])
                (wiring_nonempty _ _ Hw0 Hne)) as (s1 & Hrun & Hw1 & Hs1).
    exists s1. split; [exact Hrun |]. split; [| congruence].
    rewrite Hs1, Hs0. reflexivity.
  - exact Hs.
  - exists s'. split; [| split; [exact Hrun | exact Hs']].
    rewrite <- Hrun. apply forM_ext. intros i Hi. apply in_seq in Hi.
    rewrite (nth_error_nth' targets [] (n := i)) by lia. reflexivity.
Qed.

(** X14.  With a target for every input, [train] on a network with at least
    one layer ends normally, however many epochs it runs.  Afterwards the
    learning rate of the network is the [lr] it was called with (whatever the
    constructor was given), only weights and biases have moved (the sources of
    the connections and the activations are as before), and every other field
    of the network is untouched; in particular a network that had the shape
    its sizes announce still has it. *)
Theorem train_keeps_wiring (fuel : nat) (inputs targets : list (list float))
    (epochs lr : float) (this : NeuralNetwork.t) (rounds : nat) :
  NeuralNetwork.layers this <> [] ->
  length inputs <= length targets ->
  iterations fuel epochs = Some rounds ->
  exists after,
    NeuralNetwork.train fuel inputs targets epochs lr this = Some (Return tt, after)
    /\ NeuralNetwork.learningRate after = lr
    /\ Spec.wiring (NeuralNetwork.layers after) = Spec.wiring (NeuralNetwork.layers this)
    /\ after = NeuralNetwork.with_layers (NeuralNetwork.with_learningRate this lr)
                 (NeuralNetwork.layers after)
    /\ (forall fuel', Spec.shaped fuel' this -> Spec.shaped fuel' after).
Proof.
  intros Hne Hlen Hit. unfold NeuralNetwork.train. rewrite Hit.
  destruct (forM_invariant
              (fun s => s = NeuralNetwork.with_layers
                              (NeuralNetwork.with_learningRate this lr)
                              (NeuralNetwork.layers s)
                        /\ Spec.wiring (NeuralNetwork.layers s)
                           = Spec.wiring (NeuralNetwork.layers this))
              (seq 0 rounds)
              (fun _ : nat => NeuralNetwork.train_epoch inputs targets))
    with (s := NeuralNetwork.with_learningRate this lr) as (after & Hrun & Hafter & Hw).
  - intros e s _ Hs. unfold NeuralNetwork.train_epoch.
    destruct (samples_keep_wiring this lr inputs targets (length inputs) Hne Hlen s Hs)
      as (s' & Hrun & _ & Hs').
    exists s'. split; [exact Hrun | exact Hs'].
  - split; reflexivity.
  - exists after. rewrite Hrun. split; [reflexivity |].
    split; [rewrite Hafter; reflexivity |]. split; [exact Hw |].
    split; [exact Hafter |].
    intros fuel' Hshaped. apply (shaped_of_wiring fuel' this after Hw); [| exact Hshaped].
    rewrite Hafter. reflexivity.
Qed.

Lemma train_keeps_wiring_witness :
  exists after,
    NeuralNetwork.train 3 [[1%float]; [0%float]] [[0%float]; [1%float]] 2%float 0.5%float
      crossed_network
    = Some (Return tt, after)
    /\ NeuralNetwork.learningRate after = 0.5%float.
Proof.
  destruct (train_keeps_wiring 3 [[1%float]; [0%float]] [[0%float]; [1%float]] 2%float
              0.5%float crossed_network 2)
    as (after & Hrun & Hlr & _).
  - discriminate.
  - cbn. lia.
  - reflexivity.
  - exists after. split; assumption.
Defined.

(** ** train with a target missing *)

Lemma at_last_map {A B : Type} (g : A -> B) (l : list A) :
  at_last (map g l) = option_map g (at_last l).
Proof.
  unfold at_last. rewrite length_map. apply nth_error_map.
Qed.

Lemma at_last_Some {A : Type} (l : list A) (x : A) :
  at_last l = Some x -> exists init, l = init ++ [x].
Proof.
  intro H. destruct l as [| y l]; [discriminate H |].
  destruct (@exists_last _ (y :: l)) as (init & z & Heq); [discriminate |].
  rewrite Heq in H |- *. rewrite at_last_snoc in H. injection H as ->.
  exists init. reflexivity.
Qed.

Lemma forward_last_activation (layers : list (list Neuron.t)) (input : list float)
    (outputLayer : list Neuron.t) :
  at_last layers = Some outputLayer ->
  length (last (fst (NeuralNetwork.forward layers input)) []) = length outputLayer.
Proof.
  intro H. destruct (at_last_Some _ _ H) as (init & ->).
  rewrite forward_snoc. cbn [fst]. rewrite last_last. apply length_map.
Qed.

Lemma backpropagate_without_target (this : NeuralNetwork.t) (input : list float)
    (outputLayer : list Neuron.t) :
  at_last (NeuralNetwork.layers this) = Some outputLayer ->
  outputLayer <> [] ->
  NeuralNetwork.backpropagate_sample input None this = (Throw TypeError, this).
Proof.
  intros Hlast Hne. unfold NeuralNetwork.backpropagate_sample.
  pose proof (forward_last_activation _ input _ Hlast) as Hlen.
  destruct (NeuralNetwork.forward (NeuralNetwork.layers this) input) as [activations zs].
  cbn [fst] in Hlen.
  destruct (last activations []) as [| a rest]; [| reflexivity].
  destruct outputLayer; [contradiction | discriminate Hlen].
Qed.

(** X15.  With fewer targets than inputs, on a network whose output layer
    has a neuron, [train] does not end normally: in the first epoch it applies
    [backpropagate] to the samples that have a target, in order, and throws a
    [TypeError] at the first sample without one.  The network is left as those
    first samples made it, with its learning rate already overwritten. *)
Theorem train_missing_target (fuel : nat) (inputs targets : list (list float))
    (epochs lr : float) (this : NeuralNetwork.t) (rounds : nat) :
  NeuralNetwork.layers this <> [] ->
  (forall outputLayer, at_last (NeuralNetwork.layers this) = Some outputLayer ->
                       outputLayer <> []) ->
  length targets < length inputs ->
  iterations fuel epochs = Some (S rounds) ->
  exists mid,
    forM (seq 0 (length targets))
      (fun i => NeuralNetwork.backpropagate (nth i inputs []) (nth i targets []))
      (NeuralNetwork.with_learningRate this lr)
    = (Return tt, mid)
    /\ NeuralNetwork.train fuel inputs targets epochs lr this = Some (Throw TypeError, mid)
    /\ NeuralNetwork.learningRate mid = lr.
Proof.
  intros Hne Hout Hlen Hit.
  destruct (samples_keep_wiring this lr inputs targets (length targets) Hne (le_n _)
              (NeuralNetwork.with_learningRate this lr))
    as (mid & Hsample & Hplain & Hmid & Hw); [split; reflexivity |].
  exists mid. split; [exact Hplain |]. split; [| rewrite Hmid; reflexivity].
  unfold NeuralNetwork.train. rewrite Hit. f_equal.
  cbn [seq forM]. unfold bind at 1.
  assert (Hepoch : NeuralNetwork.train_epoch inputs targets
                     (NeuralNetwork.with_learningRate this lr)
                   = (Throw TypeError, mid)).
  { unfold NeuralNetwork.train_epoch.
    replace (length inputs)
      with (length targets + S (length inputs - S (length targets))) by lia.
    rewrite seq_app, forM_app, Hsample.
    cbn [seq forM Nat.add]. unfold bind at 1.
    replace (nth_error targets (length targets)) with (@None (list float))
      by (symmetry; apply nth_error_None; lia).
    assert (Hlast : exists outputLayer,
               at_last (NeuralNetwork.layers mid) = Some outputLayer
               /\ outputLayer <> []).
    { assert (Hm := f_equal (@at_last _) Hw). unfold Spec.wiring in Hm.
      rewrite !at_last_map in Hm.
      destruct (at_last (NeuralNetwork.layers this)) as [lo |] eqn:Hlo.
      - destruct (at_last (NeuralNetwork.layers mid)) as [lm |]; [| discriminate Hm].
        exists lm. split; [reflexivity |].
        cbn in Hm. injection Hm as Hm. apply (f_equal (@length _)) in Hm.
        rewrite !length_map in Hm. specialize (Hout lo eq_refl).
        destruct lm; [destruct lo; [contradiction | discriminate Hm] | discriminate].
      - exfalso. unfold at_last in Hlo. apply nth_error_None in Hlo.
        destruct (NeuralNetwork.layers this); [contradiction | cbn in Hlo; lia]. }
    destruct Hlast as (lm & Hlm & Hlmne).
    rewrite (backpropagate_without_target mid _ lm Hlm Hlmne). reflexivity. }
  rewrite Hepoch. reflexivity.
Qed.

Lemma train_missing_target_witness :
  exists mid,
    NeuralNetwork.train 3 [[1%float]; [0%float]] [[0%float]] 2%float 0.5%float
      crossed_network
    = Some (Throw TypeError, mid)
    /\ NeuralNetwork.learningRate mid = 0.5%float.
Proof.
  destruct (train_missing_target 3 [[1%float]; [0%float]] [[0%float]] 2%float 0.5%float
              crossed_network 1)
    as (mid & _ & Hrun & Hlr).
  - discriminate.
  - intros outputLayer H. vm_compute in H. injection H as <-. discriminate.
  - cbn. lia.
  - reflexivity.
  - exists mid. split; assumption.
Defined.

(** ** A network saved, then loaded *)

Lemma stringify_parse_defined (v : JS.value) : JS.stringify_parse v <> JS.Undefined.
Proof.
  destruct v as [| | b | x | s | elems | fs]; cbn [JS.stringify_parse]; try discriminate.
  destruct (is_finite x); [destruct (is_zero x) |]; discriminate.
Qed.

Lemma saved_member (fields : list (string * JS.value)) (key : string) :
  JS.get (JS.stringify_parse (JS.Object fields)) key
  = Return (Spec.member_read (JS.lookup key fields)).
Proof.
  cbn [JS.stringify_parse JS.get]. f_equal.
  induction fields as [| [k v] fields IH]; [reflexivity |].
  assert (Hkept : v <> JS.Undefined ->
            JS.lookup key ((k, JS.stringify_parse v)
                             :: (fix members (l : list (string * JS.value)) :=
                                   match l with
                                   | [] => []
                                   | (k0, JS.Undefined) :: rest => members rest
                                   | (k0, v') :: rest =>
                                       (k0, JS.stringify_parse v') :: members rest
                                   end) fields)
            = Spec.member_read (JS.lookup key ((k, v) :: fields))).
  { intro Hv. cbn [JS.lookup]. rewrite IH.
    destruct (JS.lookup key fields) as [| | b | x | s | elems | fs] eqn:Hl.
    - cbn [Spec.member_read]. destruct (String.eqb k key); [| reflexivity].
      destruct v; try reflexivity. contradiction.
    - reflexivity.
    - reflexivity.
    - cbn [Spec.member_read].
      pose proof (stringify_parse_defined (JS.Number x)) as Hd.
      destruct (JS.stringify_parse (JS.Number x)); try reflexivity. contradiction.
    - reflexivity.
    - reflexivity.
    - reflexivity. }
  destruct v as [| | b | x | s | elems | fs];
    try (apply Hkept; discriminate).
  cbn [JS.lookup]. rewrite IH.
  destruct (JS.lookup key fields); try reflexivity.
  cbn. destruct (String.eqb k key); reflexivity.
Qed.

Lemma saved_epoch (this : NeuralNetwork.t) :
  JS.get (NeuralNetwork.saved_document this) "epoch"
  = Return (Spec.member_read (NeuralNetwork.epoch this)).
Proof.
  unfold NeuralNetwork.saved_document, NeuralNetwork.save_data.
  rewrite saved_member. reflexivity.
Qed.

(** X16.  [saveToFile] writes [this.epoch], which neither the constructor
    nor training ever sets: for a network whose epoch is [undefined] the
    member is left out of the file, and [loadFromFile] refuses that file as an
    invalid model, whatever the network holds. *)
Theorem saved_without_epoch_is_refused (fuel : nat) (m : MathLib)
    (this receiver : NeuralNetwork.t) (w : World) :
  NeuralNetwork.epoch this = JS.Undefined ->
  JS.get (NeuralNetwork.saved_document this) "epoch" = Return JS.Undefined
  /\ NeuralNetwork.loadFromFile fuel m (NeuralNetwork.saved_document this) receiver w
     = Some (Throw InvalidModel, (receiver, w)).
Proof.
  intro Hepoch.
  assert (Habsent : JS.get (NeuralNetwork.saved_document this) "epoch"
                    = Return JS.Undefined)
    by (rewrite saved_epoch, Hepoch; reflexivity).
  split; [exact Habsent |].
  unfold NeuralNetwork.loadFromFile.
  rewrite (@load_missing_field fuel m (NeuralNetwork.saved_document this) "epoch" w).
  - reflexivity.
  - cbn. tauto.
  - exact Habsent.
Qed.

Lemma saved_without_epoch_is_refused_witness :
  NeuralNetwork.loadFromFile 3 stand_in_math (NeuralNetwork.saved_document crossed_network)
    two_input_network still_world
  = Some (Throw InvalidModel, (two_input_network, still_world)).
Proof.
  apply (proj2 (saved_without_epoch_is_refused 3 stand_in_math crossed_network
                  two_input_network still_world eq_refl)).
Defined.

Lemma Forall2_seq {C : Type} (Q : nat -> C -> Prop) (s : nat) (c : list C) :
  (forall i x, nth_error c i = Some x -> Q (s + i) x) ->
  Forall2 Q (seq s (length c)) c.
Proof.
  revert s. induction c as [| x c IH]; intros s H; [constructor |].
  cbn [length seq]. constructor.
  - rewrite <- (Nat.add_0_r s). exact (H 0 x eq_refl).
  - apply IH. intros i y Hy. rewrite Nat.add_succ_l, <- Nat.add_succ_r. exact (H (S i) y Hy).
Qed.

Lemma mapW_along {A B C : Type} (g : A -> W B) (R : C -> B -> Prop)
    (l : list A) (c : list C) :
  Forall2 (fun x cx => forall w, exists y w', g x w = Some (Return y, w') /\ R cx y) l c ->
  forall w, exists ys w', mapW g l w = Some (Return ys, w') /\ Forall2 R c ys.
Proof.
  induction 1 as [| x cx l c Hx _ IH]; intro w.
  - exists [], w. split; [reflexivity | constructor].
  - destruct (Hx w) as (y & w1 & Hy & HR).
    destruct (IH w1) as (ys & w2 & Hys & HF).
    exists (y :: ys), w2. cbn [mapW]. unfold bindW at 1. rewrite Hy.
    unfold bindW at 1. rewrite Hys. split; [reflexivity | constructor; assumption].
Qed.

(** The constructor ends normally on sizes that pass the guards, when each
    loop over a size ends within the fuel and the arrays of each layer that
    has a neuron can be made. *)
Lemma new_success (fuel : nat) (layerSizes inputNames outputNames : JS.value)
    (lr : float) (act : Activation) (sizes : list float) :
  NeuralNetwork.validate layerSizes = Return sizes ->
  (forall l, l < length sizes - 1 ->
     exists k, iterations fuel (js_get sizes (S l)) = Some k
               /\ (0 < k -> Spec.affordable (js_get sizes l))) ->
  forall w, exists net w',
    NeuralNetwork.new fuel layerSizes inputNames outputNames lr act w
    = Some (Return net, w')
    /\ NeuralNetwork.layerSizes net = sizes
    /\ NeuralNetwork.learningRate net = lr.
Proof.
  intros Hval Hloops w. unfold NeuralNetwork.new. unfold bindW at 1. unfold of_outcome.
  rewrite Hval.
  destruct (mapW_success (NeuralNetwork.new_layer fuel sizes lr act) (fun _ _ => True)
              (seq 1 (length sizes - 1))) with (w := w) as (layers & w' & Hrun & _).
  - intros x w0 Hx. apply in_seq in Hx.
    destruct (Hloops (x - 1) ltac:(lia)) as (k & Hk & Ha).
    replace (S (x - 1)) with x in Hk by lia.
    destruct (new_layer_success fuel sizes lr act x k Hk Ha w0) as (layer & w1 & Hl & _).
    exists layer, w1. split; [exact Hl | exact I].
  - unfold bindW. rewrite Hrun. eexists. eexists. split; [reflexivity |].
    split; reflexivity.
Qed.

Lemma numbers_survive (xs : list float) :
  Forall Spec.survives_json xs ->
  map JS.stringify_parse (map JS.Number xs) = map JS.Number xs.
Proof.
  induction 1 as [| x xs Hx _ IH]; [reflexivity |].
  cbn [map]. rewrite IH. unfold Spec.survives_json in Hx. now rewrite Hx.
Qed.

Lemma at_index_map {A : Type} (g : A -> JS.value) (l : list A) (i : nat) (x : A) :
  nth_error l i = Some x -> JS.at_index (JS.Array (map g l)) i = Return (g x).
Proof.
  intro H. cbn [JS.at_index]. f_equal. apply nth_of_Some.
  rewrite nth_error_map, H. reflexivity.
Qed.

(** The members of the saved document, when the numbers of the network
    survive the file. *)
Lemma saved_members (m : MathLib) (this : NeuralNetwork.t) :
  Spec.storable m this ->
  JS.get (NeuralNetwork.saved_document this) "layerSizes"
  = Return (JS.Array (map JS.Number (NeuralNetwork.layerSizes this)))
  /\ JS.get (NeuralNetwork.saved_document this) "weights"
     = Return (JS.Array
                 (map (fun layer =>
                         JS.Array (map (fun neuron =>
                                          JS.Array (map JS.Number (Neuron.getWeights neuron)))
                                     layer))
                    (NeuralNetwork.layers this)))
  /\ JS.get (NeuralNetwork.saved_document this) "biases"
     = Return (JS.Array
                 (map (fun layer =>
                         JS.Array (map (fun neuron => JS.Number (Neuron.getBias neuron))
                                     layer))
                    (NeuralNetwork.layers this)))
  /\ JS.get (NeuralNetwork.saved_document this) "epoch"
     = Return (NeuralNetwork.epoch this)
  /\ JS.truthy (NeuralNetwork.epoch this) = true
  /\ JS.get (NeuralNetwork.saved_document this) "activations"
     = Return (JS.Array
                 (map (fun layer =>
                         JS.Array (map (fun neuron =>
                                          JS.Str (act_name (Neuron.activation neuron)))
                                     layer))
                    (NeuralNetwork.layers this)))
  /\ (exists v, JS.get (NeuralNetwork.saved_document this) "inputNames" = Return v)
  /\ (exists v, JS.get (NeuralNetwork.saved_document this) "outputNames" = Return v).
Proof.
  intros ((e & He & Hse & Hte) & Hsizes & Hunits).
  unfold NeuralNetwork.saved_document, NeuralNetwork.save_data.
  rewrite !saved_member.
  split.
  { change (JS.lookup "layerSizes" _)
      with (JS.Array (map JS.Number (NeuralNetwork.layerSizes this))).
    cbn [Spec.member_read JS.stringify_parse]. now rewrite (numbers_survive _ Hsizes). }
  split.
  { change (JS.lookup "weights" _)
      with (JS.Array
              (map (fun layer =>
                      JS.Array (map (fun neuron =>
                                       JS.Array (map JS.Number (Neuron.getWeights neuron)))
                                  layer))
                 (NeuralNetwork.layers this))).
    cbn [Spec.member_read JS.stringify_parse]. do 2 f_equal.
    rewrite map_map. apply map_ext_in. intros layer Hl.
    cbn [JS.stringify_parse]. f_equal.
    rewrite map_map. apply map_ext_in. intros neuron Hn.
    cbn [JS.stringify_parse]. f_equal.
    apply numbers_survive. exact (proj1 (Hunits layer neuron Hl Hn)). }
  split.
  { change (JS.lookup "biases" _)
      with (JS.Array
              (map (fun layer =>
                      JS.Array (map (fun neuron => JS.Number (Neuron.getBias neuron))
                                  layer))
                 (NeuralNetwork.layers this))).
    cbn [Spec.member_read JS.stringify_parse]. do 2 f_equal.
    rewrite map_map. apply map_ext_in. intros layer Hl.
    cbn [JS.stringify_parse]. f_equal.
    rewrite map_map. apply map_ext_in. intros neuron Hn.
    exact (proj1 (proj2 (Hunits layer neuron Hl Hn))). }
  split.
  { change (JS.lookup "epoch" _) with (NeuralNetwork.epoch this).
    rewrite He. cbn [Spec.member_read]. now rewrite Hse. }
  split; [rewrite He; exact Hte |].
  split.
  { change (JS.lookup "activations" _)
      with (JS.Array
              (map (fun layer =>
                      JS.Array (map (fun neuron =>
                                       JS.Str (act_name (Neuron.activation neuron)))
                                  layer))
                 (NeuralNetwork.layers this))).
    cbn [Spec.member_read JS.stringify_parse]. do 2 f_equal.
    rewrite map_map. apply map_ext. intro layer.
    cbn [JS.stringify_parse]. f_equal.
    rewrite map_map. reflexivity. }
  split; eexists; reflexivity.
Qed.

Lemma catalogue_name_found (m : MathLib) (a : Activation) :
  In a (ActivationFunctions.values m) ->
  NeuralNetwork.find_activation m (JS.Str (act_name a)) = a.
Proof.
  intro Ha. cbn in Ha.
  destruct Ha as [<- | [<- | [<- | [<- | [<- | [<- | [<- | [<- | []]]]]]]]]; reflexivity.
Qed.

(** One round of the inner loop of [loadFromFile], for a neuron that was
    densely wired when the file was written. *)
Lemma load_neuron (m : MathLib) (lr inSize : float)
    (jWeights jBiases layerActivations ws bs : JS.value) (l i : nat) (neuron : Neuron.t) :
  JS.at_index layerActivations i = Return (JS.Str (act_name (Neuron.activation neuron))) ->
  JS.at_index jWeights (l - 1) = Return ws ->
  JS.at_index ws i = Return (JS.Array (map JS.Number (Neuron.getWeights neuron))) ->
  JS.at_index jBiases (l - 1) = Return bs ->
  JS.at_index bs i = Return (JS.Number (Neuron.getBias neuron)) ->
  In (Neuron.activation neuron) (ActivationFunctions.values m) ->
  Spec.affordable inSize ->
  length (Neuron.connections neuron) = Z.to_nat (ToLength inSize) ->
  Spec.dense neuron ->
  forall w, exists loaded w',
    (actName <~ of_outcome (JS.at_index layerActivations i) ;;
     fresh <~ liftW (Neuron.new inSize lr (NeuralNetwork.find_activation m actName) []) ;;
     ws' <~ of_outcome (JS.at_index jWeights (l - 1)) ;;
     w' <~ of_outcome (JS.at_index ws' i) ;;
     fresh <~ NeuralNetwork.set_weights_from w' fresh ;;
     bs' <~ of_outcome (JS.at_index jBiases (l - 1)) ;;
     b <~ of_outcome (JS.at_index bs' i) ;;
     NeuralNetwork.set_bias_from b fresh) w
    = Some (Return loaded, w')
    /\ Spec.same_unit loaded neuron.
Proof.
  intros Hact Hws Hw Hbs Hb Hcat Haff Hlen Hdense w.
  unfold bindW, of_outcome, liftW. rewrite Hact.
  destruct (neuron_new_cases inSize lr
              (NeuralNetwork.find_activation m
                 (JS.Str (act_name (Neuron.activation neuron)))) w)
    as [(e & w1 & _ & Hna) | (n0 & w1 & Hnew & _ & Hc0 & Hd0 & Ha0 & _)];
    [contradiction |].
  rewrite Hnew, Hws, Hw.
  unfold NeuralNetwork.set_weights_from.
  assert (Hk : length (Neuron.getWeights neuron) = length (Neuron.connections n0)).
  { unfold Neuron.getWeights. rewrite length_map. congruence. }
  rewrite length_map, Hk, Nat.eqb_refl. cbn [negb]. rewrite as_numbers_map.
  destruct (setWeights_matching n0 (Neuron.getWeights neuron) Hk)
    as (n1 & Hset & Hgw & Hidx & Hbase & Ha1).
  rewrite Hset. unfold retW. rewrite Hbs, Hb.
  unfold NeuralNetwork.set_bias_from, retW, Neuron.setBias. cbn [snd].
  eexists. eexists. split; [reflexivity |].
  unfold Spec.same_unit.
  cbn [Neuron.connections Neuron.activation Neuron.with_base].
  repeat split.
  - apply connections_determined; [| exact Hgw].
    rewrite Hidx. unfold Spec.dense in Hd0, Hdense. rewrite Hd0, Hdense. congruence.
  - rewrite Ha1, Ha0. apply catalogue_name_found. exact Hcat.
Qed.

Lemma predict_same_unit (a b : Neuron.t) (inputs : list float) :
  Spec.same_unit a b -> Neuron.predict a inputs = Neuron.predict b inputs.
Proof.
  intros (Hc & Hb & Ha). unfold Neuron.predict, Neuron.activate.
  unfold Neuron.getBias, Perceptron.getBias in Hb. rewrite Hc, Hb, Ha. reflexivity.
Qed.

Lemma predict_layers_same (layers layers' : list (list Neuron.t)) :
  Forall2 (Forall2 Spec.same_unit) layers layers' ->
  forall a, NeuralNetwork.predict_layers layers a = NeuralNetwork.predict_layers layers' a.
Proof.
  induction 1 as [| layer layer' layers layers' Hl _ IH]; intro a; [reflexivity |].
  cbn [NeuralNetwork.predict_layers].
  assert (Hmap : forall k,
            map_outcome (fun n (_ : nat) => Neuron.predict n a) k layer
            = map_outcome (fun n (_ : nat) => Neuron.predict n a) k layer').
  { induction Hl as [| n n' layer layer' Hn _ IHl]; intro k; [reflexivity |].
    cbn [map_outcome]. rewrite (predict_same_unit n n' a Hn), IHl. reflexivity. }
  rewrite Hmap. destruct (map_outcome _ 0 layer'); [apply IH | reflexivity].
Qed.

(** X17.  A network that has the shape its sizes announce, whose weights,
    biases and sizes are numbers that a JSON file holds exactly, whose
    activations come from the catalogue and whose epoch is a number other than
    0, comes back from its own file: [loadFromFile] on what [saveToFile]
    wrote ends normally (with the fuel that the shape was measured with), and
    the network it returns has the same sizes, the same epoch and, neuron by
    neuron, the same connections, bias and activation, so that [predict]
    answers the same on every input. *)
Theorem save_then_load (fuel : nat) (m : MathLib) (this receiver : NeuralNetwork.t)
    (w : World) :
  Spec.shaped fuel this ->
  Spec.storable m this ->
  exists loaded w',
    NeuralNetwork.loadFromFile fuel m (NeuralNetwork.saved_document this) receiver w
    = Some (Return loaded, (receiver, w'))
    /\ NeuralNetwork.layerSizes loaded = NeuralNetwork.layerSizes this
    /\ NeuralNetwork.epoch loaded = NeuralNetwork.epoch this
    /\ Forall2 (Forall2 Spec.same_unit)
         (NeuralNetwork.layers this) (NeuralNetwork.layers loaded)
    /\ forall input,
         NeuralNetwork.predict loaded input = NeuralNetwork.predict this input.
Proof.
  intros Hshape Hstore.
  destruct (saved_members m this Hstore)
    as (Hsizes & Hweights & Hbiases & Hepoch & Htruthy & Hacts & (vIn & HvIn) & (vOut & HvOut)).
  destruct Hshape as (Hval & Hcount & Hlayers).
  destruct Hstore as (_ & _ & Hunits).
  set (sizes := NeuralNetwork.layerSizes this) in *.
  set (jWeights := JS.Array _) in Hweights.
  set (jBiases := JS.Array _) in Hbiases.
  set (jActs := JS.Array _) in Hacts.
  destruct (new_success fuel (JS.Array (map JS.Number sizes)) vIn vOut
              0x1.999999999999ap-4%float (ActivationFunctions.sigmoid m) sizes Hval)
    with (w := w) as (fresh & w1 & Hnew & Hfs & Hflr).
  { intros l Hl. rewrite <- Hcount in Hl.
    destruct (nth_error (NeuralNetwork.layers this) l) as [layer |] eqn:Hlayer.
    2:{ apply nth_error_None in Hlayer. lia. }
    destruct (Hlayers l layer Hlayer) as (Hit & Hn).
    exists (length layer). split; [exact Hit |].
    intro Hpos. destruct layer as [| n layer]; [cbn in Hpos; lia |].
    exact (proj1 (Hn n (or_introl eq_refl))). }
  destruct (mapW_along
              (fun l =>
                 let inSize := js_get (NeuralNetwork.layerSizes fresh) (l - 1) in
                 let outSize := js_get (NeuralNetwork.layerSizes fresh) l in
                 jLayer <~ of_outcome (JS.at_index (JS.or_else jActs (JS.Array [])) (l - 1)) ;;
                 let layerActivations := JS.or_else jLayer (JS.Array []) in
                 indices <~ loop_indices fuel outSize ;;
                 mapW (fun i =>
                         actName <~ of_outcome (JS.at_index layerActivations i) ;;
                         neuron <~ liftW (Neuron.new inSize (NeuralNetwork.learningRate fresh)
                                            (NeuralNetwork.find_activation m actName) []) ;;
                         ws <~ of_outcome (JS.at_index jWeights (l - 1)) ;;
                         w0 <~ of_outcome (JS.at_index ws i) ;;
                         neuron <~ NeuralNetwork.set_weights_from w0 neuron ;;
                         bs <~ of_outcome (JS.at_index jBiases (l - 1)) ;;
                         b <~ of_outcome (JS.at_index bs i) ;;
                         NeuralNetwork.set_bias_from b neuron)
                      indices)
              (fun layer layer' => Forall2 Spec.same_unit layer layer')
              (seq 1 (length (NeuralNetwork.layers this)))
              (NeuralNetwork.layers this))
    with (w := w1) as (layers' & w2 & Hrun & Hsame).
  { apply Forall2_seq. intros l layer Hlayer w0.
    cbn [Nat.add]. cbv zeta. cbn [Nat.sub]. rewrite !Nat.sub_0_r, Hfs.
    destruct (Hlayers l layer Hlayer) as (Hit & Hn).
    unfold bindW at 1. unfold of_outcome at 1.
    change (JS.or_else jActs (JS.Array [])) with jActs.
    unfold jActs at 1. rewrite (at_index_map _ _ l layer Hlayer).
    change (JS.or_else (JS.Array ?x) (JS.Array [])) with (JS.Array x).
    unfold bindW at 1. unfold loop_indices. fold sizes. rewrite Hit.
    apply mapW_along with (R := fun neuron loaded => Spec.same_unit neuron loaded).
    apply Forall2_seq. intros i neuron Hneuron w3. cbn [Nat.add].
    pose proof (nth_error_In _ _ Hneuron) as Hin.
    pose proof (nth_error_In _ _ Hlayer) as Hlin.
    destruct (Hn neuron Hin) as (Haff & Hlen & Hdense).
    destruct (Hunits layer neuron Hlin Hin) as (_ & _ & Hcat).
    destruct (load_neuron m (NeuralNetwork.learningRate fresh) (js_get sizes l)
                jWeights jBiases
                (JS.Array (map (fun neuron0 => JS.Str (act_name (Neuron.activation neuron0)))
                             layer))
                (JS.Array (map (fun neuron0 =>
                                  JS.Array (map JS.Number (Neuron.getWeights neuron0)))
                             layer))
                (JS.Array (map (fun neuron0 => JS.Number (Neuron.getBias neuron0)) layer))
                (S l) i neuron) with (w := w3) as (loaded & w4 & Hload & Hunit);
      try assumption.
    - apply (at_index_map (fun neuron0 => JS.Str (act_name (Neuron.activation neuron0)))).
      exact Hneuron.
    - cbn [Nat.sub]. rewrite Nat.sub_0_r. unfold jWeights.
      apply (at_index_map
               (fun layer0 =>
                  JS.Array (map (fun neuron0 =>
                                   JS.Array (map JS.Number (Neuron.getWeights neuron0)))
                              layer0))).
      exact Hlayer.
    - apply (at_index_map
               (fun neuron0 => JS.Array (map JS.Number (Neuron.getWeights neuron0)))).
      exact Hneuron.
    - cbn [Nat.sub]. rewrite Nat.sub_0_r. unfold jBiases.
      apply (at_index_map
               (fun layer0 =>
                  JS.Array (map (fun neuron0 => JS.Number (Neuron.getBias neuron0)) layer0))).
      exact Hlayer.
    - apply (at_index_map (fun neuron0 => JS.Number (Neuron.getBias neuron0))).
      exact Hneuron.
    - exists loaded, w4. cbn [Nat.sub] in Hload. rewrite !Nat.sub_0_r in Hload.
      split; [exact Hload |].
      destruct Hunit as (H1 & H2 & H3). repeat split; symmetry; assumption. }
  exists (NeuralNetwork.with_layers (NeuralNetwork.with_epoch fresh (NeuralNetwork.epoch this))
            layers'), w2.
  split.
  { unfold NeuralNetwork.loadFromFile, NeuralNetwork.load, bindW, of_outcome, throwW.
    rewrite Hsizes. cbn [JS.truthy negb].
    rewrite Hweights. unfold jWeights at 1. cbn [JS.truthy negb].
    rewrite Hbiases. unfold jBiases at 1. cbn [JS.truthy negb].
    rewrite Hepoch, Htruthy. cbn [negb].
    rewrite HvIn, HvOut, Hnew, Hacts.
    rewrite Hfs. fold sizes. rewrite <- Hcount.
    unfold bindW, of_outcome in Hrun. rewrite Hfs in Hrun. rewrite Hrun. reflexivity. }
  cbn [NeuralNetwork.layerSizes NeuralNetwork.epoch NeuralNetwork.layers
       NeuralNetwork.with_layers NeuralNetwork.with_epoch].
  split; [exact Hfs |]. split; [reflexivity |]. split; [exact Hsame |].
  intro input. unfold NeuralNetwork.predict.
  cbn [NeuralNetwork.layers NeuralNetwork.with_layers].
  symmetry. apply predict_layers_same. exact Hsame.
Qed.

Lemma save_then_load_witness :
  exists loaded w',
    NeuralNetwork.loadFromFile 2 stand_in_math
      (NeuralNetwork.saved_document (loaded_network stand_in_math 1%float))
      two_input_network still_world
    = Some (Return loaded, (two_input_network, w'))
    /\ forall input,
         NeuralNetwork.predict loaded input
         = NeuralNetwork.predict (loaded_network stand_in_math 1%float) input.
Proof.
  destruct (save_then_load 2 stand_in_math (loaded_network stand_in_math 1%float)
              two_input_network still_world)
    as (loaded & w' & Hrun & _ & _ & _ & Hpredict).
  - split; [reflexivity |]. split; [reflexivity |].
    intros [| l] layer Hl; [| destruct l; discriminate Hl].
    cbn in Hl. injection Hl as <-. split; [reflexivity |].
    intros neuron [<- | []].
    split; [split; vm_compute; reflexivity |]. split; reflexivity.
  - split; [exists 1%float; repeat split; reflexivity |].
    split; [repeat constructor |].
    intros layer neuron [<- | []] [<- | []].
    split; [repeat constructor |]. split; [reflexivity |]. cbn. tauto.
  - exists loaded, w'. split; assumption.
Defined.

(** ** Perceptron.fit without shuffling *)

(** The settings of a perceptron: everything but its weights and bias. *)
Lemma perceptron_train_settings (this : Perceptron.t) (input : list float) (target : float) :
  Perceptron.learningRate (Perceptron.train this input target) = Perceptron.learningRate this
  /\ Perceptron.activationThreshold (Perceptron.train this input target)
     = Perceptron.activationThreshold this
  /\ Perceptron.disableThreshold (Perceptron.train this input target)
     = Perceptron.disableThreshold this
  /\ Perceptron.name (Perceptron.train this input target) = Perceptron.name this
  /\ length (Perceptron.weights (Perceptron.train this input target))
     = Nat.max (length (Perceptron.weights this)) (length input).
Proof.
  destruct (train_loop_invariant (target - Perceptron.predict this input)%float input this
              (length input)) as (Hlr & _ & Ht & Hd & Hn & Hlen & _).
  unfold Perceptron.train.
  cbn [Perceptron.learningRate Perceptron.activationThreshold Perceptron.disableThreshold
       Perceptron.name Perceptron.weights Perceptron.with_bias].
  repeat split; assumption.
Qed.

Lemma perceptron_pass_settings (data : list (list float * float)) (this : Perceptron.t) :
  let after := fold_left (fun o xy => Perceptron.train o (fst xy) (snd xy)) data this in
  Perceptron.learningRate after = Perceptron.learningRate this
  /\ Perceptron.activationThreshold after = Perceptron.activationThreshold this
  /\ Perceptron.disableThreshold after = Perceptron.disableThreshold this
  /\ Perceptron.name after = Perceptron.name this
  /\ length (Perceptron.weights after)
     = fold_left Nat.max (map (fun xy => length (fst xy)) data)
         (length (Perceptron.weights this)).
Proof.
  revert this. induction data as [| [x y] data IH]; intro this; cbv zeta.
  - cbn. repeat split; reflexivity.
  - cbn [fold_left map fst snd].
    destruct (IH (Perceptron.train this x y)) as (Hlr & Ht & Hd & Hn & Hlen).
    destruct (perceptron_train_settings this x y) as (Hlr' & Ht' & Hd' & Hn' & Hlen').
    cbv zeta in Hlr, Ht, Hd, Hn, Hlen.
    rewrite Hlr, Ht, Hd, Hn, Hlen, Hlen'. repeat split; assumption.
Qed.

Lemma fold_max_absorbs (sizes : list nat) (n : nat) :
  fold_left Nat.max sizes (fold_left Nat.max sizes n) = fold_left Nat.max sizes n.
Proof.
  assert (Hge : forall l k, k <= fold_left Nat.max l k).
  { induction l as [| a l IH]; intro k; [apply Nat.le_refl |].
    cbn [fold_left]. etransitivity; [| apply IH]. apply Nat.le_max_l. }
  assert (Hmono : forall l k k', k <= k' -> fold_left Nat.max l k <= fold_left Nat.max l k').
  { induction l as [| a l IH]; intros k k' Hk; [exact Hk |].
    cbn [fold_left]. apply IH. lia. }
  assert (Hfix : forall l k, (forall a, In a l -> a <= k) -> fold_left Nat.max l k = k).
  { induction l as [| a l IH]; intros k Hk; [reflexivity |].
    cbn [fold_left]. rewrite Nat.max_l by (apply Hk; left; reflexivity).
    apply IH. intros b Hb. apply Hk. right. exact Hb. }
  apply Hfix. intros a Ha.
  revert n. induction sizes as [| b sizes IH]; intro n; [destruct Ha |].
  cbn [fold_left]. destruct Ha as [-> | Ha].
  - etransitivity; [| apply Hge]. apply Nat.le_max_r.
  - apply IH. exact Ha.
Qed.

(** X18.  [fit] with [shuffle] false.  When [epochs] is not a positive number
    (zero, negative or NaN) it returns at once and the perceptron is as it
    was.  Otherwise, once its loop over the epochs has ended, the learning
    rate, the thresholds and the name are as before, and the weight array
    has grown to the length of the longest input of the data, or kept its
    length if that was longer. *)
Theorem perceptron_fit_in_order (fuel : nat) (data : list (list float * float))
    (epochs : float) (this : Perceptron.t) :
  ((0 <? epochs)%float = false ->
     Perceptron.fit_in_order (S fuel) data epochs this = Some this)
  /\ forall after,
       (0 <? epochs)%float = true ->
       Perceptron.fit_in_order fuel data epochs this = Some after ->
       Perceptron.learningRate after = Perceptron.learningRate this
       /\ Perceptron.activationThreshold after = Perceptron.activationThreshold this
       /\ Perceptron.disableThreshold after = Perceptron.disableThreshold this
       /\ Perceptron.name after = Perceptron.name this
       /\ length (Perceptron.weights after)
          = fold_left Nat.max (map (fun xy => length (fst xy)) data)
              (length (Perceptron.weights this)).
Proof.
  split.
  - intro Hno. unfold Perceptron.fit_in_order, iterations. cbn [iterations_from].
    rewrite Hno. reflexivity.
  - intros after Hpos Hfit. unfold Perceptron.fit_in_order in Hfit.
    destruct (iterations fuel epochs) as [rounds |] eqn:Hit; [| discriminate Hfit].
    injection Hfit as <-.
    assert (Hrounds : exists k, rounds = S k).
    { unfold iterations in Hit. destruct fuel as [| fuel']; [discriminate Hit |].
      cbn [iterations_from] in Hit. rewrite Hpos in Hit.
      destruct (iterations_from fuel' (0 + 1)%float epochs) as [k |]; [| discriminate Hit].
      exists k. now injection Hit as <-. }
    destruct Hrounds as (k & ->). clear Hit.
    induction k as [| k IH].
    + unfold for_upto. cbn [seq fold_left]. apply perceptron_pass_settings.
    + rewrite for_upto_S.
      destruct IH as (Hlr & Ht & Hd & Hn & Hlen).
      destruct (perceptron_pass_settings data
                  (for_upto (S k)
                     (fun o (_ : nat) =>
                        fold_left (fun o' xy => Perceptron.train o' (fst xy) (snd xy)) data o)
                     this))
        as (Hlr' & Ht' & Hd' & Hn' & Hlen').
      cbv zeta in Hlr', Ht', Hd', Hn', Hlen'.
      rewrite Hlr', Ht', Hd', Hn', Hlen', Hlen.
      repeat split; try assumption. apply fold_max_absorbs.
Qed.

Lemma perceptron_fit_in_order_witness :
  Perceptron.fit_in_order 1 [([1%float], 0%float)] (-3)%float unit_perceptron
  = Some unit_perceptron.
Proof.
  apply (proj1 (perceptron_fit_in_order 0 [([1%float], 0%float)] (-3)%float unit_perceptron)).
  reflexivity.
Defined.

(** ** The activation threshold of a perceptron *)

Lemma train_loop_threshold (error threshold : float) (input : list float)
    (this : Perceptron.t) (n : nat) :
  for_upto n
    (fun (o : Perceptron.t) i =>
       Perceptron.with_weights o
         (js_set (Perceptron.weights o) i
            (js_get (Perceptron.weights o) i
             + Perceptron.learningRate o * error * js_get input i)%float))
    (Perceptron.setActivationThreshold this threshold)
  = Perceptron.setActivationThreshold
      (for_upto n
         (fun (o : Perceptron.t) i =>
            Perceptron.with_weights o
              (js_set (Perceptron.weights o) i
                 (js_get (Perceptron.weights o) i
                  + Perceptron.learningRate o * error * js_get input i)%float))
         this)
      threshold.
Proof.
  induction n as [| n IH]; [reflexivity |].
  rewrite !for_upto_S, IH. reflexivity.
Qed.

(** X19.  The [activationThreshold] of a perceptron is never read: setting
    it changes no prediction, whatever the input and whether the threshold
    is enabled or not, and training after setting it gives the weights and
    the bias that training alone gives. *)
Theorem perceptron_activationThreshold_unused (this : Perceptron.t) (threshold : float)
    (input : list float) (target : float) :
  Perceptron.predict (Perceptron.setActivationThreshold this threshold) input
  = Perceptron.predict this input
  /\ Perceptron.train (Perceptron.setActivationThreshold this threshold) input target
     = Perceptron.setActivationThreshold (Perceptron.train this input target) threshold.
Proof.
  assert (Hpredict : Perceptron.predict (Perceptron.setActivationThreshold this threshold) input
                     = Perceptron.predict this input) by reflexivity.
  split; [exact Hpredict |].
  unfold Perceptron.train. rewrite Hpredict, train_loop_threshold. reflexivity.
Qed.
